(** * Dynamic-quantization multi-head attention kernel: descriptor validation,
      workspace sizing and the orchestration of [execute]

    Shallow embedding of
    [kernels/src/kernels/dynamic_quant_mha.cpp] (namespace [jd]):
    - [dynamic_quant_mha_kd_t::init]               (descriptor validation),
    - [dynamic_quant_mha_k_t::dynamic_quant_mha_k_t] (construction),
    - [dynamic_quant_mha_k_t::get_workspace_size],
    - [dynamic_quant_mha_k_t::execute]             (workspace partition, the
      layout-transform loop nest, mask preparation, the fused attention loop).

    Conventions.
    - [dim_t] values, [int] values and byte offsets are integers of [Z].
      Unsigned [size_t] arithmetic wraps modulo [2^64] and is written with
      [size_add]/[size_mul].  The [int] operators of the source are written
      [⊞], [⊟], [⊠] and keep the low 32 bits of the exact result, as the
      target does; the theorems carry the range in which nothing overflows
      (signed overflow is undefined in C++).  Adding an [int] to a pointer
      is exact, and so is a loop counter, which stays below its bound.
    - Memory is byte addressed: a buffer is named by the slot of [rt_data]
      that points to it and holds one byte per offset; a 32-bit value is
      four little-endian bytes, a [float] is its IEEE-754 binary32 pattern.
    - The four JIT micro-kernels are not part of this file of the source;
      they are parameters of [execute], constrained only where a theorem
      says so.
    - A function has no result ([None]) where the source reads past the
      end of a vector, writes past the end of the array [amx_init], or
      reads a flag of it that was not initialised. *)

From Stdlib Require Import ZArith Lia List String Bool.
From stdpp Require Import base option list gmap strings.

Local Open Scope Z_scope.

(* ===================================================================== *)
(** ** Tensor slots, data types, descriptors *)
(* ===================================================================== *)

(** Modelled from the spec: the slot enumeration [mha_dense_io::io] is
    declared in a header that is not under src/.  The slots are the ones the
    source names ([io::SRC_Q] ... [io::N]) and the spec's section 6 lists;
    [mha_dense_io_MAX] is the last enumerator.  Only the distinctness of the
    indices and [index s <= mha_dense_io_MAX] are used by the proofs. *)
Module io.
Inductive t :=
| SRC_Q | SRC_K | SRC_V | MASK | DST | WORKSPACE | BINARY_ADD | ATT_SCALE
| Q_SCALE | Q_ZP | K_SCALE | K_ZP | V_SCALE | V_ZP
| SRC_DST_SCALE | SRC_DST_ZP | DST_SCALE | DST_ZP
| BATCH_SIZE | HEAD_NUM | HEAD_SIZE | M | N.

Definition index (s : t) : nat :=
  match s with
  | SRC_Q => 0 | SRC_K => 1 | SRC_V => 2 | MASK => 3 | DST => 4
  | WORKSPACE => 5 | BINARY_ADD => 6 | ATT_SCALE => 7
  | Q_SCALE => 8 | Q_ZP => 9 | K_SCALE => 10 | K_ZP => 11
  | V_SCALE => 12 | V_ZP => 13
  | SRC_DST_SCALE => 14 | SRC_DST_ZP => 15 | DST_SCALE => 16 | DST_ZP => 17
  | BATCH_SIZE => 18 | HEAD_NUM => 19 | HEAD_SIZE => 20 | M => 21 | N => 22
  end%nat.

Definition all : list t :=
  [SRC_Q; SRC_K; SRC_V; MASK; DST; WORKSPACE; BINARY_ADD; ATT_SCALE;
   Q_SCALE; Q_ZP; K_SCALE; K_ZP; V_SCALE; V_ZP;
   SRC_DST_SCALE; SRC_DST_ZP; DST_SCALE; DST_ZP;
   BATCH_SIZE; HEAD_NUM; HEAD_SIZE; M; N].

Definition mha_dense_io_MAX : nat := index N.

End io.

#[global] Instance io_eq_dec : EqDecision io.t.
Proof. solve_decision. Defined.

(** Modelled from the spec: [jd::data_type] is declared outside src/; the
    source compares against [dt::s8] and [dt::fp32] only.  [undef] is the
    value-initialised element of the vector built by [get_tensor_dtypes]. *)
Inductive data_type := dt_undef | dt_u8 | dt_s8 | dt_fp32 | dt_bf16 | dt_s32.

#[global] Instance data_type_eq_dec : EqDecision data_type.
Proof. solve_decision. Defined.

(** [tensor_desc]: shape and element type (the memory format plays no role
    in this file of the source). *)
Record tensor_desc := TensorDesc {
  shape : list Z;
  dtype : data_type
}.

Record operator_desc := OperatorDesc {
  tensor_descs : list tensor_desc;
  attrs : gmap string string
}.

(** [get_tensor_shapes]: a vector of [mha_dense_io_MAX + 1] empty shapes,
    overwritten from the front by [std::transform].  With more descriptors
    than that the transform writes past the end of the vector: no result. *)
Definition get_tensor_shapes (descs : list tensor_desc) : option (list (list Z)) :=
  if (length descs <=? S io.mha_dense_io_MAX)%nat
  then Some ((shape <$> descs)
             ++ replicate (S io.mha_dense_io_MAX - length descs) [])
  else None.

Definition get_tensor_dtypes (descs : list tensor_desc) : option (list data_type) :=
  if (length descs <=? S io.mha_dense_io_MAX)%nat
  then Some ((dtype <$> descs)
             ++ replicate (S io.mha_dense_io_MAX - length descs) dt_undef)
  else None.

(** [shapes[io::s]] and [dtypes[io::s]] on the vectors above (whose size is
    [mha_dense_io_MAX + 1], so the index is always in range). *)
Definition shape_at (shapes : list (list Z)) (s : io.t) : list Z :=
  default [] (shapes !! io.index s).

Definition dtype_at (dtypes : list data_type) (s : io.t) : data_type :=
  default dt_undef (dtypes !! io.index s).

(** The shape and the element type a descriptor declares for a slot (an
    empty shape and [undef] for a slot beyond the end of the list). *)
Definition slot_shape (od : operator_desc) (s : io.t) : list Z :=
  default [] (shape <$> tensor_descs od !! io.index s).

Definition slot_dtype (od : operator_desc) (s : io.t) : data_type :=
  default dt_undef (dtype <$> tensor_descs od !! io.index s).

(** [is_all_of(list, pred)] *)
Definition is_all_of {A} (l : list A) (p : A -> bool) : bool := forallb p l.

(** [v == std::vector<dim_t>{...}] *)
Definition shape_eqb (a b : list Z) : bool := bool_decide (a = b).

(* ===================================================================== *)
(** ** [dynamic_quant_mha_kd_t::init] *)
(* ===================================================================== *)

(** The checks of [init] by the expression [KERNEL_INIT_CHECK] logs. *)
Inductive check :=
| chk_approx_exp | chk_stable_softmax
| chk_dyn_batch_size | chk_dyn_head_num | chk_dyn_M | chk_dyn_head_size | chk_dyn_N
| chk_shape_SRC_Q | chk_shape_SRC_K | chk_shape_SRC_V | chk_shape_DST
| chk_shape_BINARY_ADD
| chk_shape_Q_SCALE | chk_shape_K_SCALE | chk_shape_V_SCALE | chk_shape_DST_SCALE
| chk_Q_ZP | chk_K_ZP | chk_V_ZP | chk_DST_ZP | chk_SRC_DST_SCALE | chk_SRC_DST_ZP
| chk_dtype_s8 | chk_dtype_fp32.

(** Result of [init]: the [bool] it returns and the check it logged, if
    any.  [None] for the whole result stands for undefined behaviour (an
    access past the end of a [std::vector]). *)
Definition init_result : Type := bool * option check.

(** [KERNEL_INIT_CHECK(f)]: log and return false unless [f]. *)
Definition KERNEL_INIT_CHECK (c : check) (f : bool)
    (rest : option init_result) : option init_result :=
  if f then rest else Some (false, Some c).

Definition attr_is (a : gmap string string) (key value : string) : bool :=
  bool_decide (a !! key = Some value).

Definition is_empty (l : list Z) : bool :=
  match l with [] => true | _ => false end.

(** The five conditions of lines 55-59, as written. *)
Definition dyn_check_batch_size (shapes : list (list Z)) (batch_size : Z) : bool :=
  (0 <? batch_size) || shape_eqb (shape_at shapes io.BATCH_SIZE) [1].
Definition dyn_check_head_num (shapes : list (list Z)) (head_num : Z) : bool :=
  (0 <? head_num) || shape_eqb (shape_at shapes io.HEAD_NUM) [1].
Definition dyn_check_M (shapes : list (list Z)) (M : Z) : bool :=
  (0 <? M) || shape_eqb (shape_at shapes io.HEAD_SIZE) [1].
Definition dyn_check_head_size (shapes : list (list Z)) (head_size : Z) : bool :=
  (0 <? head_size) || shape_eqb (shape_at shapes io.M) [1].
Definition dyn_check_N (shapes : list (list Z)) (N : Z) : bool :=
  (0 <? N) || shape_eqb (shape_at shapes io.N) [1].

(** [amx_int8] is the answer of [isa_available(amx_int8)]. *)
Definition init (amx_int8 : bool) (od : operator_desc) : option init_result :=
  if negb amx_int8 then Some (false, None) else
  let descs := tensor_descs od in
  let op_attrs := attrs od in
  KERNEL_INIT_CHECK chk_approx_exp (attr_is op_attrs "approx_exp" "True") $
  KERNEL_INIT_CHECK chk_stable_softmax (attr_is op_attrs "stable_softmax" "False") $
  shapes ← get_tensor_shapes descs;
  dtypes ← get_tensor_dtypes descs;
  batch_size ← shape_at shapes io.SRC_Q !! 0%nat;
  head_num ← shape_at shapes io.SRC_Q !! 2%nat;
  M ← shape_at shapes io.SRC_Q !! 1%nat;
  head_size ← shape_at shapes io.SRC_Q !! 3%nat;
  N ← shape_at shapes io.SRC_K !! 1%nat;
  KERNEL_INIT_CHECK chk_dyn_batch_size (dyn_check_batch_size shapes batch_size) $
  KERNEL_INIT_CHECK chk_dyn_head_num (dyn_check_head_num shapes head_num) $
  KERNEL_INIT_CHECK chk_dyn_M (dyn_check_M shapes M) $
  KERNEL_INIT_CHECK chk_dyn_head_size (dyn_check_head_size shapes head_size) $
  KERNEL_INIT_CHECK chk_dyn_N (dyn_check_N shapes N) $
  KERNEL_INIT_CHECK chk_shape_SRC_Q
    (shape_eqb (shape_at shapes io.SRC_Q) [batch_size; M; head_num; head_size]) $
  KERNEL_INIT_CHECK chk_shape_SRC_K
    (shape_eqb (shape_at shapes io.SRC_K) [batch_size; N; head_num; head_size]) $
  KERNEL_INIT_CHECK chk_shape_SRC_V
    (shape_eqb (shape_at shapes io.SRC_V) [batch_size; N; head_num; head_size]) $
  KERNEL_INIT_CHECK chk_shape_DST
    (shape_eqb (shape_at shapes io.DST) [batch_size; M; head_num; head_size]) $
  KERNEL_INIT_CHECK chk_shape_BINARY_ADD
    (shape_eqb (shape_at shapes io.BINARY_ADD) [batch_size; 1; 1; N]) $
  KERNEL_INIT_CHECK chk_shape_Q_SCALE
    (shape_eqb (shape_at shapes io.Q_SCALE) [batch_size; M]) $
  KERNEL_INIT_CHECK chk_shape_K_SCALE
    (shape_eqb (shape_at shapes io.K_SCALE) [batch_size; N]) $
  KERNEL_INIT_CHECK chk_shape_V_SCALE
    (shape_eqb (shape_at shapes io.V_SCALE) [batch_size; N]) $
  KERNEL_INIT_CHECK chk_shape_DST_SCALE
    (shape_eqb (shape_at shapes io.DST_SCALE) [batch_size; M]) $
  KERNEL_INIT_CHECK chk_Q_ZP (is_empty (shape_at shapes io.Q_ZP)) $
  KERNEL_INIT_CHECK chk_K_ZP (is_empty (shape_at shapes io.K_ZP)) $
  KERNEL_INIT_CHECK chk_V_ZP (is_empty (shape_at shapes io.V_ZP)) $
  KERNEL_INIT_CHECK chk_DST_ZP (is_empty (shape_at shapes io.DST_ZP)) $
  KERNEL_INIT_CHECK chk_SRC_DST_SCALE (is_empty (shape_at shapes io.SRC_DST_SCALE)) $
  KERNEL_INIT_CHECK chk_SRC_DST_ZP (is_empty (shape_at shapes io.SRC_DST_ZP)) $
  KERNEL_INIT_CHECK chk_dtype_s8
    (is_all_of [dtype_at dtypes io.SRC_Q; dtype_at dtypes io.SRC_K;
                dtype_at dtypes io.SRC_V; dtype_at dtypes io.DST]
               (fun t => bool_decide (t = dt_s8))) $
  KERNEL_INIT_CHECK chk_dtype_fp32
    (is_all_of [dtype_at dtypes io.BINARY_ADD; dtype_at dtypes io.Q_SCALE;
                dtype_at dtypes io.K_SCALE; dtype_at dtypes io.V_SCALE;
                dtype_at dtypes io.DST_SCALE]
               (fun t => bool_decide (t = dt_fp32))) $
  Some (true, None).

(** A descriptor list given slot by slot, in the order of the enumeration. *)
Definition descs_of (f : io.t -> tensor_desc) : list tensor_desc := map f io.all.

Definition no_tensor : tensor_desc := TensorDesc [] dt_undef.

(** The slots of a static or partly dynamic problem: a dimension given as 0
    is dynamic; [dyn] tells which of the five shape-carrying slots are
    declared (with shape {1}). *)
Definition mha_slots (b m h hs n : Z) (dyn : io.t -> bool) (s : io.t) : tensor_desc :=
  match s with
  | io.SRC_Q | io.DST => TensorDesc [b; m; h; hs] dt_s8
  | io.SRC_K | io.SRC_V => TensorDesc [b; n; h; hs] dt_s8
  | io.BINARY_ADD => TensorDesc [b; 1; 1; n] dt_fp32
  | io.Q_SCALE | io.DST_SCALE => TensorDesc [b; m] dt_fp32
  | io.K_SCALE | io.V_SCALE => TensorDesc [b; n] dt_fp32
  | io.BATCH_SIZE | io.HEAD_NUM | io.HEAD_SIZE | io.M | io.N =>
      if dyn s then TensorDesc [1] dt_s32 else no_tensor
  | _ => no_tensor
  end.

Definition mha_attrs : gmap string string :=
  <["approx_exp" := "True"]> (<["stable_softmax" := "False"]> ∅).

Definition mha_desc (b m h hs n : Z) (dyn : io.t -> bool) : operator_desc :=
  OperatorDesc (descs_of (mha_slots b m h hs n dyn)) mha_attrs.


(* ===================================================================== *)
(** ** Integer types of the source *)
(* ===================================================================== *)

(** [size_t]: unsigned, 64 bits, wrapping. *)
Definition SIZE_MOD : Z := 2 ^ 64.
Definition to_size (x : Z) : Z := x mod SIZE_MOD.
Definition size_add (a b : Z) : Z := (a + b) mod SIZE_MOD.
Definition size_mul (a b : Z) : Z := (a * b) mod SIZE_MOD.

(** [int]: the narrowing of a [dim_t] (64 bits) to [int] (32 bits) keeps the
    low 32 bits, read as a two's complement number. *)
Definition to_int (x : Z) : Z := (x + 2 ^ 31) mod 2 ^ 32 - 2 ^ 31.

Definition INT_MAX : Z := 2 ^ 31 - 1.

(** The operators [+], [-], [*] on [int] operands: the exact result
    reduced to 32 bits. *)
Definition int_add (a b : Z) : Z := to_int (a + b).
Definition int_sub (a b : Z) : Z := to_int (a - b).
Definition int_mul (a b : Z) : Z := to_int (a * b).

Notation "a ⊞ b" := (int_add a b) (at level 50, left associativity).
Notation "a ⊟ b" := (int_sub a b) (at level 50, left associativity).
Notation "a ⊠ b" := (int_mul a b) (at level 40, left associativity).

Definition sizeof_float : Z := 4.
Definition sizeof_int8_t : Z := 1.

(** Modelled from the spec: [pad_to] is declared in a header outside src/;
    "pad(x,k) rounds x up to the next multiple of k". *)
Definition pad_to (x k : Z) : Z := (x + k - 1) / k * k.

(* ===================================================================== *)
(** ** [dynamic_quant_mha_k_t]: construction and workspace size *)
(* ===================================================================== *)

(** [tile_param_t(M_tile, N_tile, K_tile, is_bf16, K_pack)] as the
    constructor passes it. *)
Record tile_param_t := TileParam {
  M_tile : Z; N_tile : Z; K_tile : Z; is_bf16 : bool; K_pack : Z
}.

Record dynamic_quant_mha_k_t := Kernel {
  batch_size_ : Z;
  head_num_ : Z;
  M_ : Z;
  head_size_ : Z;
  N_ : Z;
  amx_full_tile_param_ : tile_param_t
}.

(** The constructor: the five dimensions are read from the shapes of the
    descriptor ([None]: a read past the end of a shape). *)
Definition make_kernel (od : operator_desc) : option dynamic_quant_mha_k_t :=
  t_shapes_ ← get_tensor_shapes (tensor_descs od);
  b ← shape_at t_shapes_ io.SRC_Q !! 0%nat;
  h ← shape_at t_shapes_ io.SRC_Q !! 2%nat;
  m ← shape_at t_shapes_ io.SRC_Q !! 1%nat;
  hs ← shape_at t_shapes_ io.SRC_Q !! 3%nat;
  n ← shape_at t_shapes_ io.SRC_K !! 1%nat;
  Some (Kernel (to_int b) (to_int h) (to_int m) (to_int hs) (to_int n)
               (TileParam 16 16 64 false 4)).

(** [get_workspace_size]; [max_threads] is [omp_get_max_threads()].  The
    operands of [*] and [+] are converted to [size_t] as the usual
    arithmetic conversions do; the product of the two paddings of the K & V
    term is an [int] product. *)
Definition get_workspace_size (max_threads : Z) (k : dynamic_quant_mha_k_t) : Z :=
  size_add
    (size_add
       (size_add
          (* mask *)
          (size_mul (size_mul sizeof_float (to_size (batch_size_ k)))
                    (to_size (pad_to (N_ k) 64)))
          (* K & V *)
          (size_mul
             (size_mul
                (size_mul (size_mul sizeof_int8_t (to_size (batch_size_ k)))
                          (to_size (head_num_ k)))
                (to_size (pad_to (N_ k) 64 ⊠ pad_to (head_size_ k) 64)))
             (to_size 2)))
       (* v scale *)
       (size_mul (size_mul (size_mul sizeof_float (to_size (batch_size_ k)))
                           (to_size (head_num_ k)))
                 (to_size (pad_to (head_size_ k) 64))))
    (* softmax dst *)
    (size_mul
       (size_mul
          (size_mul (size_mul sizeof_float (to_size max_threads)) (to_size 16))
          (to_size (head_num_ k)))
       (to_size (pad_to (N_ k) 64))).

(** The sizing formulas in the words of the specification, over unbounded
    integers. *)
Definition spec_mask_bytes (batch seq_k : Z) : Z := 4 * batch * pad_to seq_k 64.
Definition spec_kv_bytes (batch heads seq_k head_size : Z) : Z :=
  2 * batch * heads * (pad_to seq_k 64 * pad_to head_size 64).
Definition spec_v_scale_bytes (batch heads head_size : Z) : Z :=
  4 * batch * heads * pad_to head_size 64.
Definition spec_softmax_scratch_bytes (max_threads heads seq_k : Z) : Z :=
  4 * max_threads * 16 * heads * pad_to seq_k 64.
Definition spec_workspace_size (max_threads batch heads seq_k head_size : Z) : Z :=
  spec_mask_bytes batch seq_k
  + spec_kv_bytes batch heads seq_k head_size
  + spec_v_scale_bytes batch heads head_size
  + spec_softmax_scratch_bytes max_threads heads seq_k.

(* ===================================================================== *)
(** ** Memory *)
(* ===================================================================== *)

(** A buffer is named by the slot of [rt_data] that points to it; the
    buffers of different slots are different allocations.  [mem b o] is the
    byte at offset [o] of buffer [b]. *)
Definition mem : Type := io.t -> Z -> Z.

Record ptr := Ptr { buf : io.t; off : Z }.

(** [rt_data[io::s]] *)
Definition rt_data (s : io.t) : ptr := Ptr s 0.

(** [p + n] for a pointer to elements of [esize] bytes. *)
Definition ptr_add (esize : Z) (p : ptr) (n : Z) : ptr :=
  Ptr (buf p) (off p + esize * n).

Notation "p +₁ n" := (ptr_add 1 p n) (at level 50, left associativity).
Notation "p +₄ n" := (ptr_add 4 p n) (at level 50, left associativity).

(** Byte [i] of the little-endian representation of [v]. *)
Definition byte_of (v i : Z) : Z := (v / 2 ^ (8 * i)) mod 256.

(** Does byte [o] of buffer [b] lie in the [len] bytes starting at [p]? *)
Definition in_range (p : ptr) (len : Z) (b : io.t) (o : Z) : bool :=
  bool_decide (b = buf p) && (off p <=? o) && (o <? off p + len).

(** [std::fill_n(p, n, v)] on elements of [esize] bytes. *)
Definition fill_n (esize : Z) (p : ptr) (n : Z) (v : Z) (m : mem) : mem :=
  fun b o =>
    if in_range p (esize * n) b o
    then byte_of v ((o - off p) mod esize)
    else m b o.

(** [std::copy_n(src, n, dst)] on elements of [esize] bytes; source and
    destination do not overlap in [execute] (they lie in different
    buffers). *)
Definition copy_n (esize : Z) (src : ptr) (n : Z) (dst : ptr) (m : mem) : mem :=
  fun b o =>
    if in_range dst (esize * n) b o
    then m (buf src) (off src + (o - off dst))
    else m b o.

(** Reading a 32-bit pattern ([float]) and an [int32_t]. *)
Definition load_u32 (m : mem) (p : ptr) : Z :=
  m (buf p) (off p)
  + 2 ^ 8 * m (buf p) (off p + 1)
  + 2 ^ 16 * m (buf p) (off p + 2)
  + 2 ^ 24 * m (buf p) (off p + 3).

Definition load_i32 (m : mem) (p : ptr) : Z := to_int (load_u32 m p).

(** The binary32 pattern of [-1000.f]: sign 1, exponent 136, fraction
    0x7A0000. *)
Definition neg_1000f : Z := 0xC47A0000.

(* ===================================================================== *)
(** ** Run-time parameter blocks of the micro-kernels *)
(* ===================================================================== *)

Module jit_trans_AB16a4b_16x.
Record rt_data_t := {
  src : ptr; dst : ptr; ld_src : Z; M : Z; N : Z
}.
End jit_trans_AB16a4b_16x.

Module jit_trans_BA16b4a_trq10n_x16.
Record rt_data_t := {
  src : ptr; dst : ptr; src_scale : ptr; dst_scale : ptr;
  ld_src : Z; M : Z; N : Z
}.
End jit_trans_BA16b4a_trq10n_x16.

Module jit_mmsoftmax_batch_amx_s8_ab_BA16b4a_u8_16x.
Record rt_data_t := {
  src0 : ptr; src1 : ptr; scale_src0 : ptr; scale_src1 : ptr;
  src_bias : ptr; dst : ptr;
  K : Z; N : Z; ld_src0 : Z; ld_src1 : Z; ld_dst : Z; batch_size : Z;
  batchstep_src0 : Z; batchstep_src0scale : Z;
  batchstep_src1 : Z; batchstep_src1scale : Z; batchstep_dst : Z
}.
End jit_mmsoftmax_batch_amx_s8_ab_BA16b4a_u8_16x.

Module jit_mm_batch_amx_u8s8_ab_AB16a4b_dynamic_quant_16x.
Record rt_data_t := {
  src0 : ptr; src1 : ptr; scale_src1 : ptr; dst : ptr; dst_scale : ptr;
  K : Z; N : Z; ld_src0 : Z; ld_src1 : Z; ld_dst : Z; batch_size : Z;
  batchstep_src0 : Z; batchstep_src1 : Z; batchstep_src1scale : Z;
  batchstep_dst : Z
}.
End jit_mm_batch_amx_u8s8_ab_AB16a4b_dynamic_quant_16x.

Module tr_k := jit_trans_AB16a4b_16x.
Module tr_v := jit_trans_BA16b4a_trq10n_x16.
Module mm_qk := jit_mmsoftmax_batch_amx_s8_ab_BA16b4a_u8_16x.
Module mm_av := jit_mm_batch_amx_u8s8_ab_AB16a4b_dynamic_quant_16x.

(* ===================================================================== *)
(** ** Counted loops *)
(* ===================================================================== *)

(** [n] iterations of [body], the loop variable starting at [i] and
    advancing by [step]. *)
Fixpoint for_iter {S : Type} (n : nat) (i step : Z) (body : Z -> S -> S) (s : S) : S :=
  match n with
  | O => s
  | Datatypes.S n' => for_iter n' (i + step) step body (body i s)
  end.

(** Number of iterations of [for (int i = lo; i < hi; i += step)]. *)
Definition trip_count (lo hi step : Z) : nat :=
  Z.to_nat ((hi - lo + step - 1) / step).

(** [for (int i = lo; i < hi; i += step) body]. *)
Definition for_loop {S : Type} (lo hi step : Z) (body : Z -> S -> S) (s : S) : S :=
  for_iter (trip_count lo hi step) lo step body s.

(* ===================================================================== *)
(** ** [dynamic_quant_mha_k_t::execute] *)
(* ===================================================================== *)

(** The typed views of [rt_data] taken at the top of [execute]. *)
Definition src_q : ptr := rt_data io.SRC_Q.
Definition src_k : ptr := rt_data io.SRC_K.
Definition mask : ptr := rt_data io.BINARY_ADD.
Definition src_v : ptr := rt_data io.SRC_V.
Definition dst : ptr := rt_data io.DST.
Definition workspace : ptr := rt_data io.WORKSPACE.
Definition q_scale : ptr := rt_data io.Q_SCALE.
Definition k_scale : ptr := rt_data io.K_SCALE.
Definition v_scale : ptr := rt_data io.V_SCALE.
Definition dst_scale : ptr := rt_data io.DST_SCALE.

(** Lines 150-154: a dimension that is positive in the kernel object is
    used as it is, any other one is read as an [int32_t] through the pointer
    of its slot. *)
Definition resolved_batch_size (k : dynamic_quant_mha_k_t) (m : mem) : Z :=
  if 0 <? batch_size_ k then batch_size_ k else load_i32 m (rt_data io.BATCH_SIZE).
Definition resolved_head_num (k : dynamic_quant_mha_k_t) (m : mem) : Z :=
  if 0 <? head_num_ k then head_num_ k else load_i32 m (rt_data io.HEAD_NUM).
Definition resolved_head_size (k : dynamic_quant_mha_k_t) (m : mem) : Z :=
  if 0 <? head_size_ k then head_size_ k else load_i32 m (rt_data io.HEAD_SIZE).
Definition resolved_M (k : dynamic_quant_mha_k_t) (m : mem) : Z :=
  if 0 <? M_ k then M_ k else load_i32 m (rt_data io.M).
Definition resolved_N (k : dynamic_quant_mha_k_t) (m : mem) : Z :=
  if 0 <? N_ k then N_ k else load_i32 m (rt_data io.N).

(** The calls the second loop nest makes: the tile configuration
    [ker_amx_cfg_] and the two matrix micro-kernels, each with the number
    of the thread that makes it. *)
Inductive call :=
| call_amx_cfg (tid : Z) (cfg : tile_param_t)
| call_qxk (tid : Z) (rt : mm_qk.rt_data_t)
| call_axv (tid : Z) (rt : mm_av.rt_data_t).

(** The local array of line 228. *)
Definition amx_init_size : Z := 256.

(** State of the second loop nest: the memory, the entries of [amx_init]
    that line 229 has initialised (the first [max_threads] ones) and the
    calls made so far, in the order in which they are made. *)
Record exec_state := ExecState {
  st_mem : mem;
  st_amx_init : list bool;
  st_calls : list call
}.

(** The calls of [ker_amx_cfg_] among the calls [l], by thread. *)
Definition amx_cfg_calls (l : list call) : list (Z * tile_param_t) :=
  omap (fun c => match c with
                 | call_amx_cfg tid cfg => Some (tid, cfg)
                 | _ => None
                 end) l.

Definition st_amx_cfg (st : exec_state) : list (Z * tile_param_t) :=
  amx_cfg_calls (st_calls st).

Section execute.
(** The micro-kernels, as transformers of the memory. *)
Context (ker_seq_cpy_k_ : tr_k.rt_data_t -> mem -> mem)
        (ker_seq_cpy_v_ : tr_v.rt_data_t -> mem -> mem)
        (ker_qxk_ : mm_qk.rt_data_t -> mem -> mem)
        (ker_axv_ : mm_av.rt_data_t -> mem -> mem).
(** [omp_get_max_threads()], and [omp_get_thread_num()] in iteration
    [(ibs, i)] of the second loop nest.  The iterations of both
    [omp parallel for] nests are taken in the order of the source. *)
Context (max_threads : Z) (omp_get_thread_num : Z -> Z -> Z).

Section body.
(** The tile configuration of the kernel object. *)
Variable amx_full_tile_cfg_ : tile_param_t.
(** The resolved dimensions. *)
Variables batch_size head_num head_size M N : Z.

Definition head_size_pad16 : Z := pad_to head_size 16.
Definition head_size_pad64 : Z := pad_to head_size 64.
Definition N_pad4 : Z := pad_to N 4.
Definition N_pad16 : Z := pad_to N 16.
Definition N_pad64 : Z := pad_to N 64.
Definition size_trq10n_v_block : Z := 16 ⊠ N_pad4.
Definition size_pad0_v_block : Z := N_pad64 ⊠ 16 ⊟ size_trq10n_v_block.

Definition tmp_mask_size : Z := batch_size ⊠ N_pad16.
Definition head_tmp_k_size : Z := head_size_pad64 ⊠ N_pad16.
Definition head_tmp_v_size : Z := N_pad64 ⊠ head_size_pad16.
Definition head_tmp_v_scale_size : Z := head_size_pad16.
Definition tmp_thread_size : Z := head_num ⊠ 16 ⊠ N_pad64.

(** The five regions of the workspace (lines 170-174) and the end of
    the last one (the expression of line 175). *)
Definition tmp_mask : ptr := workspace.
Definition tmp_k : ptr := tmp_mask +₄ tmp_mask_size.
Definition tmp_v : ptr := tmp_k +₁ (batch_size ⊠ head_num ⊠ head_tmp_k_size).
Definition tmp_v_scale : ptr :=
  tmp_v +₁ (batch_size ⊠ head_num ⊠ head_tmp_v_size).
Definition tmp_threads : ptr :=
  tmp_v_scale +₄ (batch_size ⊠ head_num ⊠ head_tmp_v_scale_size).
Definition tmp_end : ptr := tmp_threads +₁ (max_threads ⊠ tmp_thread_size).

(** Lines 181-193. *)
Definition transpose_k (ibs ihn : Z) (m : mem) : mem :=
  let curr_k :=
    src_k +₁ (ibs ⊠ N ⊠ head_size ⊠ head_num) +₁ (ihn ⊠ head_size) in
  let curr_tmp_k := tmp_k +₁ ((ibs ⊠ head_num ⊞ ihn) ⊠ head_tmp_k_size) in
  for_loop 0 N 16 (fun j m =>
    let tr_k_data := {|
      tr_k.src := curr_k +₁ (j ⊠ (head_size ⊠ head_num));
      tr_k.dst := curr_tmp_k +₁ (j ⊠ head_size_pad64);
      tr_k.ld_src := head_size ⊠ head_num;
      tr_k.M := Z.min 16 (N ⊟ j);
      tr_k.N := head_size |} in
    ker_seq_cpy_k_ tr_k_data m) m.

(** Lines 196-210: the parameter block of the Value micro-kernel for the
    16-column block that starts at column [j]. *)
Definition block_tmp_v (ibs ihn j : Z) : ptr :=
  tmp_v +₁ ((ibs ⊠ head_num ⊞ ihn) ⊠ head_tmp_v_size) +₁ (j ⊠ N_pad64).

Definition tr_v_data (ibs ihn j : Z) : tr_v.rt_data_t :=
  let curr_v :=
    src_v +₁ (ibs ⊠ N ⊠ head_size ⊠ head_num) +₁ (ihn ⊠ head_size) in
  let curr_v_scale := v_scale +₄ (ibs ⊠ N) in
  let curr_tmp_v_scale :=
    tmp_v_scale +₄ ((ibs ⊠ head_num ⊞ ihn) ⊠ head_tmp_v_scale_size) in
  {| tr_v.src := curr_v +₁ j;
     tr_v.dst := block_tmp_v ibs ihn j;
     tr_v.src_scale := curr_v_scale;
     tr_v.dst_scale := curr_tmp_v_scale +₄ j;
     tr_v.ld_src := head_size ⊠ head_num;
     tr_v.M := N;
     tr_v.N := Z.min 16 (head_size ⊟ j) |}.

(** Lines 201-213: one 16-column block of the Value transform. *)
Definition transpose_v_block (ibs ihn j : Z) (m : mem) : mem :=
  let m := ker_seq_cpy_v_ (tr_v_data ibs ihn j) m in
  (* fill 0 for padding of AxV *)
  if negb (size_pad0_v_block =? 0)
  then fill_n 1 (block_tmp_v ibs ihn j +₁ size_trq10n_v_block)
              size_pad0_v_block 0 m
  else m.

(** Lines 195-214. *)
Definition transpose_v (ibs ihn : Z) (m : mem) : mem :=
  for_loop 0 head_size 16 (transpose_v_block ibs ihn) m.

(** Lines 178-216: the first loop nest. *)
Definition layout_transform (m : mem) : mem :=
  for_loop 0 batch_size 1 (fun ibs m =>
    for_loop 0 head_num 1 (fun ihn m =>
      transpose_v ibs ihn (transpose_k ibs ihn m)) m) m.

(** Lines 218-227: the memory after the preparation of the mask and the
    value of the variable [tmp_mask] from there on. *)
Definition prepare_mask (m : mem) : mem * ptr :=
  if negb (N =? N_pad16) then
    (for_loop 0 batch_size 1 (fun ibs m =>
       let curr_mask := mask +₄ (ibs ⊠ N) in
       let curr_tmp_mask := tmp_mask +₄ (ibs ⊠ N_pad16) in
       let m := copy_n 4 curr_mask N curr_tmp_mask m in
       fill_n 4 (curr_tmp_mask +₄ N) (N_pad16 ⊟ N) neg_1000f m) m,
     tmp_mask)
  else (m, mask).

(** Lines 238-264: the parameter block of the QK micro-kernel in
    iteration [(ibs, i)], with [tmp_mask'] the current value of the
    variable [tmp_mask]. *)
Definition mm_qk_data (tmp_mask' : ptr) (ibs i : Z) : mm_qk.rt_data_t :=
  let curr_tmp := tmp_threads +₁ (omp_get_thread_num ibs i ⊠ tmp_thread_size) in
  let curr_q := src_q +₁ ((ibs ⊠ M ⊞ i) ⊠ head_size ⊠ head_num) in
  let curr_q_scale := q_scale +₄ (ibs ⊠ M) +₄ i in
  let curr_tmp_k := tmp_k +₁ (ibs ⊠ head_num ⊠ head_tmp_k_size) in
  let curr_k_scale := k_scale +₄ (ibs ⊠ N) in
  let curr_mask := tmp_mask' +₄ (ibs ⊠ N_pad16) in
  {| mm_qk.src0 := curr_q;
     mm_qk.src1 := curr_tmp_k;
     mm_qk.scale_src0 := curr_q_scale;
     mm_qk.scale_src1 := curr_k_scale;
     mm_qk.src_bias := curr_mask;
     mm_qk.dst := curr_tmp;
     mm_qk.K := head_size;
     mm_qk.N := N;
     mm_qk.ld_src0 := head_size ⊠ head_num;
     mm_qk.ld_src1 := head_size_pad64 ⊠ 16;
     mm_qk.ld_dst := N_pad64;
     mm_qk.batch_size := head_num;
     mm_qk.batchstep_src0 := to_size head_size;
     mm_qk.batchstep_src0scale := 0;
     mm_qk.batchstep_src1 := to_size head_tmp_k_size;
     mm_qk.batchstep_src1scale := 0;
     mm_qk.batchstep_dst := size_mul 16 (to_size N_pad64) |}.

(** Lines 267-289: the parameter block of the AV micro-kernel. *)
Definition mm_av_data (ibs i : Z) : mm_av.rt_data_t :=
  let curr_tmp := tmp_threads +₁ (omp_get_thread_num ibs i ⊠ tmp_thread_size) in
  let curr_tmp_v := tmp_v +₁ (ibs ⊠ head_num ⊠ head_tmp_v_size) in
  let curr_tmp_v_scale :=
    tmp_v_scale +₄ (ibs ⊠ head_num ⊠ head_tmp_v_scale_size) in
  let curr_dst := dst +₁ ((ibs ⊠ M ⊞ i) ⊠ head_size ⊠ head_num) in
  let curr_dst_scale := dst_scale +₄ (ibs ⊠ M) +₄ i in
  {| mm_av.src0 := curr_tmp;
     mm_av.src1 := curr_tmp_v;
     mm_av.scale_src1 := curr_tmp_v_scale;
     mm_av.dst := curr_dst;
     mm_av.dst_scale := curr_dst_scale;
     mm_av.K := N;
     mm_av.N := head_size;
     mm_av.ld_src0 := N_pad64;
     mm_av.ld_src1 := N_pad64 ⊠ 16;
     mm_av.ld_dst := head_size ⊠ head_num;
     mm_av.batch_size := head_num;
     mm_av.batchstep_src0 := size_mul 16 (to_size N_pad64);
     mm_av.batchstep_src1 := to_size head_tmp_v_size;
     mm_av.batchstep_src1scale :=
       size_mul sizeof_float (to_size head_tmp_v_scale_size);
     mm_av.batchstep_dst := to_size head_size |}.

(** Lines 232-291: one iteration of the second loop nest.  The flag
    [amx_init[omp_get_thread_num()]] is read among the entries line 229 has
    initialised: a thread number that is negative or not below
    [max_threads] gives no result (an indeterminate value, or an access
    past the end of the array). *)
Definition attention_block (tmp_mask' : ptr) (ibs i : Z)
    (st : exec_state) : option exec_state :=
  let tid := omp_get_thread_num ibs i in
  if 0 <=? tid then
    flag ← st_amx_init st !! Z.to_nat tid;
    let st :=
      if negb flag
      then ExecState (st_mem st)
                     (<[Z.to_nat tid := true]> (st_amx_init st))
                     (st_calls st ++ [call_amx_cfg tid amx_full_tile_cfg_])
      else st in
    let m := ker_qxk_ (mm_qk_data tmp_mask' ibs i) (st_mem st) in
    let m := ker_axv_ (mm_av_data ibs i) m in
    Some (ExecState m (st_amx_init st)
            (st_calls st ++ [call_qxk tid (mm_qk_data tmp_mask' ibs i);
                             call_axv tid (mm_av_data ibs i)]))
  else None.

(** Lines 228-292.  [std::fill_n(amx_init, max_threads, false)] on an
    array of 256 entries: with more threads than that it writes past the
    end of the array, and there is no result. *)
Definition fused_attention (tmp_mask' : ptr) (m : mem) : option exec_state :=
  if max_threads <=? amx_init_size then
    let amx_init := replicate (Z.to_nat max_threads) false in
    for_loop 0 batch_size 1 (fun ibs st =>
      for_loop 0 M 16 (fun i st => st ≫= attention_block tmp_mask' ibs i) st)
      (Some (ExecState m amx_init []))
  else None.

(** The body of [execute] after the resolution of the dimensions; it
    returns true. *)
Definition execute_body (m : mem) : option (bool * exec_state) :=
  let m := layout_transform m in
  let '(m, tmp_mask') := prepare_mask m in
  st ← fused_attention tmp_mask' m;
  Some (true, st).
End body.

(** [execute]: the dimensions are resolved first (lines 150-154). *)
Definition execute (k : dynamic_quant_mha_k_t) (m : mem)
    : option (bool * exec_state) :=
  execute_body (amx_full_tile_param_ k)
               (resolved_batch_size k m) (resolved_head_num k m)
               (resolved_head_size k m) (resolved_M k m) (resolved_N k m) m.
End execute.

(* ===================================================================== *)
(** ** The conditions of the validation, by group *)
(* ===================================================================== *)

Definition zero_point_slots : list io.t :=
  [io.Q_ZP; io.K_ZP; io.V_ZP; io.DST_ZP; io.SRC_DST_SCALE; io.SRC_DST_ZP].
Definition s8_slots : list io.t := [io.SRC_Q; io.SRC_K; io.SRC_V; io.DST].
Definition fp32_slots : list io.t :=
  [io.BINARY_ADD; io.Q_SCALE; io.K_SCALE; io.V_SCALE; io.DST_SCALE].

Definition approx_exp_set (od : operator_desc) : bool :=
  bool_decide (attrs od !! "approx_exp" = Some "True").
Definition stable_softmax_unset (od : operator_desc) : bool :=
  bool_decide (attrs od !! "stable_softmax" = Some "False").
Definition zero_points_absent (od : operator_desc) : bool :=
  forallb (fun s => is_empty (slot_shape od s)) zero_point_slots.
Definition activations_s8 (od : operator_desc) : bool :=
  forallb (fun s => bool_decide (slot_dtype od s = dt_s8)) s8_slots.
Definition scales_fp32 (od : operator_desc) : bool :=
  forallb (fun s => bool_decide (slot_dtype od s = dt_fp32)) fp32_slots.

(** The groups in the order of the source: 0 hardware, 1 [approx_exp],
    2 [stable_softmax], 3 the shape checks of lines 55-70, 4 zero-point and
    static output-quantization slots, 5 signed 8-bit types, 6 float types. *)
Definition stage (c : option check) : nat :=
  match c with
  | None => 0
  | Some chk_approx_exp => 1
  | Some chk_stable_softmax => 2
  | Some (chk_Q_ZP | chk_K_ZP | chk_V_ZP | chk_DST_ZP
         | chk_SRC_DST_SCALE | chk_SRC_DST_ZP) => 4
  | Some chk_dtype_s8 => 5
  | Some chk_dtype_fp32 => 6
  | Some _ => 3
  end%nat.

(** The first group, other than the shape checks, whose condition fails;
    7 when none does. *)
Definition first_bad_stage (amx_int8 : bool) (od : operator_desc) : nat :=
  (if negb amx_int8 then 0
   else if negb (approx_exp_set od) then 1
   else if negb (stable_softmax_unset od) then 2
   else if negb (zero_points_absent od) then 4
   else if negb (activations_s8 od) then 5
   else if negb (scales_fp32 od) then 6
   else 7)%nat.

(** One of the conditions under which the validation has to reject. *)
Definition rejecting_condition (amx_int8 : bool) (od : operator_desc) : Prop :=
  amx_int8 = false
  \/ attrs od !! "approx_exp" <> Some "True"
  \/ attrs od !! "stable_softmax" <> Some "False"
  \/ (exists s, s ∈ zero_point_slots /\ slot_shape od s <> [])
  \/ (exists s, s ∈ s8_slots /\ slot_dtype od s <> dt_s8)
  \/ (exists s, s ∈ fp32_slots /\ slot_dtype od s <> dt_fp32).

(** The reads of lines 49-53 stay inside the vectors: the list of tensor
    descriptors fits the vector of [get_tensor_shapes], the Query shape has
    four entries at least and the Key shape two. *)
Definition dims_readable (od : operator_desc) : Prop :=
  (length (tensor_descs od) <= S io.mha_dense_io_MAX)%nat
  /\ (4 <= length (slot_shape od io.SRC_Q))%nat
  /\ (2 <= length (slot_shape od io.SRC_K))%nat.


(* ===================================================================== *)
(** ** Predicates and concrete inputs used by the theorems *)
(* ===================================================================== *)

(** The size computation of [get_workspace_size] does not overflow: the
    [int] product of the two paddings fits [int] and the sum fits
    [size_t]. *)
Definition sizes_fit (max_threads : Z) (k : dynamic_quant_mha_k_t) : Prop :=
  pad_to (N_ k) 64 * pad_to (head_size_ k) 64 <= INT_MAX
  /\ spec_workspace_size max_threads (batch_size_ k) (head_num_ k) (N_ k)
       (head_size_ k) < 2 ^ 64.

(** The [int] sizes of the workspace partition of [execute] do not
    overflow: the Key and Value buffers of all heads and batches, and the
    softmax scratch of all threads, have at most [INT_MAX] bytes. *)
Definition layout_fits (max_threads batch_size head_num head_size N : Z) : Prop :=
  batch_size * head_num * (pad_to N 64 * pad_to head_size 64) <= INT_MAX
  /\ max_threads * (head_num * 16 * pad_to N 64) <= INT_MAX.

(** Congruence modulo [2^64]: [size_t] arithmetic computes the exact value
    up to it. *)
Definition eqm64 (a b : Z) : Prop := a mod SIZE_MOD = b mod SIZE_MOD.

(** The 32-bit value whose four bytes [fill_n] stores. *)
Definition pattern32 (v : Z) : Z :=
  byte_of v 0 + 2 ^ 8 * byte_of v 1 + 2 ^ 16 * byte_of v 2 + 2 ^ 24 * byte_of v 3.

(** One iteration of the copy loop of lines 219-224. *)
Definition mask_row (N ibs : Z) (m : mem) : mem :=
  fill_n 4 (tmp_mask +₄ (ibs ⊠ N_pad16 N) +₄ N) (N_pad16 N ⊟ N) neg_1000f
    (copy_n 4 (mask +₄ (ibs ⊠ N)) N (tmp_mask +₄ (ibs ⊠ N_pad16 N)) m).

(** The bytes between the live part ([16 * pad(N,4)] bytes) and the end
    ([16 * pad(N,64)] bytes) of the Value block [(ibs, ihn, j)] are zero. *)
Definition v_padding_zero (batch_size head_num head_size N ibs ihn j : Z)
    (m : mem) : Prop :=
  forall o, 16 * pad_to N 4 <= o < 16 * pad_to N 64 ->
    m io.WORKSPACE (off (block_tmp_v batch_size head_num head_size N ibs ihn j) + o)
    = 0.

(** The blocks of the Value transform: the indices the loops of lines
    179-200 take. *)
Definition valid_block (batch_size head_num head_size ibs ihn j : Z) : Prop :=
  0 <= ibs < batch_size /\ 0 <= ihn < head_num
  /\ 0 <= j < head_size /\ j mod 16 = 0.

(** A descriptor that declares a zero point for Key. *)
Definition desc_with_K_ZP : operator_desc :=
  OperatorDesc
    (descs_of (fun s => if decide (s = io.K_ZP) then TensorDesc [2; 20] dt_fp32
                        else mha_slots 2 16 4 64 20 (fun _ => false) s))
    mha_attrs.

(** A descriptor with the two attributes and no tensor at all. *)
Definition desc_no_tensors : operator_desc := OperatorDesc [] mha_attrs.

(** A memory that holds the [int32_t] value [v] in the buffer of [slot]
    and zero elsewhere. *)
Definition mem_with_i32 (slot : io.t) (v : Z) : mem :=
  fun b o => if decide (b = slot) then byte_of v o else 0.

(** A kernel whose batch dimension is dynamic, and a call that supplies 2
    for it. *)
Definition kernel_dynamic_batch : dynamic_quant_mha_k_t :=
  Kernel 0 1 16 64 64 (TileParam 16 16 64 false 4).
Definition mem_batch_2 : mem := mem_with_i32 io.BATCH_SIZE 2.

(** Kernels with static dimensions (batch 2, heads 4, seq_q 16,
    head_size 64, seq_k 20 and 65). *)
Definition kernel_static : dynamic_quant_mha_k_t :=
  Kernel 2 4 16 64 20 (TileParam 16 16 64 false 4).
Definition kernel_static_larger : dynamic_quant_mha_k_t :=
  Kernel 2 4 16 64 65 (TileParam 16 16 64 false 4).

(** A kernel whose five dimensions are dynamic and a call that supplies
    batch 2, heads 4, seq_q 16, head_size 64, seq_k 20. *)
Definition kernel_all_dynamic : dynamic_quant_mha_k_t :=
  Kernel 0 0 0 0 0 (TileParam 16 16 64 false 4).

Definition mem_dims : mem :=
  fun b o =>
    match b with
    | io.BATCH_SIZE => byte_of 2 o
    | io.HEAD_NUM => byte_of 4 o
    | io.M => byte_of 16 o
    | io.HEAD_SIZE => byte_of 64 o
    | io.N => byte_of 20 o
    | _ => 0
    end.

(** A caller's mask of two rows of twenty entries holding the patterns
    1 ... 40. *)
Definition mem_mask_2x20 : mem :=
  fun b o =>
    match b with
    | io.BINARY_ADD =>
        if (0 <=? o) && (o <? 160) then byte_of (o / 4 + 1) (o mod 4) else 0
    | _ => 0
    end.

(** Stand-ins for the micro-kernels, to run [execute] on concrete inputs:
    each overwrites the bytes it is given to write with a constant. *)
Definition marking_trans_k (rt : tr_k.rt_data_t) (m : mem) : mem :=
  fill_n 1 (tr_k.dst rt) (16 * pad_to (tr_k.N rt) 64) 1 m.
Definition marking_trans_v (rt : tr_v.rt_data_t) (m : mem) : mem :=
  fill_n 4 (tr_v.dst_scale rt) 16 neg_1000f
    (fill_n 1 (tr_v.dst rt) (16 * pad_to (tr_v.M rt) 4) 255 m).
Definition marking_qxk (rt : mm_qk.rt_data_t) (m : mem) : mem :=
  fill_n 1 (mm_qk.dst rt) (mm_qk.batch_size rt * (16 * mm_qk.ld_dst rt)) 7 m.
Definition marking_axv (rt : mm_av.rt_data_t) (m : mem) : mem :=
  fill_n 4 (mm_av.dst_scale rt) 16 1
    (fill_n 1 (mm_av.dst rt) (16 * mm_av.ld_dst rt) 9 m).

(* ===================================================================== *)
(** ** What the validation accepts *)
(* ===================================================================== *)

(** The nine tensor shapes of lines 61-70 in terms of five dimensions. *)
Definition declares_shapes (od : operator_desc) (b m h hs n : Z) : Prop :=
  slot_shape od io.SRC_Q = [b; m; h; hs]
  /\ slot_shape od io.SRC_K = [b; n; h; hs]
  /\ slot_shape od io.SRC_V = [b; n; h; hs]
  /\ slot_shape od io.DST = [b; m; h; hs]
  /\ slot_shape od io.BINARY_ADD = [b; 1; 1; n]
  /\ slot_shape od io.Q_SCALE = [b; m]
  /\ slot_shape od io.K_SCALE = [b; n]
  /\ slot_shape od io.V_SCALE = [b; n]
  /\ slot_shape od io.DST_SCALE = [b; m].

(** Lines 55-59: a dimension is positive or the slot the source pairs with
    it has shape {1}; the slot of [m] is [HEAD_SIZE] and the slot of [hs] is
    [M], as the source has them. *)
Definition positive_or_declared (od : operator_desc) (b m h hs n : Z) : Prop :=
  (0 < b \/ slot_shape od io.BATCH_SIZE = [1])
  /\ (0 < h \/ slot_shape od io.HEAD_NUM = [1])
  /\ (0 < m \/ slot_shape od io.HEAD_SIZE = [1])
  /\ (0 < hs \/ slot_shape od io.M = [1])
  /\ (0 < n \/ slot_shape od io.N = [1]).

(** A static problem: batch 2, seq_q 16, heads 4, head_size 64, seq_k 20. *)
Definition desc_static : operator_desc := mha_desc 2 16 4 64 20 (fun _ => false).

(** One descriptor more than the vectors of [get_tensor_shapes] hold. *)
Definition descs_too_many : list tensor_desc :=
  replicate (S (S io.mha_dense_io_MAX)) no_tensor.

(* ===================================================================== *)
(** ** [dynamic_quant_mha_k_t::init] *)
(* ===================================================================== *)

(** The argument of the constructor of [jit_trans_AB16a4b_16x] at line
    118: [pad_n] and the two members after it. *)
Record trans_AB16a4b_param := TransParam {
  pad_n : Z; trans_param_1 : bool; trans_param_2 : Z
}.

(** The four micro-kernels the kernel object owns through
    [std::unique_ptr]: [None] for an empty pointer, otherwise the argument
    the micro-kernel was constructed with ([pre_amx_cfg] for the two matrix
    kernels, given as the value it points to). *)
Record micro_kernels := MicroKernels {
  mk_seq_cpy_k : option trans_AB16a4b_param;
  mk_seq_cpy_v : option unit;
  mk_qxk : option tile_param_t;
  mk_axv : option tile_param_t
}.

(** The answers of the six [create_kernel()] calls, in the order of the
    source. *)
Record created := Created {
  amx_cfg_created : bool;
  amx_rls_created : bool;
  seq_cpy_k_created : bool;
  seq_cpy_v_created : bool;
  qxk_created : bool;
  axv_created : bool
}.

(** Lines 114-128. *)
Definition kernel_init (k : dynamic_quant_mha_k_t) (c : created)
    (ks : micro_kernels) : bool * micro_kernels :=
  if negb (amx_cfg_created c) then (false, ks) else
  if negb (amx_rls_created c) then (false, ks) else
  let ks := MicroKernels (Some (TransParam 64 false 1))
              (mk_seq_cpy_v ks) (mk_qxk ks) (mk_axv ks) in
  if negb (seq_cpy_k_created c) then (false, ks) else
  let ks := MicroKernels (mk_seq_cpy_k ks) (Some tt) (mk_qxk ks) (mk_axv ks) in
  if negb (seq_cpy_v_created c) then (false, ks) else
  let ks := MicroKernels (mk_seq_cpy_k ks) (mk_seq_cpy_v ks)
              (Some (amx_full_tile_param_ k)) (mk_axv ks) in
  if negb (qxk_created c) then (false, ks) else
  let ks := MicroKernels (mk_seq_cpy_k ks) (mk_seq_cpy_v ks) (mk_qxk ks)
              (Some (amx_full_tile_param_ k)) in
  if negb (axv_created c) then (false, ks) else
  (true, ks).

(** A kernel object before [init]: the four pointers empty. *)
Definition no_micro_kernels : micro_kernels := MicroKernels None None None None.

(* ===================================================================== *)
(** ** The calls of the two transposing micro-kernels *)
(* ===================================================================== *)

(** The values the variable of [for (i = lo; i < hi; i += step)] takes. *)
Definition loop_indices (lo hi step : Z) : list Z :=
  (fun t => lo + step * Z.of_nat t) <$> seq 0 (trip_count lo hi step).

Definition sum_Z (l : list Z) : Z := foldr Z.add 0 l.

(** Lines 182-191: the parameter block of the Key micro-kernel for the 16
    rows that start at row [j]. *)
Definition tr_k_data (batch_size head_num head_size N ibs ihn j : Z)
    : tr_k.rt_data_t :=
  let curr_k :=
    src_k +₁ (ibs ⊠ N ⊠ head_size ⊠ head_num) +₁ (ihn ⊠ head_size) in
  let curr_tmp_k :=
    tmp_k batch_size N +₁ ((ibs ⊠ head_num ⊞ ihn) ⊠ head_tmp_k_size head_size N) in
  {| tr_k.src := curr_k +₁ (j ⊠ (head_size ⊠ head_num));
     tr_k.dst := curr_tmp_k +₁ (j ⊠ head_size_pad64 head_size);
     tr_k.ld_src := head_size ⊠ head_num;
     tr_k.M := Z.min 16 (N ⊟ j);
     tr_k.N := head_size |}.

(* ===================================================================== *)
(** ** The second loop nest: iterations, threads and tensor layout *)
(* ===================================================================== *)

(** The iterations of the second loop nest: the indices the loops of lines
    231-232 take. *)
Definition valid_iteration (batch_size M ibs i : Z) : Prop :=
  0 <= ibs < batch_size /\ 0 <= i < M /\ i mod 16 = 0.

(** The threads [ker_amx_cfg_] has been called on, in the order of the
    calls. *)
Definition configured_threads (st : exec_state) : list Z := fst <$> st_amx_cfg st.

(** The flags of [amx_init] agree with the calls made: the array has
    [max_threads] entries, no thread was configured twice, and the flag of
    a thread is set exactly when it was configured. *)
Definition amx_init_consistent (max_threads : Z) (st : exec_state) : Prop :=
  length (st_amx_init st) = Z.to_nat max_threads
  /\ NoDup (configured_threads st)
  /\ forall tid, 0 <= tid < max_threads ->
       exists flag, st_amx_init st !! Z.to_nat tid = Some flag
                    /\ (flag = true <-> tid ∈ configured_threads st).

(** The offset, in elements, of entry [(ibs, s, ihn, x)] of a tensor of
    shape {batch, seq, heads, head_size} stored row by row. *)
Definition row_major (seq heads head_size ibs s ihn x : Z) : Z :=
  ((ibs * seq + s) * heads + ihn) * head_size + x.

(* ===================================================================== *)
(** ** Further concrete inputs *)
(* ===================================================================== *)

(** A memory that holds zero everywhere: every dynamic dimension read
    from it is 0. *)
Definition mem_zero : mem := fun _ _ => 0.

(** A schedule of the second loop nest on two threads: the iterations of
    batch index [ibs] are run by thread [ibs mod 2]. *)
Definition thread_of_batch (ibs i : Z) : Z := ibs mod 2.


(* ===================================================================== *)
(** ** Dynamic dimensions in memory, and further inputs *)
(* ===================================================================== *)

(** The buffer of [slot] starts with the [int32_t] value [v]: four bytes,
    least significant first, in two's complement. *)
Definition holds_i32 (m : mem) (slot : io.t) (v : Z) : Prop :=
  - 2 ^ 31 <= v <= INT_MAX
  /\ forall i, 0 <= i < 4 -> m slot i = byte_of v i.

(** Where the value [v] of a dimension comes from: the kernel object, when
    the dimension stored there is positive, and otherwise the [int32_t] the
    call supplies in the buffer of [slot]. *)
Definition dimension_from (stored : Z) (slot : io.t) (m : mem) (v : Z) : Prop :=
  (0 < stored /\ v = stored) \/ (stored <= 0 /\ holds_i32 m slot v).

(** A call that supplies batch 2, heads 4, seq_q 16, head_size 64 and
    seq_k 300 (a value of more than one byte) for a kernel whose five
    dimensions are dynamic, and one that supplies batch -1. *)
Definition mem_dims_wide : mem :=
  fun b o =>
    match b with
    | io.BATCH_SIZE => byte_of 2 o
    | io.HEAD_NUM => byte_of 4 o
    | io.M => byte_of 16 o
    | io.HEAD_SIZE => byte_of 64 o
    | io.N => byte_of 300 o
    | _ => 0
    end.
Definition mem_batch_negative : mem := mem_with_i32 io.BATCH_SIZE (-1).

(** A static problem whose seq_q, 20, is not a multiple of 16: batch 2,
    heads 4, head_size 64, seq_k 20.  Output has [2 * 20 * 4 * 64] bytes and
    Output scale [2 * 20] floats. *)
Definition desc_seq_q_20 : operator_desc := mha_desc 2 20 4 64 20 (fun _ => false).
Definition kernel_seq_q_20 : dynamic_quant_mha_k_t :=
  Kernel 2 4 20 64 20 (TileParam 16 16 64 false 4).
Definition output_bytes_seq_q_20 : Z := 2 * 20 * 4 * 64.
Definition output_scale_bytes_seq_q_20 : Z := 4 * (2 * 20).

(** A descriptor with no tensor and no attribute. *)
Definition desc_empty : operator_desc := OperatorDesc [] ∅.

(** The calls are in order: [ker_amx_cfg_] is called for a thread that is
    not among [seen], the threads configured before, and a matrix
    micro-kernel runs on a thread that is. *)
Fixpoint calls_ordered (seen : list Z) (l : list call) : Prop :=
  match l with
  | [] => True
  | call_amx_cfg tid _ :: l' =>
      (tid ∉ seen) /\ calls_ordered (tid :: seen) l'
  | call_qxk tid _ :: l' | call_axv tid _ :: l' =>
      (tid ∈ seen) /\ calls_ordered seen l'
  end.

(** The bytes [execute] may write when seq_q is a multiple of 16: the
    Output tensor, the Output scales and the workspace up to the end of the
    scratch of the threads. *)
Definition in_outputs (max_threads batch_size head_num head_size M N : Z)
    (b : io.t) (o : Z) : Prop :=
  (b = io.DST /\ 0 <= o < batch_size * M * head_size * head_num)
  \/ (b = io.DST_SCALE /\ 0 <= o < 4 * (batch_size * M))
  \/ (b = io.WORKSPACE
      /\ 0 <= o < off (tmp_end max_threads batch_size head_num head_size N)).

(* ===================================================================== *)
(** * Theorems *)
(* ===================================================================== *)

(** ** Validation *)

Lemma shape_at_get_tensor_shapes od shapes s :
  get_tensor_shapes (tensor_descs od) = Some shapes ->
  shape_at shapes s = slot_shape od s.
Proof.
  unfold get_tensor_shapes, shape_at, slot_shape.
  destruct (_ <=? _)%nat eqn:Hlen; [|discriminate].
  intros [= <-]. apply Nat.leb_le in Hlen.
  destruct (decide (io.index s < length (tensor_descs od))%nat) as [Hlt|Hge].
  - rewrite lookup_app_l by (rewrite length_fmap; exact Hlt).
    rewrite list_lookup_fmap. reflexivity.
  - rewrite lookup_app_r by (rewrite length_fmap; lia).
    rewrite (lookup_ge_None_2 (tensor_descs od)) by lia.
    destruct (replicate _ _ !! _) as [x|] eqn:Hx; [|reflexivity].
    apply lookup_replicate in Hx as [-> _]. reflexivity.
Qed.

Lemma dtype_at_get_tensor_dtypes od dtypes s :
  get_tensor_dtypes (tensor_descs od) = Some dtypes ->
  dtype_at dtypes s = slot_dtype od s.
Proof.
  unfold get_tensor_dtypes, dtype_at, slot_dtype.
  destruct (_ <=? _)%nat eqn:Hlen; [|discriminate].
  intros [= <-]. apply Nat.leb_le in Hlen.
  destruct (decide (io.index s < length (tensor_descs od))%nat) as [Hlt|Hge].
  - rewrite lookup_app_l by (rewrite length_fmap; exact Hlt).
    rewrite list_lookup_fmap. reflexivity.
  - rewrite lookup_app_r by (rewrite length_fmap; lia).
    rewrite (lookup_ge_None_2 (tensor_descs od)) by lia.
    destruct (replicate _ _ !! _) as [x|] eqn:Hx; [|reflexivity].
    apply lookup_replicate in Hx as [-> _]. reflexivity.
Qed.

(** On a descriptor whose dimensions can be read, the reads of lines 46-53
    have a result. *)
Lemma dims_readable_reads od :
  dims_readable od ->
  exists shapes dtypes b m h hs n,
    get_tensor_shapes (tensor_descs od) = Some shapes
    /\ get_tensor_dtypes (tensor_descs od) = Some dtypes
    /\ slot_shape od io.SRC_Q !! 0%nat = Some b
    /\ slot_shape od io.SRC_Q !! 1%nat = Some m
    /\ slot_shape od io.SRC_Q !! 2%nat = Some h
    /\ slot_shape od io.SRC_Q !! 3%nat = Some hs
    /\ slot_shape od io.SRC_K !! 1%nat = Some n.
Proof.
  intros (Hlen & HQ & HK).
  unfold get_tensor_shapes, get_tensor_dtypes.
  apply Nat.leb_le in Hlen. rewrite Hlen.
  destruct (slot_shape od io.SRC_Q) as [|b [|m [|h [|hs ?]]]]; simpl in HQ; try lia.
  destruct (slot_shape od io.SRC_K) as [|b' [|n ?]]; simpl in HK; try lia.
  eexists _, _, b, m, h, hs, n. repeat split; reflexivity.
Qed.

Lemma forallb_zero_points od :
  zero_points_absent od =
    is_empty (slot_shape od io.Q_ZP) && is_empty (slot_shape od io.K_ZP)
    && is_empty (slot_shape od io.V_ZP) && is_empty (slot_shape od io.DST_ZP)
    && is_empty (slot_shape od io.SRC_DST_SCALE)
    && is_empty (slot_shape od io.SRC_DST_ZP).
Proof.
  unfold zero_points_absent, zero_point_slots. simpl.
  repeat (destruct (is_empty _); simpl; try reflexivity).
Qed.

Lemma forallb_activations od :
  activations_s8 od =
    is_all_of [slot_dtype od io.SRC_Q; slot_dtype od io.SRC_K;
               slot_dtype od io.SRC_V; slot_dtype od io.DST]
              (fun t => bool_decide (t = dt_s8)).
Proof. reflexivity. Qed.

Lemma forallb_scales od :
  scales_fp32 od =
    is_all_of [slot_dtype od io.BINARY_ADD; slot_dtype od io.Q_SCALE;
               slot_dtype od io.K_SCALE; slot_dtype od io.V_SCALE;
               slot_dtype od io.DST_SCALE]
              (fun t => bool_decide (t = dt_fp32)).
Proof. reflexivity. Qed.

#[local] Arguments is_all_of : simpl never.

(** On a descriptor whose dimensions can be read, or that fails before
    they are, [init] returns false with a check of the first failing
    group, or with a shape check that precedes it. *)
Lemma init_first_bad_stage (amx_int8 : bool) (od : operator_desc) :
  (first_bad_stage amx_int8 od <= 2)%nat \/ dims_readable od ->
  (first_bad_stage amx_int8 od < 7)%nat ->
  exists c, init amx_int8 od = Some (false, c)
    /\ (stage c = first_bad_stage amx_int8 od
        \/ (stage c = 3 /\ 3 < first_bad_stage amx_int8 od))%nat.
Proof.
  intros Hread Hbad. unfold init, first_bad_stage in *.
  destruct amx_int8; simpl in *; [|eexists; split; [reflexivity|left; reflexivity]].
  unfold attr_is, KERNEL_INIT_CHECK at 1 2.
  fold (approx_exp_set od) (stable_softmax_unset od).
  destruct (approx_exp_set od); simpl in *;
    [|eexists; split; [reflexivity|left; reflexivity]].
  destruct (stable_softmax_unset od); simpl in *;
    [|eexists; split; [reflexivity|left; reflexivity]].
  assert (Hr : dims_readable od).
  { destruct Hread as [H|H]; [|exact H]. repeat destruct (negb _); lia. }
  destruct (dims_readable_reads od Hr)
    as (shapes & dtypes & b & m & h & hs & n & Hs & Hd & Hb & Hm & Hh & Hhs & Hn).
  rewrite Hs, Hd. simpl.
  rewrite !(shape_at_get_tensor_shapes od shapes) by exact Hs.
  rewrite Hb, Hh, Hm, Hhs, Hn. simpl.
  unfold dyn_check_batch_size, dyn_check_head_num, dyn_check_M,
    dyn_check_head_size, dyn_check_N.
  rewrite !(shape_at_get_tensor_shapes od shapes) by exact Hs.
  rewrite !(dtype_at_get_tensor_dtypes od dtypes) by exact Hd.
  rewrite <- forallb_activations, <- forallb_scales.
  rewrite forallb_zero_points in *.
  assert (Hge : forall k : nat,
    (k = (if negb (is_empty (slot_shape od io.Q_ZP) && is_empty (slot_shape od io.K_ZP)
    && is_empty (slot_shape od io.V_ZP) && is_empty (slot_shape od io.DST_ZP)
    && is_empty (slot_shape od io.SRC_DST_SCALE)
    && is_empty (slot_shape od io.SRC_DST_ZP)) then 4
       else if negb (activations_s8 od) then 5
       else if negb (scales_fp32 od) then 6 else 7) -> 3 < k)%nat).
  { intros k ->. repeat destruct (negb _); lia. }
  unfold KERNEL_INIT_CHECK.
  repeat match goal with
  | |- context [if ?c || ?d then _ else _] =>
      destruct (c || d);
      [|eexists; split; [reflexivity|right; split; [reflexivity|apply Hge; reflexivity]]]
  | |- context [if shape_eqb ?a ?b then _ else _] =>
      destruct (shape_eqb a b);
      [|eexists; split; [reflexivity|right; split; [reflexivity|apply Hge; reflexivity]]]
  end.
  clear Hge.
  repeat match goal with
  | |- context [if is_empty ?a then _ else _] =>
      destruct (is_empty a); simpl in *;
      [|eexists; split; [reflexivity|left; reflexivity]]
  end.
  destruct (activations_s8 od); simpl in *;
    [|eexists; split; [reflexivity|left; reflexivity]].
  destruct (scales_fp32 od); simpl in *;
    [|eexists; split; [reflexivity|left; reflexivity]].
  lia.
Qed.

Lemma forallb_false_exists {A} (p : A -> bool) (l : list A) :
  forallb p l = false <-> exists x, x ∈ l /\ p x = false.
Proof.
  induction l as [|a l IH]; simpl.
  - split; [discriminate|]. intros (x & Hx & _). inversion Hx.
  - rewrite andb_false_iff, IH. split.
    + intros [Ha | (x & Hx & Hp)].
      * exists a. split; [left|exact Ha].
      * exists x. split; [right; exact Hx|exact Hp].
    + intros (x & Hx & Hp). apply elem_of_cons in Hx as [-> | Hx].
      * left. exact Hp.
      * right. exists x. split; assumption.
Qed.

Lemma is_empty_false (l : list Z) : is_empty l = false <-> l <> [].
Proof. destruct l; simpl; split; intros H; congruence. Qed.

(** [first_bad_stage] is below 7 exactly under [rejecting_condition], and
    at most 2 exactly when the hardware or an attribute fails. *)
Lemma rejecting_condition_stage amx_int8 od :
  rejecting_condition amx_int8 od <-> (first_bad_stage amx_int8 od < 7)%nat.
Proof.
  unfold rejecting_condition, first_bad_stage.
  assert (Ha : attrs od !! "approx_exp" <> Some "True"
               <-> approx_exp_set od = false)
    by (unfold approx_exp_set; rewrite bool_decide_eq_false; reflexivity).
  assert (Hs : attrs od !! "stable_softmax" <> Some "False"
               <-> stable_softmax_unset od = false)
    by (unfold stable_softmax_unset; rewrite bool_decide_eq_false; reflexivity).
  assert (Hz : (exists s, s ∈ zero_point_slots /\ slot_shape od s <> [])
               <-> zero_points_absent od = false).
  { unfold zero_points_absent. rewrite forallb_false_exists.
    split; intros (x & Hx & Hp); exists x; (split; [exact Hx|]);
      apply is_empty_false; exact Hp. }
  assert (H8 : (exists s, s ∈ s8_slots /\ slot_dtype od s <> dt_s8)
               <-> activations_s8 od = false).
  { unfold activations_s8. rewrite forallb_false_exists.
    split; intros (x & Hx & Hp); exists x; (split; [exact Hx|]).
    - apply bool_decide_eq_false_2, Hp.
    - apply bool_decide_eq_false_1 in Hp. exact Hp. }
  assert (Hf : (exists s, s ∈ fp32_slots /\ slot_dtype od s <> dt_fp32)
               <-> scales_fp32 od = false).
  { unfold scales_fp32. rewrite forallb_false_exists.
    split; intros (x & Hx & Hp); exists x; (split; [exact Hx|]).
    - apply bool_decide_eq_false_2, Hp.
    - apply bool_decide_eq_false_1 in Hp. exact Hp. }
  rewrite Ha, Hs, Hz, H8, Hf.
  destruct amx_int8, (approx_exp_set od), (stable_softmax_unset od),
    (zero_points_absent od), (activations_s8 od), (scales_fp32 od);
    simpl; split; intros H; try lia; try tauto;
    repeat (destruct H as [H|H]; try discriminate H).
Qed.

Lemma early_failure_stage amx_int8 od :
  amx_int8 = false
  \/ attrs od !! "approx_exp" <> Some "True"
  \/ attrs od !! "stable_softmax" <> Some "False" ->
  (first_bad_stage amx_int8 od <= 2)%nat.
Proof.
  unfold first_bad_stage. intros H.
  destruct amx_int8; simpl; [|lia].
  destruct (approx_exp_set od) eqn:Ea; simpl; [|lia].
  destruct (stable_softmax_unset od) eqn:Es; simpl; [|lia].
  apply bool_decide_eq_true in Ea. apply bool_decide_eq_true in Es.
  destruct H as [H | [H | H]]; [discriminate H | contradiction | contradiction].
Qed.

(** X18.  On a descriptor whose dimensions can be read (and on any
    descriptor when the hardware or an attribute fails), [init] returns
    false whenever the hardware lacks the 8-bit tile extension,
    [approx_exp] is not "True", [stable_softmax] is not "False", a
    zero-point or static output-quantization slot is not empty, one of
    Query/Key/Value/Output is not signed 8-bit, or the bias or a scale
    vector is not 32-bit float; the check that stopped it belongs to the
    first of these groups that fails, in this order (hardware first),
    unless one of the shape checks of lines 55-70, which sit between the
    attribute checks and the zero-point checks, failed before. *)
Theorem init_rejects (amx_int8 : bool) (od : operator_desc) :
  rejecting_condition amx_int8 od ->
  amx_int8 = false
  \/ attrs od !! "approx_exp" <> Some "True"
  \/ attrs od !! "stable_softmax" <> Some "False"
  \/ dims_readable od ->
  exists c, init amx_int8 od = Some (false, c)
    /\ (stage c = first_bad_stage amx_int8 od
        \/ (stage c = 3 /\ 3 < first_bad_stage amx_int8 od))%nat.
Proof.
  intros Hbad Hread. apply init_first_bad_stage.
  - destruct Hread as [H | [H | [H | H]]]; [left | left | left | right; exact H];
      apply early_failure_stage; tauto.
  - apply rejecting_condition_stage, Hbad.
Qed.

Lemma init_rejects_witness :
  exists c, init true desc_with_K_ZP = Some (false, c)
    /\ (stage c = first_bad_stage true desc_with_K_ZP
        \/ (stage c = 3 /\ 3 < first_bad_stage true desc_with_K_ZP))%nat.
Proof.
  apply (init_rejects true desc_with_K_ZP).
  - right. right. right. left. exists io.K_ZP. split.
    + unfold zero_point_slots. apply list_elem_of_In. simpl. tauto.
    + vm_compute. discriminate.
  - right. right. right. repeat split; vm_compute; lia.
Defined.

(** The check that stops [init] there is the one of line 74. *)
Example init_rejects_K_ZP :
  init true desc_with_K_ZP = Some (false, Some chk_K_ZP)
  /\ init false desc_no_tensors = Some (false, None).
Proof. split; vm_compute; reflexivity. Qed.

(** A descriptor whose Query shape has fewer than four entries, or whose
    Key shape has fewer than two, makes lines 49-53 read past the end of a
    shape, whatever else it holds. *)
Lemma init_unreadable_dimensions (od : operator_desc) :
  approx_exp_set od = true -> stable_softmax_unset od = true ->
  (length (slot_shape od io.SRC_Q) < 4)%nat
  \/ (length (slot_shape od io.SRC_K) < 2)%nat ->
  init true od = None.
Proof.
  intros Ha Hs Hlen. unfold init. cbn [negb].
  unfold approx_exp_set, stable_softmax_unset in Ha, Hs.
  unfold attr_is, KERNEL_INIT_CHECK at 1 2. rewrite Ha, Hs.
  destruct (get_tensor_shapes (tensor_descs od)) as [shapes|] eqn:Esh;
    [|reflexivity].
  destruct (get_tensor_dtypes (tensor_descs od)) as [dtypes|] eqn:Edt;
    [|reflexivity].
  cbn [mbind option_bind].
  rewrite !(shape_at_get_tensor_shapes od shapes) by exact Esh.
  destruct (slot_shape od io.SRC_Q) as [|b [|m [|h [|hs ?]]]];
    try reflexivity.
  destruct (slot_shape od io.SRC_K) as [|b' [|n ?]]; try reflexivity.
  simpl in Hlen. lia.
Qed.

(** C6 (the code departs from it).  The descriptor [desc_no_tensors] has
    the hardware and the two attributes as required and declares no
    tensor, so Query is not signed 8-bit, a case in which the validation
    is to return false.  [init] has no result there: line 49 reads entry 0 of the shape
    of Query, which is empty, before the check of line 61 that would have
    rejected that shape (it differs from every shape of four entries); so
    it does for every descriptor whose Query shape has fewer than four
    entries or whose Key shape has fewer than two.  The attribute path
    does guard what it reads: without attributes [init] returns false. *)
Theorem init_reads_dimensions_before_rank_check :
  rejecting_condition true desc_no_tensors
  /\ init true desc_no_tensors = None
  /\ (forall b m h hs,
        shape_eqb (slot_shape desc_no_tensors io.SRC_Q) [b; m; h; hs] = false)
  /\ (forall od,
        approx_exp_set od = true -> stable_softmax_unset od = true ->
        (length (slot_shape od io.SRC_Q) < 4)%nat
        \/ (length (slot_shape od io.SRC_K) < 2)%nat ->
        init true od = None)
  /\ init true desc_empty = Some (false, Some chk_approx_exp).
Proof.
  split; [|split; [|split; [|split]]].
  - right. right. right. right. left. exists io.SRC_Q. split.
    + unfold s8_slots. apply list_elem_of_In. simpl. tauto.
    + vm_compute. discriminate.
  - apply init_unreadable_dimensions; [reflexivity|reflexivity|].
    left. vm_compute. lia.
  - intros b m h hs. apply bool_decide_eq_false_2. vm_compute. discriminate.
  - exact init_unreadable_dimensions.
  - vm_compute. reflexivity.
Qed.

(** What lines 55-59 test for a dimension that is statically zero. *)
Lemma dyn_checks_at_zero shapes :
  (dyn_check_batch_size shapes 0 = true <-> shape_at shapes io.BATCH_SIZE = [1])
  /\ (dyn_check_head_num shapes 0 = true <-> shape_at shapes io.HEAD_NUM = [1])
  /\ (dyn_check_M shapes 0 = true <-> shape_at shapes io.HEAD_SIZE = [1])
  /\ (dyn_check_head_size shapes 0 = true <-> shape_at shapes io.M = [1])
  /\ (dyn_check_N shapes 0 = true <-> shape_at shapes io.N = [1]).
Proof.
  unfold dyn_check_batch_size, dyn_check_head_num, dyn_check_M,
    dyn_check_head_size, dyn_check_N, shape_eqb. simpl.
  repeat split; intros H;
    first [apply bool_decide_eq_true_1 in H | apply bool_decide_eq_true_2]; exact H.
Qed.

(** C1 (the code departs from it).  With seq_q statically zero, [init]
    rejects a descriptor whose own dynamic slot [M] has shape {1} (the
    check of line 57 looks at [HEAD_SIZE]), and accepts one that declares
    [HEAD_SIZE] instead of [M]; symmetrically for head_size and line 58. *)
Theorem init_dynamic_seq_q_head_size_slots_swapped :
  init true (mha_desc 2 0 4 64 20 (fun s => bool_decide (s = io.M)))
    = Some (false, Some chk_dyn_M)
  /\ init true (mha_desc 2 0 4 64 20 (fun s => bool_decide (s = io.HEAD_SIZE)))
    = Some (true, None)
  /\ init true (mha_desc 2 16 4 0 20 (fun s => bool_decide (s = io.HEAD_SIZE)))
    = Some (false, Some chk_dyn_head_size)
  /\ init true (mha_desc 2 16 4 0 20 (fun s => bool_decide (s = io.M)))
    = Some (true, None).
Proof. repeat split; vm_compute; reflexivity. Qed.

(** The three other dimensions are checked against their own slots. *)
Example init_dynamic_batch_heads_seq_k :
  init true (mha_desc 0 16 4 64 20 (fun s => bool_decide (s = io.BATCH_SIZE)))
    = Some (true, None)
  /\ init true (mha_desc 0 16 4 64 20 (fun _ => false))
    = Some (false, Some chk_dyn_batch_size)
  /\ init true (mha_desc 2 16 0 64 20 (fun s => bool_decide (s = io.HEAD_NUM)))
    = Some (true, None)
  /\ init true (mha_desc 2 16 4 64 0 (fun s => bool_decide (s = io.N)))
    = Some (true, None).
Proof. repeat split; vm_compute; reflexivity. Qed.

Example init_static_ok :
  init true (mha_desc 2 16 4 64 20 (fun _ => false)) = Some (true, None).
Proof. vm_compute. reflexivity. Qed.

(** ** Integer arithmetic in range *)

Lemma to_int_small x : - 2 ^ 31 <= x <= INT_MAX -> to_int x = x.
Proof.
  unfold to_int, INT_MAX. intros Hx. rewrite Z.mod_small by lia. lia.
Qed.

Lemma int_mul_exact a b : 0 <= a * b <= INT_MAX -> a ⊠ b = a * b.
Proof. intros H. apply to_int_small. lia. Qed.

Lemma int_add_exact a b : 0 <= a + b <= INT_MAX -> a ⊞ b = a + b.
Proof. intros H. apply to_int_small. lia. Qed.

Lemma int_sub_exact a b : 0 <= a - b <= INT_MAX -> a ⊟ b = a - b.
Proof. intros H. apply to_int_small. lia. Qed.

(** ** Padding *)

(** [pad_to x k] is the least multiple of [k] that is not below [x]. *)
Lemma pad_to_spec x k :
  0 < k ->
  x <= pad_to x k < x + k /\ pad_to x k mod k = 0.
Proof.
  intros Hk. unfold pad_to. split.
  - pose proof (Z.div_mod (x + k - 1) k ltac:(lia)) as Hd.
    pose proof (Z.mod_pos_bound (x + k - 1) k Hk) as Hm. lia.
  - apply Z_mod_mult.
Qed.

Lemma pad_to_least x k y :
  0 < k -> x <= y -> y mod k = 0 -> pad_to x k <= y.
Proof.
  intros Hk Hxy Hy. unfold pad_to.
  apply Z.mod_divide in Hy; [|lia]. destruct Hy as [q ->].
  apply Z.mul_le_mono_nonneg_r; [lia|].
  apply Z.lt_succ_r. apply Z.div_lt_upper_bound; [lia|]. nia.
Qed.

Lemma pad_to_mono x y k : 0 < k -> x <= y -> pad_to x k <= pad_to y k.
Proof.
  intros Hk Hxy. unfold pad_to.
  apply Z.mul_le_mono_nonneg_r; [lia|].
  apply Z.div_le_mono; lia.
Qed.

Lemma pad_to_nonneg x k : 0 < k -> 0 <= x -> 0 <= pad_to x k.
Proof. intros Hk Hx. pose proof (pad_to_spec x k Hk). lia. Qed.

(** A padding to 4 or 16 is below the padding to 64. *)
Lemma pad_to_le_64 x k :
  0 < k -> 64 mod k = 0 -> pad_to x k <= pad_to x 64.
Proof.
  intros Hk H64.
  destruct (pad_to_spec x 64 ltac:(lia)) as [Hle Hmod].
  apply pad_to_least; [exact Hk|lia|].
  apply Z.mod_divide in H64; [|lia]. apply Z.mod_divide in Hmod; [|lia].
  apply Z.mod_divide; [lia|]. etransitivity; eassumption.
Qed.

(** ** Workspace size *)

Lemma eqm64_refl a : eqm64 a a.
Proof. reflexivity. Qed.

Lemma to_size_eqm64 a a' : eqm64 a a' -> eqm64 (to_size a) a'.
Proof. unfold eqm64, to_size. intros <-. apply Zmod_mod. Qed.

Lemma size_add_eqm64 a b a' b' :
  eqm64 a a' -> eqm64 b b' -> eqm64 (size_add a b) (a' + b').
Proof.
  unfold eqm64, size_add. intros Ha Hb. rewrite Zmod_mod.
  rewrite (Zplus_mod a b), (Zplus_mod a' b'), Ha, Hb. reflexivity.
Qed.

Lemma size_mul_eqm64 a b a' b' :
  eqm64 a a' -> eqm64 b b' -> eqm64 (size_mul a b) (a' * b').
Proof.
  unfold eqm64, size_mul. intros Ha Hb. rewrite Zmod_mod.
  rewrite (Zmult_mod a b), (Zmult_mod a' b'), Ha, Hb. reflexivity.
Qed.

(** [get_workspace_size] is the sum of the four formulas over the
    dimensions stored in the kernel object, modulo [2^64], when the product
    of the two paddings fits [int]. *)
Lemma get_workspace_size_stored max_threads k :
  0 <= N_ k -> 0 <= head_size_ k ->
  pad_to (N_ k) 64 * pad_to (head_size_ k) 64 <= INT_MAX ->
  get_workspace_size max_threads k
  = spec_workspace_size max_threads (batch_size_ k) (head_num_ k) (N_ k)
      (head_size_ k) mod 2 ^ 64.
Proof.
  intros Hn Hhs Hint.
  assert (Hred : get_workspace_size max_threads k
                 = get_workspace_size max_threads k mod SIZE_MOD).
  { unfold get_workspace_size at 1 2, size_add at 1 4. symmetry. apply Zmod_mod. }
  rewrite Hred. change (2 ^ 64) with SIZE_MOD.
  change (eqm64 (get_workspace_size max_threads k)
            (spec_workspace_size max_threads (batch_size_ k) (head_num_ k)
               (N_ k) (head_size_ k))).
  replace (spec_workspace_size max_threads (batch_size_ k) (head_num_ k)
             (N_ k) (head_size_ k))
    with (4 * batch_size_ k * pad_to (N_ k) 64
          + 1 * batch_size_ k * head_num_ k
            * (pad_to (N_ k) 64 * pad_to (head_size_ k) 64) * 2
          + 4 * batch_size_ k * head_num_ k * pad_to (head_size_ k) 64
          + 4 * max_threads * 16 * head_num_ k * pad_to (N_ k) 64)
    by (unfold spec_workspace_size, spec_mask_bytes, spec_kv_bytes,
          spec_v_scale_bytes, spec_softmax_scratch_bytes; ring).
  unfold get_workspace_size, sizeof_float, sizeof_int8_t.
  rewrite int_mul_exact.
  - repeat first [apply size_add_eqm64 | apply size_mul_eqm64
                 | apply to_size_eqm64 | apply eqm64_refl].
  - split; [|exact Hint].
    apply Z.mul_nonneg_nonneg; apply pad_to_nonneg; lia.
Qed.

Lemma spec_workspace_size_nonneg T b h n hs :
  0 <= T -> 0 <= b -> 0 <= h -> 0 <= n -> 0 <= hs ->
  0 <= spec_workspace_size T b h n hs.
Proof.
  intros. unfold spec_workspace_size, spec_mask_bytes, spec_kv_bytes,
    spec_v_scale_bytes, spec_softmax_scratch_bytes.
  pose proof (pad_to_nonneg n 64 ltac:(lia) ltac:(lia)).
  pose proof (pad_to_nonneg hs 64 ltac:(lia) ltac:(lia)).
  generalize dependent (pad_to n 64). generalize dependent (pad_to hs 64).
  intros Q HQ P HP.
  repeat apply Z.add_nonneg_nonneg; repeat apply Z.mul_nonneg_nonneg; lia.
Qed.

Lemma spec_workspace_size_mono T b h n hs b' h' n' hs' :
  0 <= T -> 0 <= b <= b' -> 0 <= h <= h' -> 0 <= n <= n' -> 0 <= hs <= hs' ->
  spec_workspace_size T b h n hs <= spec_workspace_size T b' h' n' hs'.
Proof.
  intros HT Hb Hh Hn Hhs.
  unfold spec_workspace_size, spec_mask_bytes, spec_kv_bytes,
    spec_v_scale_bytes, spec_softmax_scratch_bytes.
  pose proof (pad_to_nonneg n 64 ltac:(lia) ltac:(lia)).
  pose proof (pad_to_nonneg hs 64 ltac:(lia) ltac:(lia)).
  pose proof (pad_to_mono n n' 64 ltac:(lia) ltac:(lia)).
  pose proof (pad_to_mono hs hs' 64 ltac:(lia) ltac:(lia)).
  generalize dependent (pad_to n 64). generalize dependent (pad_to hs 64).
  generalize dependent (pad_to n' 64). generalize dependent (pad_to hs' 64).
  intros Q' P' Q HQ HQQ P HP HPP.
  repeat apply Z.add_le_mono;
    repeat first [lia | apply Z.mul_le_mono_nonneg | apply Z.mul_nonneg_nonneg].
Qed.

(** C2 (as stated) fails when a dimension is dynamic: with the batch
    declared 0 and resolved to 2 at call time, [get_workspace_size] is not
    the value of the formulas on the resolved dimensions (4096 against
    21504 for one thread). *)
Lemma get_workspace_size_dynamic_batch :
  ~ (get_workspace_size 1 kernel_dynamic_batch
     = spec_workspace_size 1
         (resolved_batch_size kernel_dynamic_batch mem_batch_2)
         (resolved_head_num kernel_dynamic_batch mem_batch_2)
         (resolved_N kernel_dynamic_batch mem_batch_2)
         (resolved_head_size kernel_dynamic_batch mem_batch_2)).
Proof. vm_compute. discriminate. Qed.

(** C2 (as amended).  [get_workspace_size] is the sum
    mask_bytes + kv_bytes + v_scale_bytes + softmax_scratch_bytes of the
    specification taken on the dimensions stored at construction, a
    dimension declared dynamic counting as 0 whatever the call supplies
    for it (provided the [int] product of the paddings and the sum in
    [size_t] do not overflow); when batch, heads, seq_k and
    head_size are all declared positive, this is the sum on the dimensions
    [execute] resolves. *)
Theorem get_workspace_size_static (max_threads : Z) (k : dynamic_quant_mha_k_t)
    (m : mem) :
  0 <= max_threads ->
  0 <= batch_size_ k -> 0 <= head_num_ k -> 0 <= N_ k -> 0 <= head_size_ k ->
  sizes_fit max_threads k ->
  get_workspace_size max_threads k
  = spec_workspace_size max_threads (batch_size_ k) (head_num_ k) (N_ k)
      (head_size_ k)
  /\ (0 < batch_size_ k -> 0 < head_num_ k -> 0 < N_ k -> 0 < head_size_ k ->
      get_workspace_size max_threads k
      = spec_workspace_size max_threads (resolved_batch_size k m)
          (resolved_head_num k m) (resolved_N k m) (resolved_head_size k m)).
Proof.
  intros HT Hb0 Hh0 Hn0 Hhs0 [Hint Hfit].
  assert (Hstored : get_workspace_size max_threads k
                    = spec_workspace_size max_threads (batch_size_ k)
                        (head_num_ k) (N_ k) (head_size_ k)).
  { rewrite get_workspace_size_stored by assumption.
    apply Z.mod_small. split; [|exact Hfit].
    apply spec_workspace_size_nonneg; assumption. }
  split; [exact Hstored|].
  intros Hb Hh Hn Hhs.
  unfold resolved_batch_size, resolved_head_num, resolved_N, resolved_head_size.
  apply Z.ltb_lt in Hb, Hh, Hn, Hhs.
  rewrite Hb, Hh, Hn, Hhs. exact Hstored.
Qed.

Lemma get_workspace_size_static_witness :
  get_workspace_size 8 kernel_static
  = spec_workspace_size 8 (resolved_batch_size kernel_static mem_batch_2)
      (resolved_head_num kernel_static mem_batch_2)
      (resolved_N kernel_static mem_batch_2)
      (resolved_head_size kernel_static mem_batch_2)
  /\ get_workspace_size 1 kernel_dynamic_batch
     = spec_workspace_size 1 0 1 64 64.
Proof.
  split.
  - apply (get_workspace_size_static 8 kernel_static mem_batch_2);
      try (simpl; lia); split; vm_compute; first [reflexivity | discriminate].
  - apply (get_workspace_size_static 1 kernel_dynamic_batch mem_batch_2);
      try (simpl; lia); split; vm_compute; first [reflexivity | discriminate].
Defined.

(** The kernel with a dynamic batch is the one built from a descriptor
    that [init] accepts. *)
Example make_kernel_dynamic_batch :
  init true (mha_desc 0 16 1 64 64 (fun s => bool_decide (s = io.BATCH_SIZE)))
    = Some (true, None)
  /\ make_kernel (mha_desc 0 16 1 64 64 (fun s => bool_decide (s = io.BATCH_SIZE)))
     = Some kernel_dynamic_batch.
Proof. split; vm_compute; reflexivity. Qed.

(** C4.  Among kernels with positive dimensions whose size computation
    does not overflow, [get_workspace_size] does not decrease when
    dimensions grow; in particular when one of batch, heads, seq_q, seq_k,
    head_size grows and the four others stay as they are. *)
Theorem get_workspace_size_monotone (max_threads : Z)
    (k k' : dynamic_quant_mha_k_t) :
  0 <= max_threads ->
  0 < batch_size_ k <= batch_size_ k' ->
  0 < head_num_ k <= head_num_ k' ->
  0 < M_ k <= M_ k' ->
  0 < N_ k <= N_ k' ->
  0 < head_size_ k <= head_size_ k' ->
  sizes_fit max_threads k' ->
  get_workspace_size max_threads k <= get_workspace_size max_threads k'.
Proof.
  intros HT Hb Hh HM Hn Hhs [Hint Hfit].
  pose proof (spec_workspace_size_mono max_threads
    (batch_size_ k) (head_num_ k) (N_ k) (head_size_ k)
    (batch_size_ k') (head_num_ k') (N_ k') (head_size_ k')
    HT ltac:(lia) ltac:(lia) ltac:(lia) ltac:(lia)) as Hmono.
  pose proof (spec_workspace_size_nonneg max_threads
    (batch_size_ k) (head_num_ k) (N_ k) (head_size_ k)
    HT ltac:(lia) ltac:(lia) ltac:(lia) ltac:(lia)) as H0.
  assert (Hint' : pad_to (N_ k) 64 * pad_to (head_size_ k) 64 <= INT_MAX).
  { pose proof (pad_to_nonneg (N_ k) 64 ltac:(lia) ltac:(lia)).
    pose proof (pad_to_nonneg (head_size_ k) 64 ltac:(lia) ltac:(lia)).
    pose proof (pad_to_mono (N_ k) (N_ k') 64 ltac:(lia) ltac:(lia)).
    pose proof (pad_to_mono (head_size_ k) (head_size_ k') 64
                  ltac:(lia) ltac:(lia)).
    etransitivity; [|exact Hint]. apply Z.mul_le_mono_nonneg; lia. }
  rewrite !get_workspace_size_stored by lia.
  rewrite !Z.mod_small by lia. exact Hmono.
Qed.

Lemma get_workspace_size_monotone_witness :
  get_workspace_size 8 kernel_static <= get_workspace_size 8 kernel_static_larger.
Proof.
  apply (get_workspace_size_monotone 8 kernel_static kernel_static_larger);
    try (simpl; lia); split; vm_compute; first [reflexivity | discriminate].
Defined.

(** C3 (as stated) fails when a dimension is dynamic: with the batch
    declared 0 and resolved to 2 at call time, the regions [execute] carves
    out end at byte 18432 of the workspace, beyond the 4096 bytes
    [get_workspace_size] returns for one thread. *)
Lemma workspace_regions_exceed_size_dynamic_batch :
  ~ (off (tmp_end 1
            (resolved_batch_size kernel_dynamic_batch mem_batch_2)
            (resolved_head_num kernel_dynamic_batch mem_batch_2)
            (resolved_head_size kernel_dynamic_batch mem_batch_2)
            (resolved_N kernel_dynamic_batch mem_batch_2))
     <= get_workspace_size 1 kernel_dynamic_batch).
Proof. vm_compute. intros H. apply H. reflexivity. Qed.

(** C3 (as amended).  For a kernel whose batch, heads, seq_k and head_size
    are declared positive (and whose [int] sizes do not overflow), the five
    regions [execute] carves out of the workspace follow one another from
    offset 0 in the order mask, K, V, V-scale, softmax scratch, with the
    byte sizes 4*batch*pad(seq_k,16),
    batch*heads*pad(head_size,64)*pad(seq_k,16),
    batch*heads*pad(seq_k,64)*pad(head_size,16),
    4*batch*heads*pad(head_size,16) and, per thread,
    heads*16*pad(seq_k,64) (one byte per entry); their end, even with four
    bytes per scratch entry, is within [get_workspace_size]. *)
Theorem workspace_regions_within_size (max_threads : Z)
    (k : dynamic_quant_mha_k_t) (m : mem) :
  0 < batch_size_ k -> 0 < head_num_ k -> 0 < N_ k -> 0 < head_size_ k ->
  0 < max_threads ->
  layout_fits max_threads (batch_size_ k) (head_num_ k) (head_size_ k) (N_ k) ->
  let b := resolved_batch_size k m in
  let h := resolved_head_num k m in
  let hs := resolved_head_size k m in
  let n := resolved_N k m in
  (* one buffer, from its start *)
  tmp_mask = Ptr io.WORKSPACE 0
  /\ buf (tmp_k b n) = io.WORKSPACE
  /\ buf (tmp_v b h hs n) = io.WORKSPACE
  /\ buf (tmp_v_scale b h hs n) = io.WORKSPACE
  /\ buf (tmp_threads b h hs n) = io.WORKSPACE
  /\ buf (tmp_end max_threads b h hs n) = io.WORKSPACE
  (* the regions, in order *)
  /\ off (tmp_k b n) = off tmp_mask + 4 * (b * pad_to n 16)
  /\ off (tmp_v b h hs n)
     = off (tmp_k b n) + b * h * (pad_to hs 64 * pad_to n 16)
  /\ off (tmp_v_scale b h hs n)
     = off (tmp_v b h hs n) + b * h * (pad_to n 64 * pad_to hs 16)
  /\ off (tmp_threads b h hs n)
     = off (tmp_v_scale b h hs n) + 4 * (b * h * pad_to hs 16)
  /\ off (tmp_end max_threads b h hs n)
     = off (tmp_threads b h hs n) + max_threads * (h * 16 * pad_to n 64)
  /\ off tmp_mask <= off (tmp_k b n) <= off (tmp_v b h hs n)
  /\ off (tmp_v b h hs n) <= off (tmp_v_scale b h hs n)
       <= off (tmp_threads b h hs n)
  /\ off (tmp_threads b h hs n) <= off (tmp_end max_threads b h hs n)
  (* inside the size the kernel asks for *)
  /\ off (tmp_threads b h hs n) + 4 * (max_threads * (h * 16 * pad_to n 64))
     <= get_workspace_size max_threads k.
Proof.
  intros Hb Hh Hn Hhs HT [HKV Hscr] b h hs n.
  assert (Eb : b = batch_size_ k).
  { unfold b, resolved_batch_size. apply Z.ltb_lt in Hb. rewrite Hb. reflexivity. }
  assert (Eh : h = head_num_ k).
  { unfold h, resolved_head_num. apply Z.ltb_lt in Hh. rewrite Hh. reflexivity. }
  assert (Ehs : hs = head_size_ k).
  { unfold hs, resolved_head_size. apply Z.ltb_lt in Hhs. rewrite Hhs. reflexivity. }
  assert (En : n = N_ k).
  { unfold n, resolved_N. apply Z.ltb_lt in Hn. rewrite Hn. reflexivity. }
  clearbody b h hs n. subst b h hs n.
  pose proof (pad_to_nonneg (N_ k) 16 ltac:(lia) ltac:(lia)) as Hn16.
  pose proof (pad_to_nonneg (head_size_ k) 16 ltac:(lia) ltac:(lia)) as Hh16.
  pose proof (pad_to_le_64 (N_ k) 16 ltac:(lia) eq_refl) as Hn64.
  pose proof (pad_to_le_64 (head_size_ k) 16 ltac:(lia) eq_refl) as Hh64.
  destruct (pad_to_spec (N_ k) 64 ltac:(lia)) as [Hn1 _].
  destruct (pad_to_spec (head_size_ k) 64 ltac:(lia)) as [Hh1 _].
  (* the size fits [size_t] *)
  assert (Hfit : sizes_fit max_threads k).
  { unfold sizes_fit, spec_workspace_size, spec_mask_bytes, spec_kv_bytes,
      spec_v_scale_bytes, spec_softmax_scratch_bytes, INT_MAX in *.
    remember (pad_to (N_ k) 64) as N64 eqn:E2.
    remember (pad_to (head_size_ k) 64) as H64 eqn:E4.
    remember (batch_size_ k) as b eqn:E5.
    remember (head_num_ k) as h eqn:E6.
    clear E2 E4 E5 E6.
    assert (1 <= b * h) by nia.
    assert (1 <= N64 * H64) by nia.
    assert (N64 * H64 <= b * h * (N64 * H64)) by nia.
    assert (b * N64 <= b * h * (N64 * H64)) by nia.
    assert (b * h * H64 <= b * h * (N64 * H64)) by nia.
    split; [lia|].
    replace (4 * b * N64) with (4 * (b * N64)) by ring.
    replace (2 * b * h * (N64 * H64)) with (2 * (b * h * (N64 * H64))) by ring.
    replace (4 * b * h * H64) with (4 * (b * h * H64)) by ring.
    replace (4 * max_threads * 16 * h * N64)
      with (4 * (max_threads * (h * 16 * N64))) by ring.
    lia. }
  destruct
    (get_workspace_size_static max_threads k m ltac:(lia) ltac:(lia)
       ltac:(lia) ltac:(lia) ltac:(lia) Hfit) as [Hsize _].
  rewrite Hsize. clear Hsize Hfit.
  unfold tmp_end, tmp_threads, tmp_v_scale, tmp_v, tmp_k, tmp_mask, workspace,
    rt_data, tmp_mask_size, head_tmp_k_size, head_tmp_v_size,
    head_tmp_v_scale_size, tmp_thread_size, head_size_pad16, head_size_pad64,
    N_pad16, N_pad64, ptr_add, spec_workspace_size, spec_mask_bytes,
    spec_kv_bytes, spec_v_scale_bytes, spec_softmax_scratch_bytes.
  simpl buf. simpl off. unfold INT_MAX in *.
  remember (pad_to (N_ k) 16) as N16 eqn:E1.
  remember (pad_to (N_ k) 64) as N64 eqn:E2.
  remember (pad_to (head_size_ k) 16) as H16 eqn:E3.
  remember (pad_to (head_size_ k) 64) as H64 eqn:E4.
  remember (batch_size_ k) as b eqn:E5.
  remember (head_num_ k) as h eqn:E6.
  clear E1 E2 E3 E4 E5 E6.
  assert (0 <= N64) by lia.
  assert (1 <= b * h) by nia.
  assert (1 <= N64 * H64) by nia.
  assert (0 <= b * N16 <= b * N64) by nia.
  assert (b * N64 <= b * h * (N64 * H64)) by nia.
  assert (0 <= H64 * N16 <= N64 * H64) by nia.
  assert (0 <= N64 * H16 <= N64 * H64) by nia.
  assert (N64 * H64 <= b * h * (N64 * H64)) by nia.
  assert (0 <= b * h * (H64 * N16) <= b * h * (N64 * H64))
    by (split; [nia | apply Z.mul_le_mono_nonneg_l; lia]).
  assert (0 <= b * h * (N64 * H16) <= b * h * (N64 * H64))
    by (split; [nia | apply Z.mul_le_mono_nonneg_l; lia]).
  assert (0 <= b * h * H16 <= b * h * H64)
    by (split; [nia | apply Z.mul_le_mono_nonneg_l; lia]).
  assert (b * h * H64 <= b * h * (N64 * H64)) by nia.
  assert (b * h <= b * h * (N64 * H64)) by nia.
  assert (0 <= h * 16 <= h * 16 * N64) by nia.
  assert (0 <= h * 16 * N64 <= max_threads * (h * 16 * N64)) by nia.
  rewrite (int_mul_exact b N16) by (unfold INT_MAX; lia).
  rewrite (int_mul_exact H64 N16) by (unfold INT_MAX; lia).
  rewrite (int_mul_exact N64 H16) by (unfold INT_MAX; lia).
  rewrite (int_mul_exact b h) by (unfold INT_MAX; lia).
  rewrite (int_mul_exact (b * h) (H64 * N16)) by (unfold INT_MAX; lia).
  rewrite (int_mul_exact (b * h) (N64 * H16)) by (unfold INT_MAX; lia).
  rewrite (int_mul_exact (b * h) H16) by (unfold INT_MAX; lia).
  rewrite (int_mul_exact h 16) by (unfold INT_MAX; lia).
  rewrite (int_mul_exact (h * 16) N64) by (unfold INT_MAX; lia).
  rewrite (int_mul_exact max_threads (h * 16 * N64)) by (unfold INT_MAX; lia).
  repeat split; try reflexivity; try lia.
Qed.

Lemma workspace_regions_within_size_witness :
  off (tmp_threads 2 4 64 20) + 4 * (8 * (4 * 16 * pad_to 20 64))
  <= get_workspace_size 8 kernel_static.
Proof.
  apply (workspace_regions_within_size 8 kernel_static mem_batch_2);
    try (simpl; lia); split; vm_compute; discriminate.
Defined.

(** ** Resolution of the dimensions *)

(** An [int32_t] held in a buffer is the value read through the pointer
    of its slot. *)
Lemma load_i32_holds (m : mem) (slot : io.t) (v : Z) :
  holds_i32 m slot v -> load_i32 m (rt_data slot) = v.
Proof.
  intros [Hv Hb]. unfold load_i32, load_u32, rt_data. cbn [buf off].
  rewrite (Hb 0), (Hb (0 + 1)), (Hb (0 + 2)), (Hb (0 + 3)) by lia.
  unfold byte_of, to_int, INT_MAX in *.
  change (2 ^ (8 * 0)) with 1. change (2 ^ (8 * (0 + 1))) with 256.
  change (2 ^ (8 * (0 + 2))) with 65536.
  change (2 ^ (8 * (0 + 3))) with 16777216.
  change (2 ^ 8) with 256. change (2 ^ 16) with 65536.
  change (2 ^ 24) with 16777216. change (2 ^ 31) with 2147483648 in *.
  change (2 ^ 32) with 4294967296.
  Z.div_mod_to_equations. lia.
Qed.

Lemma dimension_from_resolved (stored : Z) (slot : io.t) (m : mem) (v : Z) :
  dimension_from stored slot m v ->
  (if 0 <? stored then stored else load_i32 m (rt_data slot)) = v.
Proof.
  intros [[Hpos ->] | [Hdyn Hv]].
  - apply Z.ltb_lt in Hpos. rewrite Hpos. reflexivity.
  - destruct (0 <? stored) eqn:E; [apply Z.ltb_lt in E; lia|].
    apply load_i32_holds, Hv.
Qed.

(** C7.  Let each of the five dimensions be the one stored in the kernel
    object when that is positive, and otherwise the [int32_t] that the
    call holds, as four little-endian bytes in two's complement, in the
    buffer of the dimension's own slot (BATCH_SIZE, HEAD_NUM, M, HEAD_SIZE,
    N for batch, heads, seq_q, head_size, seq_k).  Then these are the
    values [execute] resolves, and it is with them, and with nothing else
    of the kernel object but its tile configuration, that it runs the
    layout transform, the mask preparation and the second loop nest: for a
    dimension stored positive the memory plays no part, for the others the
    stored value plays none. *)
Theorem execute_resolves_dimensions
    (ker_seq_cpy_k_ : tr_k.rt_data_t -> mem -> mem)
    (ker_seq_cpy_v_ : tr_v.rt_data_t -> mem -> mem)
    (ker_qxk_ : mm_qk.rt_data_t -> mem -> mem)
    (ker_axv_ : mm_av.rt_data_t -> mem -> mem)
    (max_threads : Z) (omp_get_thread_num : Z -> Z -> Z)
    (k : dynamic_quant_mha_k_t) (m : mem) (b h hs M N : Z) :
  dimension_from (batch_size_ k) io.BATCH_SIZE m b ->
  dimension_from (head_num_ k) io.HEAD_NUM m h ->
  dimension_from (M_ k) io.M m M ->
  dimension_from (head_size_ k) io.HEAD_SIZE m hs ->
  dimension_from (N_ k) io.N m N ->
  let m1 := layout_transform ker_seq_cpy_k_ ker_seq_cpy_v_ b h hs N m in
  let m2 := fst (prepare_mask b N m1) in
  let tmp_mask' := snd (prepare_mask b N m1) in
  (resolved_batch_size k m, resolved_head_num k m, resolved_M k m,
   resolved_head_size k m, resolved_N k m) = (b, h, M, hs, N)
  /\ execute ker_seq_cpy_k_ ker_seq_cpy_v_ ker_qxk_ ker_axv_ max_threads
       omp_get_thread_num k m
     = (st ← fused_attention ker_qxk_ ker_axv_ max_threads omp_get_thread_num
               (amx_full_tile_param_ k) b h hs M N tmp_mask' m2;
        Some (true, st)).
Proof.
  intros Hb Hh HM Hhs HN m1 m2 tmp_mask'.
  apply dimension_from_resolved in Hb, Hh, HM, Hhs, HN.
  unfold execute, execute_body, resolved_batch_size, resolved_head_num,
    resolved_M, resolved_head_size, resolved_N.
  rewrite Hb, Hh, HM, Hhs, HN. split; [reflexivity|].
  unfold m2, tmp_mask', m1.
  destruct (prepare_mask b N _) as [m' p]. reflexivity.
Qed.

Lemma execute_resolves_dimensions_witness :
  (resolved_batch_size kernel_all_dynamic mem_dims_wide,
   resolved_head_num kernel_all_dynamic mem_dims_wide,
   resolved_M kernel_all_dynamic mem_dims_wide,
   resolved_head_size kernel_all_dynamic mem_dims_wide,
   resolved_N kernel_all_dynamic mem_dims_wide) = (2, 4, 16, 64, 300)
  /\ resolved_N kernel_static mem_dims_wide = 20.
Proof.
  assert (Hdyn : forall slot v, - 2 ^ 31 <= v <= INT_MAX ->
            (forall i, mem_dims_wide slot i = byte_of v i) ->
            dimension_from 0 slot mem_dims_wide v).
  { intros slot v Hv Hm. right. split; [lia|]. split; [exact Hv|].
    intros i _. apply Hm. }
  assert (Hr : forall v, 0 <= v <= 300 -> - 2 ^ 31 <= v <= INT_MAX)
    by (unfold INT_MAX; lia).
  split.
  - apply (execute_resolves_dimensions (fun _ m => m) (fun _ m => m)
             (fun _ m => m) (fun _ m => m) 1 (fun _ _ => 0)
             kernel_all_dynamic mem_dims_wide 2 4 64 16 300);
      apply Hdyn; try (apply Hr; lia); reflexivity.
  - assert (Hsta : forall stored slot, 0 < stored ->
              dimension_from stored slot mem_dims_wide stored)
      by (intros stored slot Hp; left; split; [exact Hp|reflexivity]).
    pose proof (execute_resolves_dimensions (fun _ m => m) (fun _ m => m)
                  (fun _ m => m) (fun _ m => m) 1 (fun _ _ => 0)
                  kernel_static mem_dims_wide 2 4 64 16 20
                  (Hsta 2 _ ltac:(lia)) (Hsta 4 _ ltac:(lia))
                  (Hsta 16 _ ltac:(lia)) (Hsta 64 _ ltac:(lia))
                  (Hsta 20 _ ltac:(lia))) as [Hres _].
    exact (f_equal snd Hres).
Defined.

(** The values read from memory, one of them of two bytes, and a negative
    one. *)
Example resolved_all_dynamic :
  (resolved_batch_size kernel_all_dynamic mem_dims,
   resolved_head_num kernel_all_dynamic mem_dims,
   resolved_M kernel_all_dynamic mem_dims,
   resolved_head_size kernel_all_dynamic mem_dims,
   resolved_N kernel_all_dynamic mem_dims) = (2, 4, 16, 64, 20)
  /\ resolved_N kernel_all_dynamic mem_dims_wide = 300
  /\ resolved_batch_size kernel_dynamic_batch mem_batch_negative = -1.
Proof. repeat split; vm_compute; reflexivity. Qed.

(** A kernel object with every dimension dynamic, run on a memory that
    holds the dimensions of [kernel_static], makes the calls of
    [kernel_static], with the same parameter blocks, and leaves the same
    bytes in Output. *)
Example execute_dynamic_as_static :
  (fun r => (st_calls (snd r), st_mem (snd r) io.DST 8191,
             st_mem (snd r) io.DST 8192))
    <$> execute marking_trans_k marking_trans_v marking_qxk marking_axv 1
          (fun _ _ => 0) kernel_all_dynamic mem_dims
  = (fun r => (st_calls (snd r), st_mem (snd r) io.DST 8191,
               st_mem (snd r) io.DST 8192))
      <$> execute marking_trans_k marking_trans_v marking_qxk marking_axv 1
            (fun _ _ => 0) kernel_static mem_dims
  /\ (fun r => (length (st_calls (snd r)), st_mem (snd r) io.DST 8191,
                st_mem (snd r) io.DST 8192))
       <$> execute marking_trans_k marking_trans_v marking_qxk marking_axv 1
             (fun _ _ => 0) kernel_all_dynamic mem_dims
     = Some (5%nat, 9, 0).
Proof. split; vm_compute; reflexivity. Qed.

(** ** Memory operations *)

Lemma in_range_spec p len b o :
  in_range p len b o = true <-> b = buf p /\ off p <= o < off p + len.
Proof.
  unfold in_range. rewrite !andb_true_iff, bool_decide_eq_true.
  rewrite Z.leb_le, Z.ltb_lt. tauto.
Qed.

Lemma in_range_other_buffer p len b o : b <> buf p -> in_range p len b o = false.
Proof.
  intros Hb. destruct (in_range p len b o) eqn:E; [|reflexivity].
  apply in_range_spec in E. tauto.
Qed.

Lemma in_range_outside p len b o :
  o < off p \/ off p + len <= o -> in_range p len b o = false.
Proof.
  intros Ho. destruct (in_range p len b o) eqn:E; [|reflexivity].
  apply in_range_spec in E. lia.
Qed.

Lemma in_range_inside p len o :
  off p <= o < off p + len -> in_range p len (buf p) o = true.
Proof. intros Ho. apply in_range_spec. split; [reflexivity|exact Ho]. Qed.

Lemma in_range_true p len b o :
  b = buf p -> off p <= o < off p + len -> in_range p len b o = true.
Proof. intros Hb Ho. apply in_range_spec. split; assumption. Qed.

Lemma byte_of_zero i : byte_of 0 i = 0.
Proof. unfold byte_of. rewrite Zdiv_0_l. reflexivity. Qed.

Lemma fill_n_other_buffer esize p n v m b o :
  b <> buf p -> fill_n esize p n v m b o = m b o.
Proof. intros Hb. unfold fill_n. rewrite in_range_other_buffer by exact Hb. reflexivity. Qed.

Lemma copy_n_other_buffer esize src n dst' m b o :
  b <> buf dst' -> copy_n esize src n dst' m b o = m b o.
Proof. intros Hb. unfold copy_n. rewrite in_range_other_buffer by exact Hb. reflexivity. Qed.

Lemma pattern32_neg_1000f : pattern32 neg_1000f = neg_1000f.
Proof. reflexivity. Qed.

(** Reading a 4-byte element of a buffer on which 4-byte elements were
    filled or copied, the two aligned with each other. *)
Lemma load_fill4 B a n v m e :
  (e - a) mod 4 = 0 ->
  load_u32 (fill_n 4 (Ptr B a) n v m) (Ptr B e)
  = if (a <=? e) && (e <? a + 4 * n) then pattern32 v else load_u32 m (Ptr B e).
Proof.
  intros Hal. unfold load_u32, fill_n, pattern32. simpl buf. simpl off.
  destruct ((a <=? e) && (e <? a + 4 * n)) eqn:E.
  - apply andb_true_iff in E as [E1 E2]. apply Z.leb_le in E1. apply Z.ltb_lt in E2.
    assert (Hin : forall i, 0 <= i < 4 ->
              in_range (Ptr B a) (4 * n) B (e + i) = true).
    { intros i Hi. apply (in_range_inside (Ptr B a)). simpl.
      Z.div_mod_to_equations. lia. }
    pose proof (Hin 0 ltac:(lia)) as Hin0. rewrite Z.add_0_r in Hin0.
    rewrite Hin0, !Hin by lia.
    rewrite Hal.
    replace ((e + 1 - a) mod 4) with 1 by (Z.div_mod_to_equations; lia).
    replace ((e + 2 - a) mod 4) with 2 by (Z.div_mod_to_equations; lia).
    replace ((e + 3 - a) mod 4) with 3 by (Z.div_mod_to_equations; lia).
    reflexivity.
  - assert (Hout : forall i, 0 <= i < 4 ->
              in_range (Ptr B a) (4 * n) B (e + i) = false).
    { intros i Hi. apply in_range_outside. simpl.
      apply andb_false_iff in E as [E|E];
        [apply Z.leb_gt in E | apply Z.ltb_ge in E];
        Z.div_mod_to_equations; lia. }
    pose proof (Hout 0 ltac:(lia)) as Hout0. rewrite Z.add_0_r in Hout0.
    rewrite Hout0, !Hout by lia. reflexivity.
Qed.

Lemma load_copy4 B a n s m e :
  (e - a) mod 4 = 0 ->
  load_u32 (copy_n 4 s n (Ptr B a) m) (Ptr B e)
  = if (a <=? e) && (e <? a + 4 * n)
    then load_u32 m (Ptr (buf s) (off s + (e - a)))
    else load_u32 m (Ptr B e).
Proof.
  intros Hal. unfold load_u32, copy_n. simpl buf. simpl off.
  destruct ((a <=? e) && (e <? a + 4 * n)) eqn:E.
  - apply andb_true_iff in E as [E1 E2]. apply Z.leb_le in E1. apply Z.ltb_lt in E2.
    assert (Hin : forall i, 0 <= i < 4 ->
              in_range (Ptr B a) (4 * n) B (e + i) = true).
    { intros i Hi. apply (in_range_inside (Ptr B a)). simpl.
      Z.div_mod_to_equations. lia. }
    pose proof (Hin 0 ltac:(lia)) as Hin0. rewrite Z.add_0_r in Hin0.
    rewrite Hin0, !Hin by lia.
    repeat match goal with
    | |- context [m (buf s) (off s + (e + ?i - a))] =>
        replace (off s + (e + i - a)) with (off s + (e - a) + i) by lia
    end.
    reflexivity.
  - assert (Hout : forall i, 0 <= i < 4 ->
              in_range (Ptr B a) (4 * n) B (e + i) = false).
    { intros i Hi. apply in_range_outside. simpl.
      apply andb_false_iff in E as [E|E];
        [apply Z.leb_gt in E | apply Z.ltb_ge in E];
        Z.div_mod_to_equations; lia. }
    pose proof (Hout 0 ltac:(lia)) as Hout0. rewrite Z.add_0_r in Hout0.
    rewrite Hout0, !Hout by lia. reflexivity.
Qed.

(** ** Loops *)

(** Induction on a counted loop: [Inv t] after [t] iterations. *)
Lemma for_iter_invariant {S : Type} (Inv : nat -> S -> Prop) n i step body (s : S) :
  Inv O s ->
  (forall t s', (t < n)%nat -> Inv t s' ->
      Inv (Datatypes.S t) (body (i + step * Z.of_nat t) s')) ->
  Inv n (for_iter n i step body s).
Proof.
  revert Inv i s. induction n as [|n IH]; intros Inv i s H0 Hstep; simpl.
  - exact H0.
  - apply (IH (fun t => Inv (Datatypes.S t))).
    + specialize (Hstep O s ltac:(lia) H0).
      replace (i + step * Z.of_nat 0) with i in Hstep by lia. exact Hstep.
    + intros t s' Ht Hinv.
      specialize (Hstep (Datatypes.S t) s' ltac:(lia) Hinv).
      replace (i + step + step * Z.of_nat t)
        with (i + step * Z.of_nat (Datatypes.S t)) by lia.
      exact Hstep.
Qed.

Lemma trip_count_unit hi : trip_count 0 hi 1 = Z.to_nat hi.
Proof. unfold trip_count. f_equal. rewrite Z.div_1_r. lia. Qed.

(** ** Preparation of the mask *)

Lemma prepare_mask_rows batch_size N m :
  N <> pad_to N 16 ->
  prepare_mask batch_size N m
  = (for_iter (Z.to_nat batch_size) 0 1 (mask_row N) m, tmp_mask).
Proof.
  intros Hne. unfold prepare_mask, N_pad16.
  destruct (N =? pad_to N 16) eqn:E; [apply Z.eqb_eq in E; contradiction|].
  simpl. unfold for_loop. rewrite trip_count_unit. reflexivity.
Qed.

Lemma mask_rows_contents N m rows :
  N <> pad_to N 16 ->
  0 <= N -> Z.of_nat rows * pad_to N 16 <= INT_MAX ->
  let m' := for_iter rows 0 1 (mask_row N) m in
  (forall b o, b <> io.WORKSPACE -> m' b o = m b o)
  /\ forall r c, 0 <= r < Z.of_nat rows ->
       (0 <= c < N ->
        load_u32 m' (tmp_mask +₄ (r * pad_to N 16) +₄ c)
        = load_u32 m (mask +₄ (r * N) +₄ c))
       /\ (N <= c < pad_to N 16 ->
           load_u32 m' (tmp_mask +₄ (r * pad_to N 16) +₄ c) = neg_1000f).
Proof.
  intros Hne HN Hfit. cbv zeta.
  apply (for_iter_invariant (fun t m' =>
    (forall b o, b <> io.WORKSPACE -> m' b o = m b o)
    /\ forall r c, 0 <= r < Z.of_nat t ->
         (0 <= c < N ->
          load_u32 m' (tmp_mask +₄ (r * pad_to N 16) +₄ c)
          = load_u32 m (mask +₄ (r * N) +₄ c))
         /\ (N <= c < pad_to N 16 ->
             load_u32 m' (tmp_mask +₄ (r * pad_to N 16) +₄ c) = neg_1000f))).
  - split; [reflexivity|]. intros r c Hr. lia.
  - intros t m' Ht [Hframe Hrows].
    pose proof (pad_to_spec N 16 ltac:(lia)) as [HP _].
    assert (Hmask : forall o, m' io.BINARY_ADD o = m io.BINARY_ADD o)
      by (intros o; apply Hframe; discriminate).
    replace (0 + 1 * Z.of_nat t) with (Z.of_nat t) by lia.
    (* the [int] expressions of this iteration are exact *)
    assert (Hrow : mask_row N (Z.of_nat t) m'
      = fill_n 4 (tmp_mask +₄ (Z.of_nat t * pad_to N 16) +₄ N)
          (pad_to N 16 - N) neg_1000f
          (copy_n 4 (mask +₄ (Z.of_nat t * N)) N
             (tmp_mask +₄ (Z.of_nat t * pad_to N 16)) m')).
    { unfold mask_row, N_pad16.
      rewrite (int_mul_exact (Z.of_nat t) (pad_to N 16)),
        (int_mul_exact (Z.of_nat t) N), (int_sub_exact (pad_to N 16) N)
        by (unfold INT_MAX in *; nia).
      reflexivity. }
    rewrite Hrow. clear Hrow.
    split.
    + intros b o Hb.
      rewrite fill_n_other_buffer, copy_n_other_buffer by exact Hb.
      apply Hframe, Hb.
    + intros r c Hr.
      unfold tmp_mask, workspace, mask, rt_data, ptr_add.
      simpl buf. simpl off.
      rewrite load_fill4 by (Z.div_mod_to_equations; lia).
      rewrite load_copy4 by (Z.div_mod_to_equations; lia).
      simpl buf. simpl off.
      set (P := pad_to N 16) in *.
      destruct (decide (r = Z.of_nat t)) as [->|Hrt].
      * (* the row written by this iteration *)
        split; intros Hc.
        -- rewrite (proj2 (andb_false_iff _ _)) by (left; apply Z.leb_gt; lia).
           rewrite (proj2 (andb_true_iff _ _))
             by (split; [apply Z.leb_le | apply Z.ltb_lt]; lia).
           unfold load_u32. simpl buf. simpl off. rewrite !Hmask.
           repeat match goal with
           | |- context [m io.BINARY_ADD ?x] =>
               lazymatch x with
               | 0 + 4 * (Z.of_nat t * N) + 4 * c + _ => fail
               | 0 + 4 * (Z.of_nat t * N) + 4 * c => fail
               | _ => ring_simplify x
               end
           end.
           f_equal; [f_equal; [f_equal|]|]; f_equal; try (f_equal; ring); ring.
        -- rewrite (proj2 (andb_true_iff _ _))
             by (split; [apply Z.leb_le | apply Z.ltb_lt]; lia).
           reflexivity.
      * (* a row written before *)
        assert (Hr' : 0 <= r < Z.of_nat t) by lia.
        destruct (Hrows r c Hr') as [Hcopy Hfill].
        unfold tmp_mask, workspace, mask, rt_data, ptr_add in Hcopy, Hfill.
        simpl buf in Hcopy, Hfill. simpl off in Hcopy, Hfill.
        assert (r * P + P <= Z.of_nat t * P) by nia.
        split; intros Hc.
        -- rewrite (proj2 (andb_false_iff _ _))
             by (left; apply Z.leb_gt; lia).
           rewrite (proj2 (andb_false_iff _ _))
             by (left; apply Z.leb_gt; lia).
           apply Hcopy, Hc.
        -- rewrite (proj2 (andb_false_iff _ _))
             by (left; apply Z.leb_gt; lia).
           rewrite (proj2 (andb_false_iff _ _))
             by (left; apply Z.leb_gt; lia).
           apply Hfill, Hc.
Qed.

(** C5.  When seq_k is not a multiple of 16, the mask preparation leaves in
    row [ibs] of the padded mask at the start of the workspace the [N]
    values of row [ibs] of the caller's mask followed by
    [pad(N,16) - N] entries that hold [-1000.f], for every batch index; the
    variable [tmp_mask] keeps pointing to the workspace.  When seq_k is a
    multiple of 16, the memory is left as it is, [tmp_mask] becomes the
    caller's mask pointer, and the bias pointer handed to the QK
    micro-kernel is row [ibs] of the caller's mask.  (The padded mask has
    at most [INT_MAX] entries.) *)
Theorem prepare_mask_contents (batch_size N : Z) (m : mem) :
  0 <= N -> batch_size * pad_to N 16 <= INT_MAX ->
  (N <> pad_to N 16 ->
     snd (prepare_mask batch_size N m) = tmp_mask
     /\ forall ibs c, 0 <= ibs < batch_size ->
          (0 <= c < N ->
           load_u32 (fst (prepare_mask batch_size N m))
                    (tmp_mask +₄ (ibs * pad_to N 16) +₄ c)
           = load_u32 m (mask +₄ (ibs * N) +₄ c))
          /\ (N <= c < pad_to N 16 ->
              load_u32 (fst (prepare_mask batch_size N m))
                       (tmp_mask +₄ (ibs * pad_to N 16) +₄ c)
              = neg_1000f))
  /\ (N = pad_to N 16 ->
        prepare_mask batch_size N m = (m, mask)
        /\ forall omp_get_thread_num head_num head_size M ibs i,
             0 <= ibs < batch_size ->
             mm_qk.src_bias
               (mm_qk_data omp_get_thread_num batch_size head_num head_size M N
                           (snd (prepare_mask batch_size N m)) ibs i)
             = mask +₄ (ibs * N)).
Proof.
  intros HN Hfit. split.
  - intros Hne. rewrite prepare_mask_rows by exact Hne. simpl fst. simpl snd.
    split; [reflexivity|].
    intros ibs c Hibs.
    apply (mask_rows_contents N m (Z.to_nat batch_size) Hne HN); [|lia].
    destruct (Z.le_gt_cases 0 batch_size).
    + rewrite Z2Nat.id by assumption. exact Hfit.
    + rewrite Z2Nat.nonpos by lia. unfold INT_MAX. lia.
  - intros He. unfold prepare_mask, N_pad16.
    rewrite <- He, Z.eqb_refl. simpl. split; [reflexivity|].
    intros thr hn hs M ibs i Hibs. unfold N_pad16. rewrite <- He.
    rewrite <- He in Hfit.
    rewrite int_mul_exact by (unfold INT_MAX in *; nia). reflexivity.
Qed.

Lemma prepare_mask_contents_witness :
  load_u32 (fst (prepare_mask 2 20 mem_mask_2x20))
           (tmp_mask +₄ (1 * pad_to 20 16) +₄ 7)
  = load_u32 mem_mask_2x20 (mask +₄ (1 * 20) +₄ 7)
  /\ load_u32 (fst (prepare_mask 2 20 mem_mask_2x20))
              (tmp_mask +₄ (1 * pad_to 20 16) +₄ 25)
     = neg_1000f
  /\ prepare_mask 2 32 mem_mask_2x20 = (mem_mask_2x20, mask).
Proof.
  assert (H20 : 0 <= 20) by lia.
  assert (Hf20 : 2 * pad_to 20 16 <= INT_MAX) by (vm_compute; discriminate).
  assert (H32 : 0 <= 32) by lia.
  assert (Hf32 : 2 * pad_to 32 16 <= INT_MAX) by (vm_compute; discriminate).
  destruct (prepare_mask_contents 2 20 mem_mask_2x20 H20 Hf20) as [Hpad _].
  assert (Hne : 20 <> pad_to 20 16) by (intros H; vm_compute in H; discriminate H).
  destruct (Hpad Hne) as [_ Hrows].
  assert (Hibs : 0 <= 1 < 2) by lia.
  destruct (Hrows 1 7 Hibs) as [Hcopy _].
  destruct (Hrows 1 25 Hibs) as [_ Hfill].
  destruct (prepare_mask_contents 2 32 mem_mask_2x20 H32 Hf32) as [_ Halias].
  assert (He : 32 = pad_to 32 16) by reflexivity.
  destruct (Halias He) as [Hsame _].
  split; [apply Hcopy; lia|].
  split; [apply Hfill; change (pad_to 20 16) with 32; lia|].
  exact Hsame.
Defined.

Example prepare_mask_row_values :
  load_u32 (fst (prepare_mask 2 20 mem_mask_2x20))
           (tmp_mask +₄ (1 * pad_to 20 16) +₄ 7) = 28
  /\ load_u32 (fst (prepare_mask 2 20 mem_mask_2x20))
              (tmp_mask +₄ (1 * pad_to 20 16) +₄ 25) = 0xC47A0000.
Proof. split; vm_compute; reflexivity. Qed.

(** ** One iteration of the second loop nest *)

(** What one iteration of the second loop nest does, when the flag of
    its thread can be read. *)
Lemma attention_block_inv ker_qxk_ ker_axv_ omp_get_thread_num cfg
    batch_size head_num head_size M N tmp_mask' ibs i st st' :
  attention_block ker_qxk_ ker_axv_ omp_get_thread_num cfg batch_size head_num
    head_size M N tmp_mask' ibs i st = Some st' ->
  let tid := omp_get_thread_num ibs i in
  let qk := mm_qk_data omp_get_thread_num batch_size head_num head_size M N
              tmp_mask' ibs i in
  let av := mm_av_data omp_get_thread_num batch_size head_num head_size M N
              ibs i in
  exists flag : bool,
    0 <= tid
    /\ st_amx_init st !! Z.to_nat tid = Some flag
    /\ st_mem st' = ker_axv_ av (ker_qxk_ qk (st_mem st))
    /\ st_amx_init st'
       = (if flag then st_amx_init st
          else <[Z.to_nat tid := true]> (st_amx_init st))
    /\ st_calls st'
       = st_calls st ++ (if flag then [] else [call_amx_cfg tid cfg])
         ++ [call_qxk tid qk; call_axv tid av].
Proof.
  intros H tid qk av. unfold attention_block in H. fold tid qk av in H.
  destruct (0 <=? tid) eqn:Et; [|discriminate]. apply Z.leb_le in Et.
  destruct (st_amx_init st !! Z.to_nat tid) as [flag|] eqn:Ef; [|discriminate].
  cbn [mbind option_bind] in H. injection H as <-.
  exists flag. split; [exact Et|]. split; [reflexivity|].
  destruct flag; cbn [negb st_mem st_amx_init st_calls].
  - repeat split; reflexivity.
  - rewrite <- app_assoc. repeat split; reflexivity.
Qed.

Lemma attention_block_defined ker_qxk_ ker_axv_ omp_get_thread_num cfg
    batch_size head_num head_size M N tmp_mask' ibs i st :
  0 <= omp_get_thread_num ibs i ->
  (Z.to_nat (omp_get_thread_num ibs i) < length (st_amx_init st))%nat ->
  is_Some (attention_block ker_qxk_ ker_axv_ omp_get_thread_num cfg batch_size
             head_num head_size M N tmp_mask' ibs i st).
Proof.
  intros Ht Hlen. unfold attention_block.
  apply Z.leb_le in Ht. rewrite Ht.
  destruct (lookup_lt_is_Some_2 _ _ Hlen) as [flag Ef]. rewrite Ef.
  cbn [mbind option_bind]. eauto.
Qed.

(** ** Zero padding of the Value blocks *)

Lemma head_index_bounds b h ibs ihn :
  0 <= ibs < b -> 0 <= ihn < h ->
  0 <= ibs * h + ihn /\ ibs * h + ihn + 1 <= b * h.
Proof. intros Hi Hh. split; nia. Qed.

Lemma region_step g S x bh :
  0 <= S -> 0 <= x <= S -> 0 <= g -> g + 1 <= bh -> g * S + x <= bh * S.
Proof. intros HS Hx Hg Hbh. nia. Qed.

(** The loop variable of [for (j = 0; j < n; j += 16)] in iteration [t]. *)
Lemma trip_count_16 n t :
  (t < trip_count 0 n 16)%nat ->
  0 <= 16 * Z.of_nat t < n /\ 16 * Z.of_nat t + 16 <= pad_to n 16.
Proof.
  unfold trip_count, pad_to. intros Ht.
  replace (n - 0 + 16 - 1) with (n + 16 - 1) in Ht by lia.
  assert (Hq : Z.of_nat t + 1 <= (n + 16 - 1) / 16) by lia.
  split; [|lia].
  split; [lia|]. Z.div_mod_to_equations. lia.
Qed.

Lemma trip_count_16_reached n j :
  0 <= j < n -> j mod 16 = 0 ->
  exists t, (t < trip_count 0 n 16)%nat /\ j = 0 + 16 * Z.of_nat t.
Proof.
  intros Hj Hmod. exists (Z.to_nat (j / 16)). unfold trip_count. split.
  - apply Z2Nat.inj_lt; Z.div_mod_to_equations; lia.
  - rewrite Z2Nat.id by (Z.div_mod_to_equations; lia).
    Z.div_mod_to_equations. lia.
Qed.

Lemma trip_count_unit_index hi t :
  (t < trip_count 0 hi 1)%nat -> 0 <= 0 + 1 * Z.of_nat t < hi.
Proof. rewrite trip_count_unit. lia. Qed.

Lemma trip_count_unit_reached hi i :
  0 <= i < hi ->
  exists t, (t < trip_count 0 hi 1)%nat /\ i = 0 + 1 * Z.of_nat t.
Proof.
  intros Hi. exists (Z.to_nat i). rewrite trip_count_unit. split; lia.
Qed.

(** A loop one iteration of which establishes [G], the others keeping it. *)
Lemma for_iter_establishes {S : Type} (G : S -> Prop) n i step body (s : S) t0 :
  (t0 < n)%nat ->
  (forall s', G (body (i + step * Z.of_nat t0) s')) ->
  (forall t s', (t < n)%nat -> G s' -> G (body (i + step * Z.of_nat t) s')) ->
  G (for_iter n i step body s).
Proof.
  intros Ht0 Hest Hkeep.
  enough (H : (t0 < n)%nat -> G (for_iter n i step body s)) by (apply H, Ht0).
  apply (for_iter_invariant (fun t s' => (t0 < t)%nat -> G s')).
  - lia.
  - intros t s' Ht Hinv Hlt.
    destruct (decide (t = t0)) as [->|Hne]; [apply Hest|].
    apply Hkeep; [exact Ht|]. apply Hinv. lia.
Qed.

Lemma for_iter_keeps {S : Type} (G : S -> Prop) n i step body (s : S) :
  G s ->
  (forall t s', (t < n)%nat -> G s' -> G (body (i + step * Z.of_nat t) s')) ->
  G (for_iter n i step body s).
Proof.
  intros H0 Hkeep. apply (for_iter_invariant (fun _ => G)); [exact H0|].
  exact Hkeep.
Qed.

Section zero_padding.
Context (ker_seq_cpy_k_ : tr_k.rt_data_t -> mem -> mem)
        (ker_seq_cpy_v_ : tr_v.rt_data_t -> mem -> mem).
Variables batch_size head_num head_size N : Z.

(** Footprints of the two transposing micro-kernels: the Key kernel
    writes 16 rows of [pad(N,64)] bytes at [dst] ([N] its column count, 64
    the [pad_n] it is created with at line 118); the Value kernel writes
    [16 * pad(M,4)] bytes at [dst] ([M] its row count) and 16 scales at
    [dst_scale]. *)
Hypothesis ker_seq_cpy_k_footprint : forall rt m b o,
  in_range (tr_k.dst rt) (16 * pad_to (tr_k.N rt) 64) b o = false ->
  ker_seq_cpy_k_ rt m b o = m b o.
Hypothesis ker_seq_cpy_v_footprint : forall rt m b o,
  in_range (tr_v.dst rt) (16 * pad_to (tr_v.M rt) 4) b o = false ->
  in_range (tr_v.dst_scale rt) (4 * 16) b o = false ->
  ker_seq_cpy_v_ rt m b o = m b o.

(** seq_k is positive and the Key and Value buffers have at most
    [INT_MAX] bytes. *)
Hypothesis N_pos : 0 < N.
Hypothesis KV_fits :
  batch_size * head_num * (pad_to N 64 * pad_to head_size 64) <= INT_MAX.

Let P4 := pad_to N 4.
Let P16 := pad_to N 16.
Let P64 := pad_to N 64.
Let H16 := pad_to head_size 16.
Let H64 := pad_to head_size 64.

Lemma pads_ordered : 0 <= P4 <= P64 /\ 1 <= P16 <= P64.
Proof.
  unfold P4, P16, P64.
  pose proof (pad_to_nonneg N 4 ltac:(lia) ltac:(lia)).
  destruct (pad_to_spec N 16 ltac:(lia)) as [? _].
  pose proof (pad_to_le_64 N 4 ltac:(lia) eq_refl).
  pose proof (pad_to_le_64 N 16 ltac:(lia) eq_refl). lia.
Qed.

Lemma head_pads_ordered : 0 < head_size -> 16 <= H16 <= H64.
Proof.
  intros Hhs. unfold H16, H64.
  destruct (pad_to_spec head_size 16 ltac:(lia)) as [? ?].
  pose proof (pad_to_le_64 head_size 16 ltac:(lia) eq_refl).
  split; [|assumption]. Z.div_mod_to_equations. lia.
Qed.

(** With positive dimensions the [int] sizes of lines 161-167 and the
    region pointers of lines 171-173 are the exact ones. *)
Lemma layout_exact :
  0 < batch_size -> 0 < head_num -> 0 < head_size ->
  size_trq10n_v_block N = 16 * P4
  /\ size_pad0_v_block N = 16 * P64 - 16 * P4
  /\ head_tmp_k_size head_size N = H64 * P16
  /\ head_tmp_v_size head_size N = P64 * H16
  /\ tmp_k batch_size N = Ptr io.WORKSPACE (4 * (batch_size * P16))
  /\ tmp_v batch_size head_num head_size N
     = Ptr io.WORKSPACE
           (4 * (batch_size * P16) + batch_size * head_num * (H64 * P16))
  /\ tmp_v_scale batch_size head_num head_size N
     = Ptr io.WORKSPACE
           (4 * (batch_size * P16) + batch_size * head_num * (H64 * P16)
            + batch_size * head_num * (P64 * H16)).
Proof.
  intros Hb Hh Hhs.
  destruct pads_ordered as [HP4 HP16]. destruct (head_pads_ordered Hhs) as [HH16 HH64].
  unfold size_pad0_v_block, size_trq10n_v_block, tmp_v_scale, tmp_v, tmp_k,
    tmp_mask, workspace, rt_data, ptr_add, tmp_mask_size, head_tmp_k_size,
    head_tmp_v_size, head_size_pad16, head_size_pad64, N_pad4, N_pad16, N_pad64.
  simpl buf. simpl off.
  unfold INT_MAX in KV_fits.
  fold P4 P16 P64 H16 H64. fold P64 H64 in KV_fits.
  clearbody P4 P16 P64 H16 H64.
  assert (1 <= batch_size * head_num) by nia.
  assert (16 * P64 <= P64 * H64) by nia.
  assert (P64 * H64 <= batch_size * head_num * (P64 * H64)) by nia.
  assert (0 <= batch_size * P16 <= batch_size * P64) by nia.
  assert (batch_size * P64 <= batch_size * head_num * (P64 * H64)) by nia.
  assert (0 <= H64 * P16 <= P64 * H64) by nia.
  assert (0 <= P64 * H16 <= P64 * H64) by nia.
  assert (batch_size * head_num <= batch_size * head_num * (P64 * H64)) by nia.
  assert (0 <= batch_size * head_num * (H64 * P16)
          <= batch_size * head_num * (P64 * H64))
    by (split; [nia | apply Z.mul_le_mono_nonneg_l; lia]).
  assert (0 <= batch_size * head_num * (P64 * H16)
          <= batch_size * head_num * (P64 * H64))
    by (split; [nia | apply Z.mul_le_mono_nonneg_l; lia]).
  rewrite (int_mul_exact 16 P4) by (unfold INT_MAX; lia).
  rewrite (int_mul_exact P64 16) by (unfold INT_MAX; lia).
  rewrite (int_sub_exact (P64 * 16) (16 * P4)) by (unfold INT_MAX; lia).
  rewrite (int_mul_exact batch_size P16) by (unfold INT_MAX; lia).
  rewrite (int_mul_exact H64 P16) by (unfold INT_MAX; lia).
  rewrite (int_mul_exact P64 H16) by (unfold INT_MAX; lia).
  rewrite (int_mul_exact batch_size head_num) by (unfold INT_MAX; lia).
  rewrite (int_mul_exact (batch_size * head_num) (H64 * P16))
    by (unfold INT_MAX; lia).
  rewrite (int_mul_exact (batch_size * head_num) (P64 * H16))
    by (unfold INT_MAX; lia).
  repeat split; try reflexivity; f_equal; lia.
Qed.

(** The index of a (batch, head) pair and its products with the sizes of
    the per-head buffers. *)
Lemma head_index_exact ibs ihn :
  0 < head_size -> 0 <= ibs < batch_size -> 0 <= ihn < head_num ->
  ibs ⊠ head_num ⊞ ihn = ibs * head_num + ihn
  /\ (ibs * head_num + ihn) ⊠ (H64 * P16) = (ibs * head_num + ihn) * (H64 * P16)
  /\ (ibs * head_num + ihn) ⊠ (P64 * H16) = (ibs * head_num + ihn) * (P64 * H16)
  /\ (ibs * head_num + ihn) ⊠ H16 = (ibs * head_num + ihn) * H16.
Proof.
  intros Hhs Hi Hh.
  destruct (head_index_bounds batch_size head_num ibs ihn Hi Hh) as [Hg0 Hg1].
  destruct pads_ordered as [HP4 HP16]. destruct (head_pads_ordered Hhs) as [HH16 HH64].
  unfold INT_MAX in KV_fits. fold P64 H64 in KV_fits.
  clearbody P4 P16 P64 H16 H64.
  assert (0 <= ibs * head_num <= ibs * head_num + ihn) by nia.
  assert (1 <= P64 * H64) by nia.
  assert (batch_size * head_num <= batch_size * head_num * (P64 * H64)) by nia.
  assert (0 <= H64 * P16 <= P64 * H64) by nia.
  assert (0 <= P64 * H16 <= P64 * H64) by nia.
  assert (0 <= H16 <= P64 * H64) by nia.
  set (g := ibs * head_num + ihn) in *.
  assert (Hmono : forall S, 0 <= S <= P64 * H64 ->
            0 <= g * S <= batch_size * head_num * (P64 * H64)).
  { intros S HS. split; [nia|].
    transitivity (batch_size * head_num * S).
    - apply Z.mul_le_mono_nonneg_r; lia.
    - apply Z.mul_le_mono_nonneg_l; lia. }
  pose proof (Hmono (H64 * P16) ltac:(lia)).
  pose proof (Hmono (P64 * H16) ltac:(lia)).
  pose proof (Hmono H16 ltac:(lia)).
  rewrite (int_mul_exact ibs head_num) by (unfold INT_MAX; lia).
  rewrite (int_add_exact (ibs * head_num) ihn) by (unfold INT_MAX; lia).
  fold g.
  rewrite (int_mul_exact g (H64 * P16)), (int_mul_exact g (P64 * H16)),
    (int_mul_exact g H16) by (unfold INT_MAX; lia).
  repeat split; reflexivity.
Qed.

Lemma block_tmp_v_off ibs ihn j :
  valid_block batch_size head_num head_size ibs ihn j ->
  block_tmp_v batch_size head_num head_size N ibs ihn j
  = Ptr io.WORKSPACE
        (4 * (batch_size * P16) + batch_size * head_num * (H64 * P16)
         + ((ibs * head_num + ihn) * H16 + j) * P64).
Proof.
  intros (Hi & Hh & Hj & Hmod).
  assert (Hb : 0 < batch_size) by lia.
  assert (Hhn : 0 < head_num) by lia.
  assert (Hhs : 0 < head_size) by lia.
  destruct (layout_exact Hb Hhn Hhs) as (_ & _ & _ & Ev & _ & Etv & _).
  destruct (head_index_exact ibs ihn Hhs Hi Hh) as (Eg & _ & Egv & _).
  destruct (trip_count_16_reached head_size j Hj Hmod) as (t & Ht & Hjt).
  destruct (trip_count_16 head_size t Ht) as [_ Hp].
  unfold block_tmp_v. rewrite Etv, Ev, Eg, Egv.
  unfold N_pad64. fold P64. fold H16 in Hp.
  destruct pads_ordered as [HP4 HP16]. destruct (head_pads_ordered Hhs) as [HH16 HH64].
  unfold INT_MAX in KV_fits. fold P64 H64 in KV_fits.
  clearbody P4 P16 P64 H16 H64.
  assert (0 <= j * P64 <= P64 * H64) by nia.
  assert (1 <= batch_size * head_num) by nia.
  assert (P64 * H64 <= batch_size * head_num * (P64 * H64)) by nia.
  rewrite (int_mul_exact j P64) by (unfold INT_MAX; lia).
  unfold ptr_add. simpl buf. simpl off. f_equal. ring.
Qed.

(** One block of the Value transform zeroes its padding, whatever the
    micro-kernel wrote. *)
Lemma transpose_v_block_zeroes ibs ihn j m :
  16 * pad_to N 64 <= INT_MAX ->
  v_padding_zero batch_size head_num head_size N ibs ihn j
    (transpose_v_block ker_seq_cpy_v_ batch_size head_num head_size N
       ibs ihn j m).
Proof.
  intros Hfit o Ho. destruct pads_ordered as [HP4 _].
  unfold transpose_v_block, size_pad0_v_block, size_trq10n_v_block,
    N_pad64, N_pad4.
  fold P4 P64 in Ho, Hfit |- *.
  rewrite (int_mul_exact 16 P4), (int_mul_exact P64 16),
    (int_sub_exact (P64 * 16) (16 * P4)) by lia.
  destruct (_ =? 0) eqn:E; cbn [negb].
  - apply Z.eqb_eq in E. lia.
  - unfold fill_n. rewrite in_range_true.
    + apply byte_of_zero.
    + reflexivity.
    + unfold ptr_add. simpl off. lia.
Qed.

Lemma valid_block_facts ibs ihn j :
  valid_block batch_size head_num head_size ibs ihn j ->
  0 <= ibs * head_num + ihn
  /\ ibs * head_num + ihn + 1 <= batch_size * head_num
  /\ j + 16 <= H16 /\ 0 <= H64
  /\ ((ibs * head_num + ihn) * H16 + j) mod 16 = 0.
Proof.
  intros (Hi & Hh & Hj & Hmod).
  destruct (head_index_bounds batch_size head_num ibs ihn Hi Hh) as [Hg0 Hg1].
  destruct (trip_count_16_reached head_size j Hj Hmod) as (t & Ht & Hjt).
  destruct (trip_count_16 head_size t Ht) as [_ Hp].
  pose proof (pad_to_nonneg head_size 64 ltac:(lia) ltac:(lia)).
  destruct (pad_to_spec head_size 16 ltac:(lia)) as [_ Hm16].
  fold H16 in Hp, Hm16. fold H64 in H.
  repeat split; try lia.
  rewrite Z.add_mod, Z.mul_mod, Hm16, Hmod by lia.
  rewrite Z.mul_0_r. reflexivity.
Qed.

Lemma valid_block_fits ibs ihn j :
  valid_block batch_size head_num head_size ibs ihn j ->
  16 * pad_to N 64 <= INT_MAX.
Proof.
  intros (Hi & Hh & Hj & _).
  destruct pads_ordered as [HP4 HP16].
  destruct (head_pads_ordered ltac:(lia)) as [HH16 HH64].
  fold P64 H64 in KV_fits |- *. clearbody P4 P16 P64 H16 H64.
  assert (1 <= batch_size * head_num) by nia.
  assert (16 * P64 <= P64 * H64) by nia.
  assert (P64 * H64 <= batch_size * head_num * (P64 * H64)) by nia.
  lia.
Qed.

(** Two Value blocks are the same or do not overlap; the live part of a
    block ends where its padding starts. *)
Lemma blocks_apart u u' o :
  u mod 16 = 0 -> u' mod 16 = 0 -> 16 * P4 <= o < 16 * P64 ->
  u * P64 + o < u' * P64 \/ u' * P64 + 16 * P4 <= u * P64 + o.
Proof.
  intros Hu Hu' Ho. destruct pads_ordered as [HP _].
  assert (Hcases : u' = u \/ u' + 16 <= u \/ u + 16 <= u')
    by (Z.div_mod_to_equations; lia).
  destruct Hcases as [-> | [Hlt | Hgt]].
  - right. lia.
  - right. assert ((u' + 16) * P64 <= u * P64) by nia. lia.
  - left. assert ((u + 16) * P64 <= u' * P64) by nia. lia.
Qed.

(** A call of the Key micro-kernel from the loop of lines 184-193 leaves
    the padding of every Value block as it is. *)
Lemma ker_seq_cpy_k_keeps_padding ibs ihn j ibs' ihn' j' rt m :
  valid_block batch_size head_num head_size ibs ihn j ->
  0 <= ibs' < batch_size -> 0 <= ihn' < head_num ->
  0 <= j' -> j' + 16 <= P16 ->
  tr_k.dst rt = tmp_k batch_size N
                +₁ ((ibs' ⊠ head_num ⊞ ihn') ⊠ head_tmp_k_size head_size N)
                +₁ (j' ⊠ head_size_pad64 head_size) ->
  tr_k.N rt = head_size ->
  v_padding_zero batch_size head_num head_size N ibs ihn j m ->
  v_padding_zero batch_size head_num head_size N ibs ihn j
    (ker_seq_cpy_k_ rt m).
Proof.
  intros Hv Hi' Hh' Hj0 Hj16 Hdst HN Hz o Ho.
  destruct (valid_block_facts ibs ihn j Hv) as (Hg0 & Hg1 & Hj & HH64 & _).
  destruct (head_index_bounds batch_size head_num ibs' ihn' Hi' Hh')
    as [Hg0' Hg1'].
  pose proof Hv as (Hi & Hh & Hjr & _).
  assert (Hb : 0 < batch_size) by lia.
  assert (Hhn : 0 < head_num) by lia.
  assert (Hhs : 0 < head_size) by lia.
  destruct (layout_exact Hb Hhn Hhs) as (_ & _ & Ek & _ & Etk & _ & _).
  destruct (head_index_exact ibs' ihn' Hhs Hi' Hh') as (Eg & Egk & _ & _).
  destruct pads_ordered as [HP HP16].
  destruct (head_pads_ordered Hhs) as [HH16 _].
  rewrite ker_seq_cpy_k_footprint; [apply Hz, Ho|].
  apply in_range_outside. right. rewrite Hdst, HN.
  rewrite (block_tmp_v_off ibs ihn j Hv).
  rewrite Etk, Ek, Eg, Egk. unfold head_size_pad64. fold H64.
  assert (Hx : 0 <= (j' + 16) * H64 <= H64 * P16) by nia.
  assert (Hjx : 0 <= j' * H64 <= H64 * P16) by nia.
  assert (HS : H64 * P16 <= P64 * H64) by nia.
  assert (HKV : P64 * H64 <= batch_size * head_num * (P64 * H64)) by nia.
  rewrite (int_mul_exact j' H64)
    by (unfold INT_MAX in *; fold P64 H64 in KV_fits; lia).
  unfold ptr_add. simpl off.
  pose proof (region_step (ibs' * head_num + ihn') (H64 * P16)
                ((j' + 16) * H64) (batch_size * head_num)
                ltac:(nia) Hx Hg0' Hg1') as Hreg.
  assert (0 <= (ibs * head_num + ihn) * H16) by nia.
  assert (0 <= ((ibs * head_num + ihn) * H16 + j) * P64)
    by (apply Z.mul_nonneg_nonneg; lia).
  lia.
Qed.

(** So does a call of the Value micro-kernel from the loop of lines
    200-214. *)
Lemma ker_seq_cpy_v_keeps_padding ibs ihn j ibs' ihn' j' m :
  valid_block batch_size head_num head_size ibs ihn j ->
  valid_block batch_size head_num head_size ibs' ihn' j' ->
  v_padding_zero batch_size head_num head_size N ibs ihn j m ->
  v_padding_zero batch_size head_num head_size N ibs ihn j
    (ker_seq_cpy_v_ (tr_v_data batch_size head_num head_size N ibs' ihn' j') m).
Proof.
  intros Hv Hv' Hz o Ho.
  destruct (valid_block_facts ibs ihn j Hv) as (Hg0 & Hg1 & Hj & HH64 & Hu).
  destruct (valid_block_facts ibs' ihn' j' Hv')
    as (Hg0' & Hg1' & Hj' & _ & Hu').
  pose proof Hv as (Hi & Hh & Hjr & _). pose proof Hv' as (Hi' & Hh' & Hjr' & _).
  assert (Hb : 0 < batch_size) by lia.
  assert (Hhn : 0 < head_num) by lia.
  assert (Hhs : 0 < head_size) by lia.
  destruct (layout_exact Hb Hhn Hhs) as (_ & _ & _ & _ & _ & _ & Etvs).
  destruct (head_index_exact ibs' ihn' Hhs Hi' Hh') as (Eg & _ & _ & Egs).
  destruct pads_ordered as [HP HP16].
  fold P4 P64 in Ho.
  rewrite ker_seq_cpy_v_footprint; [apply Hz, Ho| |].
  - (* the live part of the block written *)
    change (tr_v.dst (tr_v_data batch_size head_num head_size N ibs' ihn' j'))
      with (block_tmp_v batch_size head_num head_size N ibs' ihn' j').
    change (tr_v.M (tr_v_data batch_size head_num head_size N ibs' ihn' j'))
      with N.
    apply in_range_outside.
    rewrite (block_tmp_v_off ibs ihn j Hv), (block_tmp_v_off ibs' ihn' j' Hv').
    fold P4. simpl off.
    destruct (blocks_apart _ _ o Hu Hu' Ho); lia.
  - (* its scales, beyond the Value region *)
    apply in_range_outside. left.
    rewrite (block_tmp_v_off ibs ihn j Hv).
    unfold tr_v_data. simpl tr_v.dst_scale.
    unfold head_tmp_v_scale_size, head_size_pad16. fold H16.
    rewrite Etvs, Eg, Egs. unfold ptr_add. simpl off.
    assert (Hx : 0 <= (j + 16) * P64 <= P64 * H16) by nia.
    pose proof (region_step (ibs * head_num + ihn) (P64 * H16)
                  ((j + 16) * P64) (batch_size * head_num)
                  ltac:(nia) Hx Hg0 Hg1) as Hreg.
    assert (0 <= (ibs' * head_num + ihn') * H16) by nia.
    lia.
Qed.

Lemma fill_zero_keeps_padding ibs ihn j p n m :
  v_padding_zero batch_size head_num head_size N ibs ihn j m ->
  v_padding_zero batch_size head_num head_size N ibs ihn j (fill_n 1 p n 0 m).
Proof.
  intros Hz o Ho. unfold fill_n. destruct (in_range _ _ _ _).
  - apply byte_of_zero.
  - apply Hz, Ho.
Qed.

Lemma transpose_v_block_keeps_padding ibs ihn j ibs' ihn' j' m :
  valid_block batch_size head_num head_size ibs ihn j ->
  valid_block batch_size head_num head_size ibs' ihn' j' ->
  v_padding_zero batch_size head_num head_size N ibs ihn j m ->
  v_padding_zero batch_size head_num head_size N ibs ihn j
    (transpose_v_block ker_seq_cpy_v_ batch_size head_num head_size N
       ibs' ihn' j' m).
Proof.
  intros Hv Hv' Hz. unfold transpose_v_block. destruct (negb _).
  - apply fill_zero_keeps_padding, ker_seq_cpy_v_keeps_padding; assumption.
  - apply ker_seq_cpy_v_keeps_padding; assumption.
Qed.

Lemma transpose_k_keeps_padding ibs ihn j ibs' ihn' m :
  valid_block batch_size head_num head_size ibs ihn j ->
  0 <= ibs' < batch_size -> 0 <= ihn' < head_num ->
  v_padding_zero batch_size head_num head_size N ibs ihn j m ->
  v_padding_zero batch_size head_num head_size N ibs ihn j
    (transpose_k ker_seq_cpy_k_ batch_size head_num head_size N ibs' ihn' m).
Proof.
  intros Hv Hi' Hh' Hz. unfold transpose_k, for_loop.
  apply for_iter_keeps; [exact Hz|].
  intros t m' Ht Hz'. cbv zeta.
  destruct (trip_count_16 N t Ht) as [Hj0 Hj16].
  apply (ker_seq_cpy_k_keeps_padding ibs ihn j ibs' ihn' (0 + 16 * Z.of_nat t));
    try assumption; try reflexivity; fold P16; lia.
Qed.

Lemma transpose_v_keeps_padding ibs ihn j ibs' ihn' m :
  valid_block batch_size head_num head_size ibs ihn j ->
  0 <= ibs' < batch_size -> 0 <= ihn' < head_num ->
  v_padding_zero batch_size head_num head_size N ibs ihn j m ->
  v_padding_zero batch_size head_num head_size N ibs ihn j
    (transpose_v ker_seq_cpy_v_ batch_size head_num head_size N ibs' ihn' m).
Proof.
  intros Hv Hi' Hh' Hz. unfold transpose_v, for_loop.
  apply for_iter_keeps; [exact Hz|].
  intros t m' Ht Hz'.
  destruct (trip_count_16 head_size t Ht) as [Hj0 Hj16].
  apply transpose_v_block_keeps_padding; try assumption.
  repeat split; try lia.
  replace (0 + 16 * Z.of_nat t) with (Z.of_nat t * 16) by lia.
  apply Z_mod_mult.
Qed.

(** C8.  Each block of the Value transform has its padding, the bytes
    from [16 * pad(seq_k,4)] to [16 * pad(seq_k,64)] of the block, zero
    when its iteration ends, whatever the micro-kernel wrote (nothing is
    filled when the two paddings agree); and when the first loop nest has
    run, the padding of every block of every (batch, head) pair is zero:
    no later iteration writes into it. *)
Theorem value_padding_zero_filled (m : mem) (ibs ihn j : Z) :
  (16 * pad_to N 64 <= INT_MAX ->
   v_padding_zero batch_size head_num head_size N ibs ihn j
     (transpose_v_block ker_seq_cpy_v_ batch_size head_num head_size N
        ibs ihn j m))
  /\ (16 * pad_to N 64 <= INT_MAX -> pad_to N 4 = pad_to N 64 ->
      transpose_v_block ker_seq_cpy_v_ batch_size head_num head_size N
        ibs ihn j m
      = ker_seq_cpy_v_ (tr_v_data batch_size head_num head_size N ibs ihn j) m)
  /\ (valid_block batch_size head_num head_size ibs ihn j ->
      v_padding_zero batch_size head_num head_size N ibs ihn j
        (layout_transform ker_seq_cpy_k_ ker_seq_cpy_v_ batch_size head_num
           head_size N m)).
Proof.
  split; [apply transpose_v_block_zeroes|]. split.
  { intros Hfit He. destruct pads_ordered as [HP4 _].
    unfold transpose_v_block, size_pad0_v_block,
      size_trq10n_v_block, N_pad64, N_pad4.
    fold P4 P64 in He, Hfit |- *.
    rewrite (int_mul_exact 16 P4), (int_mul_exact P64 16),
      (int_sub_exact (P64 * 16) (16 * P4)) by lia.
    rewrite He. replace (_ - _) with 0 by lia. reflexivity. }
  intros Hv. pose proof Hv as (Hi & Hh & Hj & Hmod).
  pose proof (valid_block_fits ibs ihn j Hv) as Hfit.
  destruct (trip_count_unit_reached batch_size ibs Hi) as (ti & Hti & Ei).
  destruct (trip_count_unit_reached head_num ihn Hh) as (th & Hth & Eh).
  destruct (trip_count_16_reached head_size j Hj Hmod) as (tj & Htj & Ej).
  unfold layout_transform, for_loop.
  apply (for_iter_establishes _ _ _ _ _ _ ti Hti).
  - (* the iteration of the batch index [ibs] *)
    rewrite <- Ei. intros m1.
    apply (for_iter_establishes _ _ _ _ _ _ th Hth).
    + (* the iteration of the head [ihn] *)
      rewrite <- Eh. intros m2. unfold transpose_v, for_loop.
      apply (for_iter_establishes _ _ _ _ _ _ tj Htj).
      * rewrite <- Ej. intros m3. apply transpose_v_block_zeroes, Hfit.
      * intros t m3 Ht Hz.
        destruct (trip_count_16 head_size t Ht) as [Hj0 Hj16].
        apply transpose_v_block_keeps_padding; try assumption.
        repeat split; try lia.
        replace (0 + 16 * Z.of_nat t) with (Z.of_nat t * 16) by lia.
        apply Z_mod_mult.
    + (* the heads after it *)
      intros t m2 Ht Hz.
      pose proof (trip_count_unit_index head_num t Ht).
      apply transpose_v_keeps_padding, transpose_k_keeps_padding;
        assumption.
  - (* the batch indices after it *)
    intros t m1 Ht Hz.
    pose proof (trip_count_unit_index batch_size t Ht).
    apply for_iter_keeps; [exact Hz|].
    intros t' m2 Ht' Hz'.
    pose proof (trip_count_unit_index head_num t' Ht').
    apply transpose_v_keeps_padding, transpose_k_keeps_padding; assumption.
Qed.
End zero_padding.

(** ** The theorems with stand-in micro-kernels *)

Lemma marking_trans_k_footprint rt m b o :
  in_range (tr_k.dst rt) (16 * pad_to (tr_k.N rt) 64) b o = false ->
  marking_trans_k rt m b o = m b o.
Proof. intros H. unfold marking_trans_k, fill_n. rewrite Z.mul_1_l, H. reflexivity. Qed.

Lemma marking_trans_v_footprint rt m b o :
  in_range (tr_v.dst rt) (16 * pad_to (tr_v.M rt) 4) b o = false ->
  in_range (tr_v.dst_scale rt) (4 * 16) b o = false ->
  marking_trans_v rt m b o = m b o.
Proof.
  intros H1 H2. unfold marking_trans_v, fill_n. rewrite Z.mul_1_l, H1, H2.
  reflexivity.
Qed.

Lemma value_padding_zero_filled_witness :
  layout_transform marking_trans_k marking_trans_v 2 4 64 20 (fun _ _ => 255)
    io.WORKSPACE (off (block_tmp_v 2 4 64 20 1 3 48) + 325)
  = 0.
Proof.
  assert (HN : 0 < 20) by lia.
  assert (HKV : 2 * 4 * (pad_to 20 64 * pad_to 64 64) <= INT_MAX)
    by (vm_compute; discriminate).
  assert (Hv : valid_block 2 4 64 1 3 48) by (repeat split; try lia; reflexivity).
  assert (Ho : 16 * pad_to 20 4 <= 325 < 16 * pad_to 20 64)
    by (change (pad_to 20 4) with 20; change (pad_to 20 64) with 64; lia).
  destruct (value_padding_zero_filled marking_trans_k marking_trans_v 2 4 64 20
              marking_trans_k_footprint marking_trans_v_footprint HN HKV
              (fun _ _ => 255) 1 3 48) as (_ & _ & Hall).
  exact (Hall Hv 325 Ho).
Defined.

(** The live part of that block is what the stand-in kernel wrote. *)
Example value_block_live_part :
  layout_transform marking_trans_k marking_trans_v 2 4 64 20 (fun _ _ => 255)
    io.WORKSPACE (off (block_tmp_v 2 4 64 20 1 3 48) + 319)
  = 255.
Proof. vm_compute. reflexivity. Qed.

(** C10 (the code departs from it).  [init] accepts the static problem
    with batch 2, seq_q 20, heads 4, head_size 64 and seq_k 20, whose
    Output has 10240 bytes and whose Output scale has 40 floats.  For the
    second row block of the last batch (rows 16 to 19) [execute] hands the
    AV micro-kernel, whose parameter block has no row count, the
    destination [dst + 9216] with rows of 256 bytes and the scale
    destination [dst_scale + 36]: a block of 16 rows that ends 3072 bytes
    after the end of Output, and 16 scales that end 12 floats after the end
    of Output scale.  With micro-kernels that write the blocks they are
    given, the call returns true having written the byte after the last
    one of Output and the byte after the last one of Output scale, which
    belong to neither tensor. *)
Theorem execute_writes_past_output :
  init true desc_seq_q_20 = Some (true, None)
  /\ make_kernel desc_seq_q_20 = Some kernel_seq_q_20
  /\ (forall omp_get_thread_num,
        let av := mm_av_data omp_get_thread_num 2 4 64 20 20 1 16 in
        valid_iteration 2 20 1 16
        /\ mm_av.dst av = dst +₁ 9216
        /\ mm_av.ld_dst av = 256
        /\ off (mm_av.dst av) + 16 * mm_av.ld_dst av
           = output_bytes_seq_q_20 + 3072
        /\ mm_av.dst_scale av = dst_scale +₄ 36
        /\ off (mm_av.dst_scale av) + 4 * 16
           = output_scale_bytes_seq_q_20 + 4 * 12)
  /\ (fun r => (fst r,
                st_mem (snd r) io.DST output_bytes_seq_q_20,
                st_mem (snd r) io.DST_SCALE output_scale_bytes_seq_q_20))
       <$> execute marking_trans_k marking_trans_v marking_qxk marking_axv
             1 (fun _ _ => 0) kernel_seq_q_20 mem_zero
     = Some (true, 9, 1)
  /\ mem_zero io.DST output_bytes_seq_q_20 = 0
  /\ mem_zero io.DST_SCALE output_scale_bytes_seq_q_20 = 0.
Proof.
  split; [vm_compute; reflexivity|]. split; [vm_compute; reflexivity|].
  split.
  { intros omp_get_thread_num av. split.
    - repeat split; try lia; reflexivity.
    - repeat split; vm_compute; reflexivity. }
  split; [vm_compute; reflexivity|]. split; reflexivity.
Qed.

(** With seq_q 16 the same call writes its outputs and stays inside
    them. *)
Example execute_writes_output :
  (fun r => (fst r, st_mem (snd r) io.DST 0,
             st_mem (snd r) io.DST (2 * 16 * 4 * 64), st_amx_cfg (snd r)))
    <$> execute marking_trans_k marking_trans_v marking_qxk marking_axv
          2 (fun _ _ => 0) kernel_static mem_mask_2x20
  = Some (true, 9, 0, [(0, TileParam 16 16 64 false 4)]).
Proof. vm_compute. reflexivity. Qed.
(* ===================================================================== *)
(** * Further properties of the code *)
(* ===================================================================== *)

(** ** The vectors of [get_tensor_shapes] and [get_tensor_dtypes] *)

(** X1.  With at most [mha_dense_io_MAX + 1] descriptors the two vectors
    exist, have [mha_dense_io_MAX + 1] entries whatever the number of
    descriptors, and hold at every index the shape and the type of the
    descriptor at that index, or the empty shape and [undef] beyond the last
    descriptor; with more descriptors neither has a result. *)
Theorem get_tensor_vectors_padded (descs : list tensor_desc) :
  ((length descs <= S io.mha_dense_io_MAX)%nat ->
   exists shapes dtypes,
     get_tensor_shapes descs = Some shapes
     /\ get_tensor_dtypes descs = Some dtypes
     /\ length shapes = S io.mha_dense_io_MAX
     /\ length dtypes = S io.mha_dense_io_MAX
     /\ forall i, (i < S io.mha_dense_io_MAX)%nat ->
          shapes !! i = Some (default [] (shape <$> descs !! i))
          /\ dtypes !! i = Some (default dt_undef (dtype <$> descs !! i)))
  /\ ((S io.mha_dense_io_MAX < length descs)%nat ->
      get_tensor_shapes descs = None /\ get_tensor_dtypes descs = None).
Proof.
  unfold get_tensor_shapes, get_tensor_dtypes. split.
  - intros Hlen. pose proof Hlen as Hb. apply Nat.leb_le in Hb. rewrite Hb.
    eexists _, _. split; [reflexivity|]. split; [reflexivity|].
    rewrite !length_app, !length_fmap, !length_replicate.
    split; [lia|]. split; [lia|].
    intros i Hi.
    destruct (decide (i < length descs)%nat) as [Hlt|Hge].
    + rewrite !lookup_app_l by (rewrite length_fmap; exact Hlt).
      rewrite !list_lookup_fmap.
      destruct (descs !! i) as [d|] eqn:Ed; [split; reflexivity|].
      apply lookup_ge_None in Ed. lia.
    + rewrite !lookup_app_r by (rewrite length_fmap; lia).
      rewrite !length_fmap, (lookup_ge_None_2 descs) by lia.
      rewrite !lookup_replicate_2 by lia. split; reflexivity.
  - intros Hlen.
    assert (Hb : (length descs <=? S io.mha_dense_io_MAX)%nat = false)
      by (apply Nat.leb_gt; exact Hlen).
    rewrite Hb. split; reflexivity.
Qed.

Lemma get_tensor_vectors_padded_witness :
  (exists shapes dtypes,
     get_tensor_shapes [TensorDesc [2; 16; 4; 64] dt_s8] = Some shapes
     /\ get_tensor_dtypes [TensorDesc [2; 16; 4; 64] dt_s8] = Some dtypes
     /\ length shapes = S io.mha_dense_io_MAX
     /\ length dtypes = S io.mha_dense_io_MAX
     /\ forall i, (i < S io.mha_dense_io_MAX)%nat ->
          shapes !! i
          = Some (default [] (shape <$> [TensorDesc [2; 16; 4; 64] dt_s8] !! i))
          /\ dtypes !! i
             = Some (default dt_undef
                       (dtype <$> [TensorDesc [2; 16; 4; 64] dt_s8] !! i)))
  /\ get_tensor_shapes descs_too_many = None.
Proof.
  split.
  - apply (get_tensor_vectors_padded [TensorDesc [2; 16; 4; 64] dt_s8]).
    simpl. lia.
  - apply (get_tensor_vectors_padded descs_too_many). vm_compute. lia.
Defined.

(** ** What [dynamic_quant_mha_kd_t::init] accepts *)

Lemma KERNEL_INIT_CHECK_accepts c f rest :
  KERNEL_INIT_CHECK c f rest = Some (true, None) ->
  f = true /\ rest = Some (true, None).
Proof. unfold KERNEL_INIT_CHECK. destruct f; [tauto|discriminate]. Qed.

Lemma shape_eqb_true a b : shape_eqb a b = true <-> a = b.
Proof. unfold shape_eqb. apply bool_decide_eq_true. Qed.

Lemma dyn_check_true (d : Z) (s : list Z) :
  (0 <? d) || shape_eqb s [1] = true <-> 0 < d \/ s = [1].
Proof. rewrite orb_true_iff, Z.ltb_lt, shape_eqb_true. reflexivity. Qed.

Lemma get_tensor_shapes_defined descs shapes :
  get_tensor_shapes descs = Some shapes ->
  (length descs <= S io.mha_dense_io_MAX)%nat.
Proof.
  unfold get_tensor_shapes. destruct (_ <=? _)%nat eqn:E; [|discriminate].
  intros _. apply Nat.leb_le, E.
Qed.

(** What [init] has checked when it returns true. *)
Lemma init_accepts_only (amx_int8 : bool) (od : operator_desc) :
  init amx_int8 od = Some (true, None) ->
  amx_int8 = true
  /\ attrs od !! "approx_exp" = Some "True"
  /\ attrs od !! "stable_softmax" = Some "False"
  /\ (length (tensor_descs od) <= S io.mha_dense_io_MAX)%nat
  /\ (exists b m h hs n,
        declares_shapes od b m h hs n /\ positive_or_declared od b m h hs n)
  /\ zero_points_absent od = true
  /\ activations_s8 od = true
  /\ scales_fp32 od = true.
Proof.
  unfold init. destruct amx_int8; simpl; [|discriminate].
  intros H.
  apply KERNEL_INIT_CHECK_accepts in H as [Ha H].
  apply KERNEL_INIT_CHECK_accepts in H as [Hs H].
  apply bool_decide_eq_true in Ha, Hs.
  destruct (get_tensor_shapes (tensor_descs od)) as [shapes|] eqn:Esh;
    [|discriminate].
  destruct (get_tensor_dtypes (tensor_descs od)) as [dtypes|] eqn:Edt;
    [|discriminate].
  simpl in H.
  rewrite !(shape_at_get_tensor_shapes od shapes) in H by exact Esh.
  destruct (slot_shape od io.SRC_Q !! 0%nat) as [b|] eqn:Eb; [|discriminate].
  destruct (slot_shape od io.SRC_Q !! 2%nat) as [h|] eqn:Eh; [|discriminate].
  destruct (slot_shape od io.SRC_Q !! 1%nat) as [m|] eqn:Em; [|discriminate].
  destruct (slot_shape od io.SRC_Q !! 3%nat) as [hs|] eqn:Ehs; [|discriminate].
  destruct (slot_shape od io.SRC_K !! 1%nat) as [n|] eqn:En; [|discriminate].
  simpl in H.
  unfold dyn_check_batch_size, dyn_check_head_num, dyn_check_M,
    dyn_check_head_size, dyn_check_N in H.
  rewrite !(shape_at_get_tensor_shapes od shapes) in H by exact Esh.
  rewrite !(dtype_at_get_tensor_dtypes od dtypes) in H by exact Edt.
  rewrite <- forallb_activations, <- forallb_scales in H.
  apply KERNEL_INIT_CHECK_accepts in H as [D1 H].
  apply KERNEL_INIT_CHECK_accepts in H as [D2 H].
  apply KERNEL_INIT_CHECK_accepts in H as [D3 H].
  apply KERNEL_INIT_CHECK_accepts in H as [D4 H].
  apply KERNEL_INIT_CHECK_accepts in H as [D5 H].
  apply KERNEL_INIT_CHECK_accepts in H as [S1 H].
  apply KERNEL_INIT_CHECK_accepts in H as [S2 H].
  apply KERNEL_INIT_CHECK_accepts in H as [S3 H].
  apply KERNEL_INIT_CHECK_accepts in H as [S4 H].
  apply KERNEL_INIT_CHECK_accepts in H as [S5 H].
  apply KERNEL_INIT_CHECK_accepts in H as [S6 H].
  apply KERNEL_INIT_CHECK_accepts in H as [S7 H].
  apply KERNEL_INIT_CHECK_accepts in H as [S8 H].
  apply KERNEL_INIT_CHECK_accepts in H as [S9 H].
  apply KERNEL_INIT_CHECK_accepts in H as [Z1 H].
  apply KERNEL_INIT_CHECK_accepts in H as [Z2 H].
  apply KERNEL_INIT_CHECK_accepts in H as [Z3 H].
  apply KERNEL_INIT_CHECK_accepts in H as [Z4 H].
  apply KERNEL_INIT_CHECK_accepts in H as [Z5 H].
  apply KERNEL_INIT_CHECK_accepts in H as [Z6 H].
  apply KERNEL_INIT_CHECK_accepts in H as [T1 H].
  apply KERNEL_INIT_CHECK_accepts in H as [T2 _].
  apply dyn_check_true in D1, D2, D3, D4, D5.
  apply shape_eqb_true in S1, S2, S3, S4, S5, S6, S7, S8, S9.
  repeat split; try assumption.
  + apply (get_tensor_shapes_defined _ _ Esh).
  + exists b, m, h, hs, n. repeat split; assumption.
  + rewrite forallb_zero_points, Z1, Z2, Z3, Z4, Z5, Z6. reflexivity.
Qed.

(** X2.  [init] returns true exactly when the hardware has the 8-bit tile
    extension, the two attributes have their values, there are at most
    [mha_dense_io_MAX + 1] descriptors, the nine tensor shapes are the
    ones of a problem with dimensions [b, m, h, hs, n] (Query and Output
    {b,m,h,hs}, Key and Value {b,n,h,hs}, the mask {b,1,1,n}, the scales
    {b,m} and {b,n}), each dimension is positive or has the slot the source
    pairs with it declared with shape {1}, the six zero-point and static
    quantization slots are empty, and the element types are signed 8-bit
    and 32-bit float; and then nothing is logged. *)
Theorem init_accepts_iff (amx_int8 : bool) (od : operator_desc) :
  init amx_int8 od = Some (true, None)
  <-> amx_int8 = true
      /\ attrs od !! "approx_exp" = Some "True"
      /\ attrs od !! "stable_softmax" = Some "False"
      /\ (length (tensor_descs od) <= S io.mha_dense_io_MAX)%nat
      /\ (exists b m h hs n,
            declares_shapes od b m h hs n /\ positive_or_declared od b m h hs n)
      /\ zero_points_absent od = true
      /\ activations_s8 od = true
      /\ scales_fp32 od = true.
Proof.
  split; [apply init_accepts_only|].
  - intros (-> & Ha & Hs & Hlen & (b & m & h & hs & n & Hsh & Hdyn) & Hz & H8 & Hf).
    destruct Hsh as (S1 & S2 & S3 & S4 & S5 & S6 & S7 & S8 & S9).
    destruct Hdyn as (D1 & D2 & D3 & D4 & D5).
    assert (Hr : dims_readable od).
    { unfold dims_readable. rewrite S1, S2. simpl. repeat split; [exact Hlen|lia|lia]. }
    destruct (dims_readable_reads od Hr)
      as (shapes & dtypes & b' & m' & h' & hs' & n' & Esh & Edt & _).
    unfold init. simpl. unfold attr_is.
    rewrite (bool_decide_eq_true_2 _ Ha), (bool_decide_eq_true_2 _ Hs).
    unfold KERNEL_INIT_CHECK at 1 2.
    rewrite Esh, Edt. simpl.
    rewrite !(shape_at_get_tensor_shapes od shapes) by exact Esh.
    rewrite S1, S2. simpl.
    unfold dyn_check_batch_size, dyn_check_head_num, dyn_check_M,
      dyn_check_head_size, dyn_check_N.
    rewrite !(shape_at_get_tensor_shapes od shapes) by exact Esh.
    rewrite !(dtype_at_get_tensor_dtypes od dtypes) by exact Edt.
    rewrite <- forallb_activations, <- forallb_scales, H8, Hf.
    apply dyn_check_true in D1, D2, D3, D4, D5.
    rewrite D1, D2, D3, D4, D5.
    rewrite S3, S4, S5, S6, S7, S8, S9.
    rewrite forallb_zero_points in Hz.
    repeat (apply andb_true_iff in Hz as [Hz ?]).
    unfold shape_eqb. rewrite !bool_decide_eq_true_2 by reflexivity.
    unfold KERNEL_INIT_CHECK.
    repeat match goal with
    | E : is_empty ?a = true |- _ => rewrite E; clear E
    end.
    reflexivity.
Qed.

Lemma KERNEL_INIT_CHECK_logs c f rest r l :
  (rest = Some (r, l) -> (r = true <-> l = None)) ->
  KERNEL_INIT_CHECK c f rest = Some (r, l) -> (r = true <-> l = None).
Proof.
  unfold KERNEL_INIT_CHECK. destruct f; [tauto|].
  intros _ [= <- <-]. split; discriminate.
Qed.

(** X3.  Whatever [init] returns on hardware with the tile extension, it
    returns true exactly when it logged no check: every rejection there
    comes from a [KERNEL_INIT_CHECK] and names the check that failed.
    Without the extension it returns false and logs nothing, whatever the
    descriptor holds. *)
Theorem init_rejection_is_logged (od : operator_desc) :
  (forall r l, init true od = Some (r, l) -> (r = true <-> l = None))
  /\ init false od = Some (false, None).
Proof.
  split; [|reflexivity].
  intros r l. unfold init. simpl.
  do 2 refine (KERNEL_INIT_CHECK_logs _ _ _ r l _).
  destruct (get_tensor_shapes _) as [shapes|]; [|discriminate].
  destruct (get_tensor_dtypes _) as [dtypes|]; [|discriminate].
  simpl.
  repeat match goal with
  | |- context [?x ≫= _] => destruct x; simpl; [|discriminate]
  end.
  do 22 refine (KERNEL_INIT_CHECK_logs _ _ _ r l _).
  intros [= <- <-]. tauto.
Qed.

(** ** The constructor on an accepted descriptor *)

(** X4.  On every descriptor [init] accepts, the constructor reads inside
    the shapes: the kernel object exists, its five dimensions are those of
    the Query and Key shapes narrowed to [int], and its tile configuration
    is (16, 16, 64, false, 4).  A dimension that is positive and fits
    [int] is the one [execute] works with, whatever the memory holds. *)
Theorem accepted_descriptor_constructs (amx_int8 : bool) (od : operator_desc) :
  init amx_int8 od = Some (true, None) ->
  exists b m h hs n,
    slot_shape od io.SRC_Q = [b; m; h; hs]
    /\ slot_shape od io.SRC_K = [b; n; h; hs]
    /\ make_kernel od
       = Some (Kernel (to_int b) (to_int h) (to_int m) (to_int hs) (to_int n)
                      (TileParam 16 16 64 false 4))
    /\ forall k mem0, make_kernel od = Some k ->
         (0 < b <= INT_MAX -> resolved_batch_size k mem0 = b)
         /\ (0 < h <= INT_MAX -> resolved_head_num k mem0 = h)
         /\ (0 < m <= INT_MAX -> resolved_M k mem0 = m)
         /\ (0 < hs <= INT_MAX -> resolved_head_size k mem0 = hs)
         /\ (0 < n <= INT_MAX -> resolved_N k mem0 = n).
Proof.
  intros Hacc. apply init_accepts_only in Hacc
    as (_ & _ & _ & Hlen & (b & m & h & hs & n & Hsh & _) & _).
  destruct Hsh as (S1 & S2 & _).
  exists b, m, h, hs, n. split; [exact S1|]. split; [exact S2|].
  assert (Hr : dims_readable od).
  { unfold dims_readable. rewrite S1, S2. simpl. repeat split; [exact Hlen|lia|lia]. }
  destruct (dims_readable_reads od Hr)
    as (shapes & dtypes & b' & m' & h' & hs' & n' & Esh & _).
  assert (Hk : make_kernel od
       = Some (Kernel (to_int b) (to_int h) (to_int m) (to_int hs) (to_int n)
                      (TileParam 16 16 64 false 4))).
  { unfold make_kernel. rewrite Esh. simpl.
    rewrite !(shape_at_get_tensor_shapes od shapes) by exact Esh.
    rewrite S1, S2. reflexivity. }
  split; [exact Hk|].
  intros k mem0 Ek. rewrite Hk in Ek. injection Ek as <-.
  unfold resolved_batch_size, resolved_head_num, resolved_M,
    resolved_head_size, resolved_N. simpl.
  repeat split; intros Hd; rewrite to_int_small by lia;
    (destruct (0 <? _) eqn:E; [reflexivity|apply Z.ltb_ge in E; lia]).
Qed.

Lemma accepted_descriptor_constructs_witness :
  exists b m h hs n,
    slot_shape desc_static io.SRC_Q = [b; m; h; hs]
    /\ slot_shape desc_static io.SRC_K = [b; n; h; hs]
    /\ make_kernel desc_static
       = Some (Kernel (to_int b) (to_int h) (to_int m) (to_int hs) (to_int n)
                      (TileParam 16 16 64 false 4))
    /\ forall k mem0, make_kernel desc_static = Some k ->
         (0 < b <= INT_MAX -> resolved_batch_size k mem0 = b)
         /\ (0 < h <= INT_MAX -> resolved_head_num k mem0 = h)
         /\ (0 < m <= INT_MAX -> resolved_M k mem0 = m)
         /\ (0 < hs <= INT_MAX -> resolved_head_size k mem0 = hs)
         /\ (0 < n <= INT_MAX -> resolved_N k mem0 = n).
Proof.
  apply (accepted_descriptor_constructs true desc_static).
  vm_compute. reflexivity.
Defined.

(** The kernel of the static descriptor. *)
Example make_kernel_static : make_kernel desc_static = Some kernel_static.
Proof. vm_compute. reflexivity. Qed.

(** ** [dynamic_quant_mha_k_t::init] *)

(** X5.  [init] of the kernel object returns true exactly when the six
    [create_kernel()] calls succeed, and then the four micro-kernels
    [execute] calls exist: the Key transposer built with [pad_n] 64, the
    two matrix kernels with the tile configuration of the kernel object.
    On a fresh kernel object a micro-kernel is constructed exactly when
    every creation before its own succeeded: after a failure the pointers
    of the later ones stay empty. *)
Theorem kernel_init_creates_all (k : dynamic_quant_mha_k_t) (c : created)
    (ks : micro_kernels) :
  (fst (kernel_init k c ks) = true
   <-> amx_cfg_created c = true /\ amx_rls_created c = true
       /\ seq_cpy_k_created c = true /\ seq_cpy_v_created c = true
       /\ qxk_created c = true /\ axv_created c = true)
  /\ (fst (kernel_init k c ks) = true ->
      snd (kernel_init k c ks)
      = MicroKernels (Some (TransParam 64 false 1)) (Some tt)
          (Some (amx_full_tile_param_ k)) (Some (amx_full_tile_param_ k)))
  /\ (mk_seq_cpy_k (snd (kernel_init k c no_micro_kernels)) <> None
      <-> amx_cfg_created c = true /\ amx_rls_created c = true)
  /\ (mk_seq_cpy_v (snd (kernel_init k c no_micro_kernels)) <> None
      <-> amx_cfg_created c = true /\ amx_rls_created c = true
          /\ seq_cpy_k_created c = true)
  /\ (mk_qxk (snd (kernel_init k c no_micro_kernels)) <> None
      <-> amx_cfg_created c = true /\ amx_rls_created c = true
          /\ seq_cpy_k_created c = true /\ seq_cpy_v_created c = true)
  /\ (mk_axv (snd (kernel_init k c no_micro_kernels)) <> None
      <-> amx_cfg_created c = true /\ amx_rls_created c = true
          /\ seq_cpy_k_created c = true /\ seq_cpy_v_created c = true
          /\ qxk_created c = true).
Proof.
  unfold kernel_init.
  destruct c as [[] [] [] [] [] []]; simpl;
    repeat split; try congruence; try discriminate; intuition congruence.
Qed.

(** ** [execute] on an empty problem *)

Lemma trip_count_empty hi step : 0 < step -> hi <= 0 -> trip_count 0 hi step = O.
Proof.
  intros Hs Hhi. unfold trip_count.
  assert ((hi - 0 + step - 1) / step < 1)
    by (apply Z.div_lt_upper_bound; lia).
  lia.
Qed.



(** ** Rows and columns handed to the transposing micro-kernels *)

Lemma for_iter_foldl {S : Type} n i step (body : Z -> S -> S) (s : S) :
  for_iter n i step body s
  = foldl (fun s j => body j s) s
      ((fun t => i + step * Z.of_nat t) <$> seq 0 n).
Proof.
  revert i s. induction n as [|n IH]; intros i s; [reflexivity|].
  cbn [for_iter seq fmap list_fmap foldl]. rewrite IH.
  replace (i + step * Z.of_nat 0) with i by lia.
  f_equal. rewrite <- fmap_S_seq, <- list_fmap_compose.
  apply list_fmap_ext. intros _ t _. simpl. lia.
Qed.

Lemma for_loop_foldl {S : Type} lo hi step (body : Z -> S -> S) (s : S) :
  for_loop lo hi step body s
  = foldl (fun s j => body j s) s (loop_indices lo hi step).
Proof. apply for_iter_foldl. Qed.

Lemma sum_Z_app l1 l2 : sum_Z (l1 ++ l2) = sum_Z l1 + sum_Z l2.
Proof.
  unfold sum_Z. induction l1 as [|x l1 IH]; simpl; [reflexivity|].
  rewrite IH. lia.
Qed.

(** The chunks [min(16, n - j)] of the loop [for (j = 0; j < n; j += 16)]
    add up to [n]. *)
Lemma chunks_sum n k :
  0 <= n <= INT_MAX -> (k <= trip_count 0 n 16)%nat ->
  sum_Z ((fun t => Z.min 16 (n ⊟ (0 + 16 * Z.of_nat t))) <$> seq 0 k)
  = Z.min n (16 * Z.of_nat k).
Proof.
  intros Hn. induction k as [|k IH]; intros Hk.
  - simpl. lia.
  - rewrite seq_S, fmap_app, sum_Z_app, IH by lia. simpl.
    destruct (trip_count_16 n k ltac:(lia)) as [Hj _].
    rewrite int_sub_exact by lia. unfold sum_Z. simpl. lia.
Qed.

Lemma chunks_cover n :
  0 <= n <= INT_MAX ->
  Forall (fun j => 1 <= Z.min 16 (n ⊟ j) <= 16 /\ 0 <= j < n /\ j mod 16 = 0)
    (loop_indices 0 n 16)
  /\ sum_Z ((fun j => Z.min 16 (n ⊟ j)) <$> loop_indices 0 n 16) = n.
Proof.
  intros Hn. unfold loop_indices. split.
  - apply Forall_fmap, Forall_forall. intros t Ht.
    apply elem_of_seq in Ht. simpl.
    destruct (trip_count_16 n t ltac:(lia)) as [Hj _].
    rewrite int_sub_exact by lia. split; [lia|]. split; [lia|].
    replace (0 + 16 * Z.of_nat t) with (Z.of_nat t * 16) by lia.
    apply Z_mod_mult.
  - rewrite <- list_fmap_compose.
    etransitivity; [apply (chunks_sum n _ Hn (Nat.le_refl _))|].
    unfold trip_count. rewrite Z2Nat.id by (apply Z.div_pos; lia).
    Z.div_mod_to_equations. lia.
Qed.

Lemma transpose_k_calls ker batch_size head_num head_size N ibs ihn m :
  transpose_k ker batch_size head_num head_size N ibs ihn m
  = foldl (fun m j => ker (tr_k_data batch_size head_num head_size N ibs ihn j) m)
      m (loop_indices 0 N 16).
Proof. unfold transpose_k. rewrite for_loop_foldl. reflexivity. Qed.

Lemma transpose_v_calls ker batch_size head_num head_size N ibs ihn m :
  transpose_v ker batch_size head_num head_size N ibs ihn m
  = foldl (fun m j =>
             transpose_v_block ker batch_size head_num head_size N ibs ihn j m)
      m (loop_indices 0 head_size 16).
Proof. unfold transpose_v. rewrite for_loop_foldl. reflexivity. Qed.



(** The two calls for seq_k 20 are given 16 and 4 rows. *)
Example key_chunks_20 :
  tr_k.M <$> (tr_k_data 2 4 64 20 1 3 <$> loop_indices 0 20 16) = [16; 4].
Proof. vm_compute. reflexivity. Qed.

(** ** The regions of the workspace during [execute] *)

(** The preparation of the mask writes the first
    [4 * batch_size * pad(N,16)] bytes of the workspace only. *)
Lemma prepare_mask_frame batch_size N m b o :
  0 <= N -> batch_size * pad_to N 16 <= INT_MAX ->
  b <> io.WORKSPACE \/ o < 0 \/ 4 * (batch_size * pad_to N 16) <= o ->
  fst (prepare_mask batch_size N m) b o = m b o.
Proof.
  intros HN Hfit Hout.
  destruct (pad_to_spec N 16 ltac:(lia)) as [[HN16 _] _].
  unfold prepare_mask. destruct (negb _); [|reflexivity]. simpl fst.
  unfold for_loop.
  apply (for_iter_keeps (fun m' : mem => m' b o = m b o)); [reflexivity|].
  intros ti m1 Hti H1.
  pose proof (trip_count_unit_index batch_size ti Hti) as Hi.
  set (ibs := 0 + 1 * Z.of_nat ti) in *.
  unfold N_pad16. set (P := pad_to N 16) in *.
  assert (0 <= ibs * P /\ ibs * P + P <= batch_size * P) by nia.
  rewrite (int_mul_exact ibs P) by (unfold INT_MAX in *; lia).
  rewrite (int_sub_exact P N) by (unfold INT_MAX in *; nia).
  unfold fill_n, copy_n.
  replace (in_range _ _ b o) with false.
  - replace (in_range _ _ b o) with false; [exact H1|].
    symmetry.
    destruct Hout as [Hb | Ho]; [apply in_range_other_buffer; exact Hb|].
    apply in_range_outside. unfold tmp_mask, workspace, rt_data, ptr_add.
    simpl off. lia.
  - symmetry.
    destruct Hout as [Hb | Ho]; [apply in_range_other_buffer; exact Hb|].
    apply in_range_outside. unfold tmp_mask, workspace, rt_data, ptr_add.
    simpl off. lia.
Qed.

(** The pointer [tmp_k] is where the mask region ends. *)
Lemma tmp_k_off batch_size N :
  0 <= batch_size * pad_to N 16 <= INT_MAX ->
  tmp_k batch_size N = Ptr io.WORKSPACE (4 * (batch_size * pad_to N 16)).
Proof.
  intros Hfit. unfold tmp_k, tmp_mask, tmp_mask_size, N_pad16, workspace, rt_data.
  rewrite int_mul_exact by exact Hfit. reflexivity.
Qed.

(** X8.  With a seq_k that is not negative and a mask region of at most
    [INT_MAX] floats, the preparation of the mask writes into the
    workspace between its start and [tmp_k] only, whichever branch it
    takes: the caller's mask, the Key, Value and scale regions and the
    scratch of the threads are left as they were. *)
Theorem mask_preparation_writes_mask_region
    (batch_size N : Z) (m : mem) (b : io.t) (o : Z) :
  0 <= N -> 0 <= batch_size -> batch_size * pad_to N 16 <= INT_MAX ->
  b <> io.WORKSPACE \/ o < off workspace \/ off (tmp_k batch_size N) <= o ->
  fst (prepare_mask batch_size N m) b o = m b o.
Proof.
  intros HN Hb Hfit Hout.
  pose proof (pad_to_nonneg N 16 ltac:(lia) HN).
  rewrite tmp_k_off in Hout by (split; [nia|exact Hfit]).
  apply prepare_mask_frame; assumption.
Qed.

Lemma mask_preparation_writes_mask_region_witness :
  fst (prepare_mask 2 20 mem_mask_2x20) io.WORKSPACE 256
  = mem_mask_2x20 io.WORKSPACE 256.
Proof.
  apply (mask_preparation_writes_mask_region 2 20 mem_mask_2x20 io.WORKSPACE 256).
  - lia.
  - lia.
  - vm_compute. discriminate.
  - right. right. vm_compute. discriminate.
Defined.

Lemma head_block_end bh g S x :
  0 <= g -> g + 1 <= bh -> 0 <= S -> 0 <= x <= S ->
  0 <= g * S /\ g * S + x <= bh * S.
Proof. intros. split; nia. Qed.

(** Blocks of 16 units of [S] bytes, [A] units per (batch, head) pair:
    every offset lies in one block, and in one only. *)
Lemma block_of_offset A S bh x :
  0 < S -> 0 < A -> A mod 16 = 0 -> 0 <= x < bh * (A * S) ->
  exists g j, 0 <= g < bh /\ 0 <= j /\ j + 16 <= A /\ j mod 16 = 0
    /\ (g * A + j) * S <= x < (g * A + j) * S + 16 * S.
Proof.
  intros HS HA HA16 Hx.
  set (w := x / S).
  assert (Hw : w * S <= x < (w + 1) * S).
  { unfold w. pose proof (Z.div_mod x S ltac:(lia)).
    pose proof (Z.mod_pos_bound x S HS). nia. }
  assert (Hw0 : 0 <= w < bh * A).
  { split; [unfold w; apply Z.div_pos; lia|].
    assert (w * S < bh * A * S) by lia.
    eapply Z.mul_lt_mono_pos_r; [exact HS|]. lia. }
  clearbody w.
  set (g := w / A). set (r := w mod A).
  assert (Hgr : w = A * g + r /\ 0 <= r < A).
  { unfold g, r. split; [apply Z.div_mod; lia|apply Z.mod_pos_bound; lia]. }
  clearbody g r. destruct Hgr as [-> Hr].
  exists g, (16 * (r / 16)).
  assert (Hj : 16 * (r / 16) <= r < 16 * (r / 16) + 16).
  { pose proof (Z.div_mod r 16 ltac:(lia)).
    pose proof (Z.mod_pos_bound r 16 ltac:(lia)). lia. }
  assert (Hq : 0 <= r / 16) by (apply Z.div_pos; lia).
  set (q := r / 16) in *. clearbody q.
  assert (HA' : A = 16 * (A / 16)).
  { pose proof (Z.div_mod A 16 ltac:(lia)). lia. }
  set (a := A / 16) in *. clearbody a.
  assert (Hg : 0 <= g < bh) by nia.
  split; [exact Hg|]. split; [lia|]. split; [lia|].
  split. { rewrite Z.mul_comm. apply Z_mod_mult. }
  split; nia.
Qed.

Lemma block_unique A S g j g' j' x :
  0 < S -> A mod 16 = 0 ->
  0 <= j -> j + 16 <= A -> j mod 16 = 0 ->
  0 <= j' -> j' + 16 <= A -> j' mod 16 = 0 ->
  (g * A + j) * S <= x < (g * A + j) * S + 16 * S ->
  (g' * A + j') * S <= x < (g' * A + j') * S + 16 * S ->
  g' = g /\ j' = j.
Proof.
  intros HS HA Hj0 Hj Hjm Hj0' Hj' Hjm' Hx Hx'.
  assert (HA' : A = 16 * (A / 16)).
  { pose proof (Z.div_mod A 16 ltac:(lia)). lia. }
  assert (Hq : j = 16 * (j / 16)).
  { pose proof (Z.div_mod j 16 ltac:(lia)). lia. }
  assert (Hq' : j' = 16 * (j' / 16)).
  { pose proof (Z.div_mod j' 16 ltac:(lia)). lia. }
  set (a := A / 16) in *. set (q := j / 16) in *. set (q' := j' / 16) in *.
  clearbody a q q'. subst A j j'.
  assert (Hu : g * a + q = g' * a + q').
  { assert (Hc : g * a + q < g' * a + q' \/ g' * a + q' < g * a + q
                 \/ g * a + q = g' * a + q') by lia.
    destruct Hc as [Hc | [Hc | Hc]]; [exfalso|exfalso|exact Hc].
    - assert ((g * (16 * a) + 16 * q) + 16 <= g' * (16 * a) + 16 * q') by lia.
      nia.
    - assert ((g' * (16 * a) + 16 * q') + 16 <= g * (16 * a) + 16 * q) by lia.
      nia. }
  assert (Hg : g' = g) by nia.
  subst g'. split; [reflexivity|lia].
Qed.

Lemma head_of_index b h g :
  0 < h -> 0 <= g < b * h ->
  exists ibs ihn, 0 <= ibs < b /\ 0 <= ihn < h /\ g = ibs * h + ihn.
Proof.
  intros Hh Hg. exists (g / h), (g mod h).
  pose proof (Z.div_mod g h ltac:(lia)).
  pose proof (Z.mod_pos_bound g h Hh).
  assert (0 <= g / h) by (apply Z.div_pos; lia).
  repeat split; try lia. nia.
Qed.

Lemma head_index_unique h ibs ihn ibs' ihn' :
  0 <= ihn < h -> 0 <= ihn' < h ->
  ibs' * h + ihn' = ibs * h + ihn -> ibs' = ibs /\ ihn' = ihn.
Proof. intros Hh Hh' He. assert (ibs' = ibs) by nia. subst. lia. Qed.

(** ** Rows of the tensors of the caller *)

Lemma row_offset_exact b seq h hs ibs s :
  0 < h -> 0 < hs -> 0 < seq ->
  b * seq * hs * h <= INT_MAX ->
  0 <= ibs < b -> 0 <= s < seq ->
  ibs ⊠ seq ⊠ hs ⊠ h = ibs * seq * hs * h
  /\ (ibs ⊠ seq ⊞ s) ⊠ hs ⊠ h = (ibs * seq + s) * hs * h
  /\ ibs ⊠ seq = ibs * seq
  /\ hs ⊠ h = hs * h
  /\ s ⊠ (hs ⊠ h) = s * (hs * h)
  /\ 0 <= (ibs * seq + s) * hs * h
  /\ (ibs * seq + s) * hs * h + hs * h <= b * seq * hs * h.
Proof.
  intros Hh Hhs Hseq Hfit Hi Hs.
  assert (Hr : 0 <= ibs * seq + s /\ ibs * seq + s + 1 <= b * seq) by nia.
  assert (Hhh : 1 <= hs * h) by nia.
  assert (Hrow : 0 <= (ibs * seq + s) * (hs * h)
                 /\ (ibs * seq + s) * (hs * h) + hs * h <= b * seq * (hs * h))
    by (split; nia).
  assert (Hbs : b * seq <= b * seq * (hs * h)) by nia.
  assert (E1 : b * seq * hs * h = b * seq * (hs * h)) by lia.
  assert (E2 : (ibs * seq + s) * hs * h = (ibs * seq + s) * (hs * h)) by lia.
  assert (Hhs' : hs * h <= b * seq * (hs * h)) by nia.
  assert (Hibs : 0 <= ibs * seq <= ibs * seq + s) by nia.
  assert (Hx : 0 <= ibs * seq * (hs * h) <= (ibs * seq + s) * (hs * h))
    by (split; [nia|apply Z.mul_le_mono_nonneg_r; lia]).
  assert (Hy : 0 <= ibs * seq * hs <= ibs * seq * (hs * h)) by nia.
  assert (Hz : 0 <= (ibs * seq + s) * hs <= (ibs * seq + s) * (hs * h)) by nia.
  assert (Hw : 0 <= s * (hs * h) <= (ibs * seq + s) * (hs * h))
    by (split; [nia|apply Z.mul_le_mono_nonneg_r; lia]).
  assert (Es : ibs ⊠ seq = ibs * seq)
    by (apply int_mul_exact; unfold INT_MAX in *; lia).
  assert (Ehh : hs ⊠ h = hs * h)
    by (apply int_mul_exact; unfold INT_MAX in *; lia).
  rewrite Es, Ehh.
  rewrite (int_mul_exact (ibs * seq) hs) by (unfold INT_MAX in *; lia).
  rewrite (int_mul_exact (ibs * seq * hs) h)
    by (unfold INT_MAX in *; replace (ibs * seq * hs * h)
          with (ibs * seq * (hs * h)) by lia; lia).
  rewrite (int_add_exact (ibs * seq) s) by (unfold INT_MAX in *; lia).
  rewrite (int_mul_exact (ibs * seq + s) hs) by (unfold INT_MAX in *; lia).
  rewrite (int_mul_exact ((ibs * seq + s) * hs) h)
    by (unfold INT_MAX in *; lia).
  rewrite (int_mul_exact s (hs * h)) by (unfold INT_MAX in *; lia).
  repeat split; try reflexivity; lia.
Qed.

Lemma valid_iteration_block M ibs i batch_size :
  valid_iteration batch_size M ibs i -> M mod 16 = 0 -> i + 16 <= M.
Proof.
  intros (_ & Hi & Hm) HM.
  pose proof (Z.div_mod M 16 ltac:(lia)). pose proof (Z.div_mod i 16 ltac:(lia)).
  lia.
Qed.

(** ** The second loop nest as a loop over states *)

(** A loop one iteration of which establishes [G], under an invariant [I]
    that every iteration keeps. *)
Lemma for_iter_establishes_inv {S : Type} (I G : S -> Prop) n i step body
    (s : S) t0 :
  (t0 < n)%nat -> I s ->
  (forall t s', (t < n)%nat -> I s' -> I (body (i + step * Z.of_nat t) s')) ->
  (forall s', I s' -> G (body (i + step * Z.of_nat t0) s')) ->
  (forall t s', (t < n)%nat -> I s' -> G s' ->
     G (body (i + step * Z.of_nat t) s')) ->
  I (for_iter n i step body s) /\ G (for_iter n i step body s).
Proof.
  intros Ht0 HI0 HI Hest Hkeep.
  enough (H : I (for_iter n i step body s)
              /\ ((t0 < n)%nat -> G (for_iter n i step body s)))
    by (split; [apply H|apply H, Ht0]).
  apply (for_iter_invariant (fun t s' => I s' /\ ((t0 < t)%nat -> G s'))).
  - split; [exact HI0|lia].
  - intros t s' Ht [HIs HG]. split; [apply HI; assumption|].
    intros Hlt. destruct (decide (t = t0)) as [->|Hne]; [apply Hest, HIs|].
    apply Hkeep; [exact Ht|exact HIs|]. apply HG. lia.
Qed.

Lemma valid_iteration_index batch_size M t t2 :
  (t < trip_count 0 batch_size 1)%nat -> (t2 < trip_count 0 M 16)%nat ->
  valid_iteration batch_size M (0 + 1 * Z.of_nat t) (0 + 16 * Z.of_nat t2).
Proof.
  intros Ht Ht2.
  pose proof (trip_count_unit_index batch_size t Ht).
  destruct (trip_count_16 M t2 Ht2) as [Hj _].
  repeat split; try lia.
  replace (0 + 16 * Z.of_nat t2) with (Z.of_nat t2 * 16) by lia.
  apply Z_mod_mult.
Qed.

Lemma attention_block_length ker_qxk_ ker_axv_ omp_get_thread_num cfg
    batch_size head_num head_size M N tmp_mask' ibs i st st' :
  attention_block ker_qxk_ ker_axv_ omp_get_thread_num cfg batch_size head_num
    head_size M N tmp_mask' ibs i st = Some st' ->
  length (st_amx_init st') = length (st_amx_init st).
Proof.
  intros H. apply attention_block_inv in H as (flag & _ & _ & _ & Hf & _).
  rewrite Hf. destruct flag; [reflexivity|apply length_insert].
Qed.

Section second_loop_nest.
Context (ker_qxk_ : mm_qk.rt_data_t -> mem -> mem)
        (ker_axv_ : mm_av.rt_data_t -> mem -> mem).
Context (max_threads : Z) (omp_get_thread_num : Z -> Z -> Z).
Variable cfg : tile_param_t.
Variables batch_size head_num head_size M N : Z.
Variable tmp_mask' : ptr.
Variable m : mem.

(** At most 256 threads, the entries of [amx_init], and the iterations run
    on threads numbered below [max_threads]. *)
Hypothesis max_threads_cap : max_threads <= amx_init_size.
Hypothesis thread_num_valid :
  forall ibs i, valid_iteration batch_size M ibs i ->
    0 <= omp_get_thread_num ibs i < max_threads.

Let block := attention_block ker_qxk_ ker_axv_ omp_get_thread_num cfg
               batch_size head_num head_size M N tmp_mask'.
Let flags_allocated (st : exec_state) :=
  length (st_amx_init st) = Z.to_nat max_threads.
Let s0 := ExecState m (replicate (Z.to_nat max_threads) false) [].
Let loops :=
  for_iter (trip_count 0 batch_size 1) 0 1
    (fun ibs st =>
       for_iter (trip_count 0 M 16) 0 16 (fun i st => st ≫= block ibs i) st)
    (Some s0).

Lemma fused_attention_loops :
  fused_attention ker_qxk_ ker_axv_ max_threads omp_get_thread_num cfg
    batch_size head_num head_size M N tmp_mask' m = loops.
Proof using max_threads_cap block s0 loops.
  clear - max_threads_cap block s0 loops.
  unfold fused_attention. apply Z.leb_le in max_threads_cap.
  rewrite max_threads_cap. reflexivity.
Qed.

Lemma block_runs ibs i st :
  valid_iteration batch_size M ibs i -> flags_allocated st ->
  exists st', block ibs i st = Some st' /\ flags_allocated st'.
Proof using thread_num_valid block flags_allocated.
  clear - thread_num_valid block flags_allocated.
  intros Hv Hlen. pose proof (thread_num_valid ibs i Hv) as Htid.
  destruct (attention_block_defined ker_qxk_ ker_axv_ omp_get_thread_num cfg
              batch_size head_num head_size M N tmp_mask' ibs i st)
    as [st' E]; [lia|unfold flags_allocated in Hlen; lia|].
  exists st'. split; [exact E|].
  unfold flags_allocated. rewrite (attention_block_length _ _ _ _ _ _ _ _ _ _ _ _ _ _ E).
  exact Hlen.
Qed.

(** The second loop nest has a final state, and a property of the states
    that holds of the initial one and that every iteration keeps holds of
    it. *)
Lemma fused_attention_total (P : exec_state -> Prop) :
  P s0 ->
  (forall ibs i st st', valid_iteration batch_size M ibs i -> P st ->
     block ibs i st = Some st' -> P st') ->
  exists st,
    fused_attention ker_qxk_ ker_axv_ max_threads omp_get_thread_num cfg
      batch_size head_num head_size M N tmp_mask' m = Some st
    /\ P st.
Proof using max_threads_cap thread_num_valid block flags_allocated s0 loops.
  clear - max_threads_cap thread_num_valid block flags_allocated s0 loops.
  intros H0 Hstep. rewrite fused_attention_loops.
  set (G := fun o : option exec_state =>
              exists st, o = Some st /\ P st /\ flags_allocated st).
  enough (HG : G loops) by (destruct HG as (st & E & HP & _); eauto).
  unfold loops. apply (for_iter_keeps G).
  - exists s0. split; [reflexivity|]. split; [exact H0|].
    apply length_replicate.
  - intros t o Ht Ho. apply (for_iter_keeps G); [exact Ho|].
    intros t2 o2 Ht2 (st & -> & HP & Hlen). cbn [mbind option_bind].
    pose proof (valid_iteration_index _ _ _ _ Ht Ht2) as Hv.
    destruct (block_runs _ _ st Hv Hlen) as (st' & E & Hlen').
    exists st'. split; [exact E|]. split; [|exact Hlen'].
    exact (Hstep _ _ _ _ Hv HP E).
Qed.

(** A property that iteration [(ibs0, i0)] establishes and that the
    iterations keep, under an invariant [I], holds of the final state. *)
Lemma fused_attention_establishes (I G : exec_state -> Prop) ibs0 i0 :
  valid_iteration batch_size M ibs0 i0 ->
  I s0 ->
  (forall ibs i st st', valid_iteration batch_size M ibs i -> I st ->
     block ibs i st = Some st' -> I st') ->
  (forall st st', I st -> block ibs0 i0 st = Some st' -> G st') ->
  (forall ibs i st st', valid_iteration batch_size M ibs i -> I st -> G st ->
     block ibs i st = Some st' -> G st') ->
  exists st,
    fused_attention ker_qxk_ ker_axv_ max_threads omp_get_thread_num cfg
      batch_size head_num head_size M N tmp_mask' m = Some st
    /\ I st /\ G st.
Proof using max_threads_cap thread_num_valid block flags_allocated s0 loops.
  clear - max_threads_cap thread_num_valid block flags_allocated s0 loops.
  intros (Hibs & Hi & Hmod) HI0 HI Hest Hkeep. rewrite fused_attention_loops.
  destruct (trip_count_unit_reached batch_size ibs0 Hibs) as (t0 & Ht0 & Ei).
  destruct (trip_count_16_reached M i0 Hi Hmod) as (u0 & Hu0 & Ej).
  set (Io := fun o : option exec_state =>
               exists st, o = Some st /\ I st /\ flags_allocated st).
  set (Go := fun o : option exec_state => exists st, o = Some st /\ G st).
  assert (S1 : forall ibs i o,
            valid_iteration batch_size M ibs i -> Io o -> Io (o ≫= block ibs i)).
  { intros ibs i o Hv (st & -> & HIs & Hlen). cbn [mbind option_bind].
    destruct (block_runs _ _ st Hv Hlen) as (st' & E & Hlen').
    exists st'. split; [exact E|]. split; [|exact Hlen'].
    exact (HI _ _ _ _ Hv HIs E). }
  assert (S2 : forall o, Io o -> Go (o ≫= block ibs0 i0)).
  { intros o (st & -> & HIs & Hlen). cbn [mbind option_bind].
    assert (Hv : valid_iteration batch_size M ibs0 i0)
      by (repeat split; assumption || lia).
    destruct (block_runs _ _ st Hv Hlen) as (st' & E & _).
    exists st'. split; [exact E|]. exact (Hest _ _ HIs E). }
  assert (S3 : forall ibs i o,
            valid_iteration batch_size M ibs i -> Io o -> Go o ->
            Go (o ≫= block ibs i)).
  { intros ibs i o Hv (st & -> & HIs & Hlen) (st2 & [= <-] & HGs).
    cbn [mbind option_bind].
    destruct (block_runs _ _ st Hv Hlen) as (st' & E & _).
    exists st'. split; [exact E|]. exact (Hkeep _ _ _ _ Hv HIs HGs E). }
  enough (HIG : Io loops /\ Go loops).
  { destruct HIG as [(st & E & HIs & _) (st2 & E2 & HGs)].
    rewrite E in E2. injection E2 as <-. eauto. }
  unfold loops.
  apply (for_iter_establishes_inv Io Go _ _ _ _ _ t0 Ht0).
  - exists s0. split; [reflexivity|]. split; [exact HI0|].
    apply length_replicate.
  - intros t o Ht Ho. apply (for_iter_keeps Io); [exact Ho|].
    intros u o' Hu Ho'.
    apply S1; [apply valid_iteration_index|]; assumption.
  - intros o Ho.
    apply (for_iter_establishes_inv Io Go _ _ _ _ _ u0 Hu0 Ho).
    + intros u o' Hu Ho'.
      apply S1; [apply valid_iteration_index|]; assumption.
    + rewrite <- Ei, <- Ej. intros o' Ho'. apply S2, Ho'.
    + intros u o' Hu Ho' HGo'.
      apply S3; [apply valid_iteration_index| |]; assumption.
  - intros t o Ht Ho HGo.
    apply (for_iter_keeps (fun o => Io o /\ Go o)); [split; assumption|].
    intros u o' Hu [Ho' HGo'].
    split; [apply S1|apply S3]; try assumption;
      apply valid_iteration_index; assumption.
Qed.
End second_loop_nest.

Section regions.
Context (ker_seq_cpy_k_ : tr_k.rt_data_t -> mem -> mem)
        (ker_seq_cpy_v_ : tr_v.rt_data_t -> mem -> mem)
        (ker_qxk_ : mm_qk.rt_data_t -> mem -> mem)
        (ker_axv_ : mm_av.rt_data_t -> mem -> mem).
Context (max_threads : Z) (omp_get_thread_num : Z -> Z -> Z).
Variable cfg : tile_param_t.
Variables batch_size head_num head_size M N : Z.

(** Footprints of the micro-kernels.  The two transposing kernels: as in
    the section on the zero padding.  The QK kernel writes, for each of its
    [batch_size] heads, 16 rows of [ld_dst] bytes at [dst]; the AV kernel
    writes through [dst] and [dst_scale] only. *)
Hypothesis ker_seq_cpy_k_footprint : forall rt m b o,
  in_range (tr_k.dst rt) (16 * pad_to (tr_k.N rt) 64) b o = false ->
  ker_seq_cpy_k_ rt m b o = m b o.
Hypothesis ker_seq_cpy_v_footprint : forall rt m b o,
  in_range (tr_v.dst rt) (16 * pad_to (tr_v.M rt) 4) b o = false ->
  in_range (tr_v.dst_scale rt) (4 * 16) b o = false ->
  ker_seq_cpy_v_ rt m b o = m b o.
Hypothesis ker_qxk_footprint : forall rt m b o,
  in_range (mm_qk.dst rt) (mm_qk.batch_size rt * (16 * mm_qk.ld_dst rt)) b o
  = false ->
  ker_qxk_ rt m b o = m b o.
Hypothesis ker_axv_writes : forall rt m b o,
  b <> buf (mm_av.dst rt) -> b <> buf (mm_av.dst_scale rt) ->
  ker_axv_ rt m b o = m b o.

(** The dimensions are positive, the [int] sizes of the partition do not
    overflow, a thread number is below [max_threads], and there are at
    most 256 threads, the entries of [amx_init]. *)
Hypothesis batch_size_pos : 0 < batch_size.
Hypothesis head_num_pos : 0 < head_num.
Hypothesis head_size_pos : 0 < head_size.
Hypothesis N_pos : 0 < N.
Hypothesis KV_fits :
  batch_size * head_num * (pad_to N 64 * pad_to head_size 64) <= INT_MAX.
Hypothesis scratch_fits :
  max_threads * (head_num * 16 * pad_to N 64) <= INT_MAX.
Hypothesis thread_num_range :
  forall ibs i, 0 <= omp_get_thread_num ibs i < max_threads.
Hypothesis max_threads_cap : max_threads <= amx_init_size.

Let P4 := pad_to N 4.
Let P16 := pad_to N 16.
Let P64 := pad_to N 64.
Let H16 := pad_to head_size 16.
Let H64 := pad_to head_size 64.
Let KV := batch_size * head_num * (P64 * H64).
Let TS := max_threads * (head_num * 16 * P64).
Let O_k := 4 * (batch_size * P16).
Let O_v := O_k + batch_size * head_num * (H64 * P16).
Let O_s := O_v + batch_size * head_num * (P64 * H16).
Let O_t := O_s + 4 * (batch_size * head_num * H16).
Let O_e := O_t + max_threads * (head_num * 16 * P64).

Lemma paddings :
  N <= P4 /\ P4 <= P64 /\ N <= P16 /\ 16 <= P16 /\ P16 <= P64 /\ 64 <= P64
  /\ 16 <= H16 /\ H16 <= H64 /\ 64 <= H64.
Proof using head_size_pos N_pos P4 P16 P64 H16 H64.
  clear - head_size_pos N_pos P4 P16 P64 H16 H64.
  unfold P4, P16, P64, H16, H64.
  destruct (pad_to_spec N 4 ltac:(lia)) as [[? _] ?].
  destruct (pad_to_spec N 16 ltac:(lia)) as [[? _] ?].
  destruct (pad_to_spec N 64 ltac:(lia)) as [[? _] ?].
  destruct (pad_to_spec head_size 16 ltac:(lia)) as [[? _] ?].
  destruct (pad_to_spec head_size 64 ltac:(lia)) as [[? _] ?].
  pose proof (pad_to_le_64 N 4 ltac:(lia) eq_refl).
  pose proof (pad_to_le_64 N 16 ltac:(lia) eq_refl).
  pose proof (pad_to_le_64 head_size 16 ltac:(lia) eq_refl).
  repeat split; try assumption; Z.div_mod_to_equations; lia.
Qed.

Lemma max_threads_pos : 0 < max_threads.
Proof using thread_num_range.
  clear - thread_num_range. pose proof (thread_num_range 0 0). lia. Qed.

Lemma size_bounds :
  1 <= batch_size * head_num
  /\ batch_size * P16 <= KV
  /\ 0 <= batch_size * head_num * (H64 * P16) <= KV
  /\ 0 <= batch_size * head_num * (P64 * H16) <= KV
  /\ 0 <= batch_size * head_num * H16 <= KV
  /\ KV <= INT_MAX.
Proof using batch_size_pos head_num_pos head_size_pos N_pos KV_fits P4 P16
    P64 H16 H64 KV O_k O_v O_s O_t.
  clear - batch_size_pos head_num_pos head_size_pos N_pos KV_fits P4 P16 P64
    H16 H64 KV O_k O_v O_s O_t.
  destruct paddings as (HN4 & H4 & HN16 & H16' & H1664 & H64' & HH16 & HH & HH64).
  pose proof KV_fits as HKV. fold P64 H64 in HKV.
  unfold KV. clearbody P4 P16 P64 H16 H64.
  assert (Hbh : 1 <= batch_size * head_num) by nia.
  assert (HPH : 64 <= P64 * H64) by nia.
  assert (0 <= H64 * P16 <= P64 * H64) by nia.
  assert (0 <= P64 * H16 <= P64 * H64) by nia.
  split; [exact Hbh|]. split.
  { transitivity (batch_size * (P64 * H64)); [nia|].
    apply Z.mul_le_mono_nonneg_r; nia. }
  split. { split; [nia|apply Z.mul_le_mono_nonneg_l; lia]. }
  split. { split; [nia|apply Z.mul_le_mono_nonneg_l; lia]. }
  split. { split; [nia|apply Z.mul_le_mono_nonneg_l; nia]. }
  assumption.
Qed.

Lemma scratch_bounds : 0 <= head_num * 16 * P64 <= TS /\ TS <= INT_MAX.
Proof using head_num_pos head_size_pos N_pos scratch_fits thread_num_range
    P4 P16 P64 H16 H64 TS.
  clear - head_num_pos head_size_pos N_pos scratch_fits thread_num_range P4
    P16 P64 H16 H64 TS.
  destruct paddings as (_ & _ & _ & _ & _ & H64' & _).
  pose proof max_threads_pos as HT.
  pose proof scratch_fits as HTS. fold P64 in HTS.
  unfold TS. clearbody P64.
  assert (0 <= head_num * 16 * P64) by nia.
  split; [split; [lia|nia]|exact HTS].
Qed.

(** The region pointers of lines 170-174 are the exact ones. *)
Lemma regions_exact :
  tmp_k batch_size N = Ptr io.WORKSPACE O_k
  /\ tmp_v batch_size head_num head_size N = Ptr io.WORKSPACE O_v
  /\ tmp_v_scale batch_size head_num head_size N = Ptr io.WORKSPACE O_s
  /\ tmp_threads batch_size head_num head_size N = Ptr io.WORKSPACE O_t.
Proof using batch_size_pos head_num_pos head_size_pos N_pos KV_fits P4 P16
    P64 H16 H64 KV O_k O_v O_s O_t.
  clear - batch_size_pos head_num_pos head_size_pos N_pos KV_fits P4 P16 P64
    H16 H64 KV O_k O_v O_s O_t.
  destruct (layout_exact batch_size head_num head_size N N_pos KV_fits
              batch_size_pos head_num_pos head_size_pos)
    as (_ & _ & _ & _ & Ek & Ev & Es).
  destruct size_bounds as (Hbh & _ & _ & _ & HS & HKV).
  destruct paddings as (_ & _ & _ & _ & _ & HP64 & HH16 & _ & _).
  repeat split; try assumption.
  unfold tmp_threads. rewrite Es.
  unfold head_tmp_v_scale_size, head_size_pad16. fold H16.
  rewrite (int_mul_exact batch_size head_num) by (unfold INT_MAX in *; nia).
  rewrite (int_mul_exact (batch_size * head_num) H16)
    by (unfold INT_MAX in *; lia).
  reflexivity.
Qed.

(** So are the size of line 168 and the end of the scratch of the threads
    (the expression of line 175). *)
Lemma scratch_exact :
  tmp_thread_size head_num N = head_num * 16 * P64
  /\ tmp_end max_threads batch_size head_num head_size N = Ptr io.WORKSPACE O_e.
Proof using batch_size_pos head_num_pos head_size_pos N_pos KV_fits
    scratch_fits thread_num_range P4 P16 P64 H16 H64 KV TS O_k O_v O_s O_t
    O_e.
  clear - batch_size_pos head_num_pos head_size_pos N_pos KV_fits
    scratch_fits thread_num_range P4 P16 P64 H16 H64 KV TS O_k O_v O_s O_t
    O_e.
  destruct regions_exact as (_ & _ & _ & Et).
  destruct scratch_bounds as (HT & HTS).
  destruct paddings as (_ & _ & _ & _ & _ & HP64 & _).
  assert (Ets : tmp_thread_size head_num N = head_num * 16 * P64).
  { unfold tmp_thread_size, N_pad64. fold P64.
    rewrite (int_mul_exact head_num 16) by (unfold INT_MAX in *; nia).
    rewrite (int_mul_exact (head_num * 16) P64) by (unfold INT_MAX in *; lia).
    reflexivity. }
  split; [exact Ets|].
  unfold tmp_end. rewrite Et, Ets.
  pose proof max_threads_pos.
  rewrite (int_mul_exact max_threads (head_num * 16 * P64))
    by (fold TS; unfold INT_MAX in *; split; [nia|lia]).
  unfold ptr_add. simpl. f_equal. unfold O_e. lia.
Qed.

Lemma regions_ordered : 0 <= O_k <= O_v /\ O_v <= O_s /\ O_s <= O_t.
Proof using batch_size_pos head_num_pos head_size_pos N_pos KV_fits P4 P16
    P64 H16 H64 KV O_k O_v O_s O_t.
  clear - batch_size_pos head_num_pos head_size_pos N_pos KV_fits P4 P16 P64
    H16 H64 KV O_k O_v O_s O_t.
  destruct size_bounds as (Hbh & _ & HK & HV & HS & _).
  destruct paddings as (_ & _ & _ & HP16 & _).
  unfold O_t, O_s, O_v, O_k. repeat split; nia.
Qed.

(** *** The destinations of the calls *)

Lemma tr_k_dst_off ibs ihn j :
  0 <= ibs < batch_size -> 0 <= ihn < head_num -> 0 <= j -> j + 16 <= P16 ->
  tr_k.dst (tr_k_data batch_size head_num head_size N ibs ihn j)
  = Ptr io.WORKSPACE (O_k + (ibs * head_num + ihn) * (H64 * P16) + j * H64).
Proof using batch_size_pos head_num_pos head_size_pos N_pos KV_fits P4 P16
    P64 H16 H64 KV O_k O_v O_s O_t.
  clear - batch_size_pos head_num_pos head_size_pos N_pos KV_fits P4 P16 P64
    H16 H64 KV O_k O_v O_s O_t.
  intros Hi Hh Hj0 Hj16.
  destruct regions_exact as (Ek & _).
  destruct (layout_exact batch_size head_num head_size N N_pos KV_fits
              batch_size_pos head_num_pos head_size_pos)
    as (_ & _ & Eks & _).
  destruct (head_index_exact batch_size head_num head_size N N_pos KV_fits
              ibs ihn head_size_pos Hi Hh) as (Eg & Egk & _).
  destruct size_bounds as (Hbh & _ & HK & _ & _ & HKV).
  destruct paddings as (_ & _ & _ & _ & _ & _ & _ & _ & HH64).
  unfold tr_k_data. cbn [tr_k.dst].
  rewrite Ek, Eks, Eg, Egk. unfold head_size_pad64. fold H64.
  assert (0 <= j * H64 <= H64 * P16) by nia.
  pose proof (Z.mul_le_mono_nonneg_r 1 (batch_size * head_num) (H64 * P16)
                ltac:(lia) Hbh).
  rewrite (int_mul_exact j H64) by (unfold INT_MAX in *; lia).
  unfold ptr_add. simpl. f_equal. lia.
Qed.

Lemma tr_v_dst_scale_off ibs ihn j :
  0 <= ibs < batch_size -> 0 <= ihn < head_num ->
  tr_v.dst_scale (tr_v_data batch_size head_num head_size N ibs ihn j)
  = Ptr io.WORKSPACE (O_s + 4 * ((ibs * head_num + ihn) * H16) + 4 * j).
Proof using batch_size_pos head_num_pos head_size_pos N_pos KV_fits P4 P16
    P64 H16 H64 KV O_k O_v O_s O_t.
  clear - batch_size_pos head_num_pos head_size_pos N_pos KV_fits P4 P16 P64
    H16 H64 KV O_k O_v O_s O_t.
  intros Hi Hh.
  destruct regions_exact as (_ & _ & Es & _).
  destruct (head_index_exact batch_size head_num head_size N N_pos KV_fits
              ibs ihn head_size_pos Hi Hh) as (Eg & _ & _ & Egs).
  unfold tr_v_data. cbn [tr_v.dst_scale].
  unfold head_tmp_v_scale_size, head_size_pad16.
  rewrite Es, Eg, Egs. reflexivity.
Qed.

(** A call of the Key micro-kernel from the first loop nest writes inside
    the Key region. *)
Lemma ker_seq_cpy_k_in_region ibs ihn j m b o :
  0 <= ibs < batch_size -> 0 <= ihn < head_num -> 0 <= j -> j + 16 <= P16 ->
  b <> io.WORKSPACE \/ o < O_k \/ O_v <= o ->
  ker_seq_cpy_k_ (tr_k_data batch_size head_num head_size N ibs ihn j) m b o
  = m b o.
Proof using batch_size_pos head_num_pos head_size_pos N_pos KV_fits P4 P16
    P64 H16 H64 KV O_k O_v O_s O_t ker_seq_cpy_k_footprint.
  clear - batch_size_pos head_num_pos head_size_pos N_pos KV_fits P4 P16 P64
    H16 H64 KV O_k O_v O_s O_t ker_seq_cpy_k_footprint.
  intros Hi Hh Hj0 Hj16 Hout.
  apply ker_seq_cpy_k_footprint.
  rewrite (tr_k_dst_off ibs ihn j Hi Hh Hj0 Hj16).
  change (tr_k.N (tr_k_data batch_size head_num head_size N ibs ihn j))
    with head_size. fold H64.
  destruct Hout as [Hb | Ho]; [apply in_range_other_buffer; exact Hb|].
  apply in_range_outside. simpl off.
  destruct (head_index_bounds batch_size head_num ibs ihn Hi Hh) as [Hg0 Hg1].
  destruct paddings as (_ & _ & _ & _ & _ & _ & _ & _ & HH64).
  assert (Hx : 0 <= (j + 16) * H64 <= H64 * P16) by nia.
  destruct (head_block_end (batch_size * head_num) (ibs * head_num + ihn) (H64 * P16) ((j + 16) * H64)
              Hg0 Hg1 ltac:(nia) Hx) as [Hlo Hhi].
  unfold O_v. assert (0 <= j * H64) by nia. lia.
Qed.

(** A block of the Value transform writes inside the Value and Value-scale
    regions. *)
Lemma transpose_v_block_in_region ibs ihn j m b o :
  valid_block batch_size head_num head_size ibs ihn j ->
  b <> io.WORKSPACE \/ o < O_v \/ O_t <= o ->
  transpose_v_block ker_seq_cpy_v_ batch_size head_num head_size N ibs ihn j
    m b o
  = m b o.
Proof using batch_size_pos head_num_pos head_size_pos N_pos KV_fits P4 P16
    P64 H16 H64 KV O_k O_v O_s O_t ker_seq_cpy_v_footprint.
  clear - batch_size_pos head_num_pos head_size_pos N_pos KV_fits P4 P16 P64
    H16 H64 KV O_k O_v O_s O_t ker_seq_cpy_v_footprint.
  intros Hv Hout. pose proof Hv as (Hi & Hh & Hj & Hmod).
  destruct (valid_block_facts batch_size head_num head_size N ibs ihn j Hv)
    as (Hg0 & Hg1 & Hj16 & _ & _).
  fold H16 in Hj16.
  destruct paddings as (HN4 & H4 & _ & _ & _ & HP64 & HH16 & _ & _).
  destruct (layout_exact batch_size head_num head_size N N_pos KV_fits
              batch_size_pos head_num_pos head_size_pos)
    as (Eb1 & Eb2 & _).
  fold P4 P64 in Eb1, Eb2.
  pose proof (block_tmp_v_off batch_size head_num head_size N N_pos KV_fits
                ibs ihn j Hv) as Eblk.
  fold P16 P64 H16 H64 in Eblk. fold O_k in Eblk. fold O_v in Eblk.
  assert (Hx : 0 <= (j + 16) * P64 <= P64 * H16) by nia.
  destruct (head_block_end (batch_size * head_num) (ibs * head_num + ihn) (P64 * H16) ((j + 16) * P64)
              Hg0 Hg1 ltac:(nia) Hx) as [Hlo Hhi].
  assert (Hy : 0 <= j + 16 <= H16) by lia.
  destruct (head_block_end (batch_size * head_num) (ibs * head_num + ihn) H16 (j + 16)
              Hg0 Hg1 ltac:(lia) Hy) as [Hlo' Hhi'].
  assert (Hblk : O_v <= O_v + ((ibs * head_num + ihn) * H16 + j) * P64
                 /\ O_v + ((ibs * head_num + ihn) * H16 + j) * P64 + 16 * P64
                    <= O_s).
  { unfold O_s. split; nia. }
  assert (Hker : ker_seq_cpy_v_
                   (tr_v_data batch_size head_num head_size N ibs ihn j) m b o
                 = m b o).
  { apply ker_seq_cpy_v_footprint.
    - change (tr_v.dst (tr_v_data batch_size head_num head_size N ibs ihn j))
        with (block_tmp_v batch_size head_num head_size N ibs ihn j).
      change (tr_v.M (tr_v_data batch_size head_num head_size N ibs ihn j))
        with N.
      fold P4. rewrite Eblk.
      destruct Hout as [Hb | Ho]; [apply in_range_other_buffer; exact Hb|].
      apply in_range_outside. simpl off. lia.
    - rewrite (tr_v_dst_scale_off ibs ihn j Hi Hh).
      destruct Hout as [Hb | Ho]; [apply in_range_other_buffer; exact Hb|].
      apply in_range_outside. simpl off.
      unfold O_t in *. lia. }
  unfold transpose_v_block. destruct (negb _); [|exact Hker].
  unfold fill_n. rewrite Eb1, Eb2, Eblk.
  replace (in_range _ _ b o) with false; [exact Hker|].
  symmetry.
  destruct Hout as [Hb | Ho]; [apply in_range_other_buffer; exact Hb|].
  apply in_range_outside. unfold ptr_add. simpl off. lia.
Qed.

(** The first loop nest writes the Key, Value and Value-scale regions
    only. *)
Lemma layout_transform_in_regions m b o :
  b <> io.WORKSPACE \/ o < O_k \/ O_t <= o ->
  layout_transform ker_seq_cpy_k_ ker_seq_cpy_v_ batch_size head_num head_size
    N m b o
  = m b o.
Proof using batch_size_pos head_num_pos head_size_pos N_pos KV_fits P4 P16
    P64 H16 H64 KV O_k O_v O_s O_t ker_seq_cpy_k_footprint
    ker_seq_cpy_v_footprint.
  clear - batch_size_pos head_num_pos head_size_pos N_pos KV_fits P4 P16 P64
    H16 H64 KV O_k O_v O_s O_t ker_seq_cpy_k_footprint
    ker_seq_cpy_v_footprint.
  intros Hout.
  destruct regions_ordered as (Hk & Hv & Hs).
  unfold layout_transform, for_loop.
  apply (for_iter_keeps (fun m' : mem => m' b o = m b o)); [reflexivity|].
  intros ti m1 Hti H1.
  pose proof (trip_count_unit_index batch_size ti Hti) as Hi.
  apply (for_iter_keeps (fun m' : mem => m' b o = m b o)); [exact H1|].
  intros th m2 Hth H2.
  pose proof (trip_count_unit_index head_num th Hth) as Hh.
  unfold transpose_v, for_loop.
  apply (for_iter_keeps (fun m' : mem => m' b o = m b o)).
  - unfold transpose_k, for_loop.
    apply (for_iter_keeps (fun m' : mem => m' b o = m b o)); [exact H2|].
    intros tj m3 Htj H3. cbv zeta.
    destruct (trip_count_16 N tj Htj) as [Hj0 Hj16]. fold P16 in Hj16.
    change (ker_seq_cpy_k_ _ m3 b o)
      with (ker_seq_cpy_k_ (tr_k_data batch_size head_num head_size N
                              (0 + 1 * Z.of_nat ti) (0 + 1 * Z.of_nat th)
                              (0 + 16 * Z.of_nat tj)) m3 b o).
    rewrite ker_seq_cpy_k_in_region; [exact H3|exact Hi|exact Hh|lia|lia|].
    destruct Hout as [Hb | [Ho | Ho]]; [left; exact Hb|right; left; exact Ho|].
    right. right. lia.
  - intros tj m3 Htj H3.
    destruct (trip_count_16 head_size tj Htj) as [Hj0 Hj16].
    rewrite transpose_v_block_in_region; [exact H3| |].
    + repeat split; try lia.
      replace (0 + 16 * Z.of_nat tj) with (Z.of_nat tj * 16) by lia.
      apply Z_mod_mult.
    + destruct Hout as [Hb | [Ho | Ho]]; [left; exact Hb| |right; right; exact Ho].
      right. left. lia.
Qed.

(** The preparation of the mask writes the mask region only. *)
Lemma prepare_mask_in_region m b o :
  b <> io.WORKSPACE \/ o < 0 \/ O_k <= o ->
  fst (prepare_mask batch_size N m) b o = m b o.
Proof using batch_size_pos head_num_pos head_size_pos N_pos KV_fits P4 P16
    P64 H16 H64 KV O_k O_v O_s O_t.
  clear - batch_size_pos head_num_pos head_size_pos N_pos KV_fits P4 P16 P64
    H16 H64 KV O_k O_v O_s O_t.
  destruct size_bounds as (_ & HM & _ & _ & _ & HKV).
  apply prepare_mask_frame; [lia|fold P16; lia].
Qed.

(** *** The scratch of the threads *)

Lemma mm_qk_dst_off tmp_mask' ibs i :
  mm_qk.dst (mm_qk_data omp_get_thread_num batch_size head_num head_size M N
               tmp_mask' ibs i)
  = Ptr io.WORKSPACE (O_t + omp_get_thread_num ibs i * (head_num * 16 * P64)).
Proof using batch_size_pos head_num_pos head_size_pos N_pos KV_fits
    scratch_fits thread_num_range P4 P16 P64 H16 H64 KV TS O_k O_v O_s O_t
    O_e.
  clear - batch_size_pos head_num_pos head_size_pos N_pos KV_fits
    scratch_fits thread_num_range P4 P16 P64 H16 H64 KV TS O_k O_v O_s O_t
    O_e.
  destruct regions_exact as (_ & _ & _ & Et).
  destruct scratch_exact as (Ets & _).
  destruct scratch_bounds as (HT & HTS).
  pose proof (thread_num_range ibs i) as Htid.
  unfold mm_qk_data. cbn [mm_qk.dst]. rewrite Et, Ets.
  rewrite int_mul_exact.
  - unfold ptr_add. simpl. f_equal. lia.
  - unfold TS in *. split; [nia|].
    transitivity (max_threads * (head_num * 16 * P64)); [|exact HTS].
    apply Z.mul_le_mono_nonneg_r; lia.
Qed.

Lemma thread_region ibs i :
  O_t <= O_t + omp_get_thread_num ibs i * (head_num * 16 * P64)
  /\ O_t + omp_get_thread_num ibs i * (head_num * 16 * P64)
     + head_num * 16 * P64 <= O_e.
Proof using head_num_pos head_size_pos N_pos scratch_fits thread_num_range
    P4 P16 P64 H16 H64 TS O_e.
  clear - head_num_pos head_size_pos N_pos scratch_fits thread_num_range P4
    P16 P64 H16 H64 TS O_e.
  destruct scratch_bounds as (HT & _).
  pose proof (thread_num_range ibs i) as Htid. unfold O_e. split; nia.
Qed.

(** One iteration of the second loop nest leaves the workspace below the
    scratch of the threads, and the buffers of the inputs, as they are. *)
Lemma attention_block_keeps_operands tmp_mask' ibs i st st' o :
  o < O_t ->
  attention_block ker_qxk_ ker_axv_ omp_get_thread_num cfg batch_size head_num
    head_size M N tmp_mask' ibs i st = Some st' ->
  st_mem st' io.WORKSPACE o = st_mem st io.WORKSPACE o.
Proof using batch_size_pos head_num_pos head_size_pos N_pos KV_fits
    scratch_fits thread_num_range P4 P16 P64 H16 H64 KV TS O_k O_v O_s O_t
    O_e ker_qxk_footprint ker_axv_writes.
  clear - batch_size_pos head_num_pos head_size_pos N_pos KV_fits
    scratch_fits thread_num_range P4 P16 P64 H16 H64 KV TS O_k O_v O_s O_t
    O_e ker_qxk_footprint ker_axv_writes.
  intros Ho Hst. apply attention_block_inv in Hst as (flag & _ & _ & Hm & _).
  rewrite Hm.
  rewrite ker_axv_writes by (simpl; discriminate).
  rewrite ker_qxk_footprint; [reflexivity|].
  rewrite mm_qk_dst_off. apply in_range_outside. left. simpl off.
  destruct (thread_region ibs i). lia.
Qed.

Lemma attention_block_keeps_inputs tmp_mask' ibs i st st' b o :
  b <> io.WORKSPACE -> b <> io.DST -> b <> io.DST_SCALE ->
  attention_block ker_qxk_ ker_axv_ omp_get_thread_num cfg batch_size head_num
    head_size M N tmp_mask' ibs i st = Some st' ->
  st_mem st' b o = st_mem st b o.
Proof using batch_size_pos head_num_pos head_size_pos N_pos KV_fits
    scratch_fits thread_num_range P4 P16 P64 H16 H64 KV TS O_k O_v O_s O_t
    O_e ker_qxk_footprint ker_axv_writes.
  clear - batch_size_pos head_num_pos head_size_pos N_pos KV_fits
    scratch_fits thread_num_range P4 P16 P64 H16 H64 KV TS O_k O_v O_s O_t
    O_e ker_qxk_footprint ker_axv_writes.
  intros Hw Hd Hds Hst.
  apply attention_block_inv in Hst as (flag & _ & _ & Hm & _).
  rewrite Hm.
  rewrite ker_axv_writes by (simpl; assumption).
  rewrite ker_qxk_footprint; [reflexivity|].
  rewrite mm_qk_dst_off. apply in_range_other_buffer. exact Hw.
Qed.

(** The second loop nest has a final state, in which the workspace below
    the scratch of the threads and the buffers of the inputs are as they
    were. *)
Lemma fused_attention_keeps tmp_mask' m :
  exists st,
    fused_attention ker_qxk_ ker_axv_ max_threads omp_get_thread_num cfg
      batch_size head_num head_size M N tmp_mask' m = Some st
    /\ (forall o, o < O_t -> st_mem st io.WORKSPACE o = m io.WORKSPACE o)
    /\ (forall b o, b <> io.WORKSPACE -> b <> io.DST -> b <> io.DST_SCALE ->
          st_mem st b o = m b o).
Proof using batch_size_pos head_num_pos head_size_pos N_pos KV_fits
    scratch_fits thread_num_range P4 P16 P64 H16 H64 KV TS O_k O_v O_s O_t
    O_e ker_qxk_footprint ker_axv_writes max_threads_cap.
  clear - batch_size_pos head_num_pos head_size_pos N_pos KV_fits
    scratch_fits thread_num_range P4 P16 P64 H16 H64 KV TS O_k O_v O_s O_t
    O_e ker_qxk_footprint ker_axv_writes max_threads_cap.
  apply (fused_attention_total ker_qxk_ ker_axv_ max_threads omp_get_thread_num
           cfg batch_size head_num head_size M N tmp_mask' m max_threads_cap
           (fun ibs i _ => thread_num_range ibs i)
           (fun st =>
              (forall o, o < O_t -> st_mem st io.WORKSPACE o = m io.WORKSPACE o)
              /\ (forall b o, b <> io.WORKSPACE -> b <> io.DST ->
                    b <> io.DST_SCALE -> st_mem st b o = m b o))).
  - split; reflexivity.
  - intros ibs i st st' _ [Hops Hins] Hst. split.
    + intros o Ho.
      rewrite (attention_block_keeps_operands _ _ _ _ _ _ Ho Hst).
      apply Hops, Ho.
    + intros b o Hw Hd Hds.
      rewrite (attention_block_keeps_inputs _ _ _ _ _ _ _ Hw Hd Hds Hst).
      apply Hins; assumption.
Qed.

(** *** What the three phases write *)

(** X9.  The first loop nest writes the Key, Value and Value-scale
    regions of the workspace only: a byte of another buffer, of the mask
    region (below [tmp_k]) or from [tmp_threads] on is left as it was. *)
Theorem first_loop_nest_writes_operand_regions (m : mem) (b : io.t) (o : Z) :
  b <> io.WORKSPACE \/ o < off (tmp_k batch_size N)
  \/ off (tmp_threads batch_size head_num head_size N) <= o ->
  layout_transform ker_seq_cpy_k_ ker_seq_cpy_v_ batch_size head_num head_size
    N m b o
  = m b o.
Proof using batch_size_pos head_num_pos head_size_pos N_pos KV_fits P4 P16
    P64 H16 H64 KV O_k O_v O_s O_t ker_seq_cpy_k_footprint
    ker_seq_cpy_v_footprint.
  clear - batch_size_pos head_num_pos head_size_pos N_pos KV_fits P4 P16 P64
    H16 H64 KV O_k O_v O_s O_t ker_seq_cpy_k_footprint
    ker_seq_cpy_v_footprint.
  destruct regions_exact as (Ek & _ & _ & Et). rewrite Ek, Et. simpl off.
  apply layout_transform_in_regions.
Qed.




(** *** The mask the QK kernel is given *)


(** *** The bytes [execute] writes *)

(** The AV kernel writes 16 rows of [ld_dst] bytes at [dst] and 16 floats
    at [dst_scale]; seq_q is a multiple of 16 and the size of the output
    fits an [int]. *)
Hypothesis ker_axv_footprint : forall rt m b o,
  in_range (mm_av.dst rt) (16 * mm_av.ld_dst rt) b o = false ->
  in_range (mm_av.dst_scale rt) (4 * 16) b o = false ->
  ker_axv_ rt m b o = m b o.
Hypothesis M_blocks : M mod 16 = 0.
Hypothesis output_fits : batch_size * M * head_size * head_num <= INT_MAX.

Lemma mm_av_dst_in_output ibs i b o :
  valid_iteration batch_size M ibs i ->
  let av := mm_av_data omp_get_thread_num batch_size head_num head_size M N
              ibs i in
  (in_range (mm_av.dst av) (16 * mm_av.ld_dst av) b o = true ->
   b = io.DST /\ 0 <= o < batch_size * M * head_size * head_num)
  /\ (in_range (mm_av.dst_scale av) (4 * 16) b o = true ->
      b = io.DST_SCALE /\ 0 <= o < 4 * (batch_size * M)).
Proof using head_num_pos head_size_pos M_blocks output_fits.
  clear - head_num_pos head_size_pos M_blocks output_fits.
  intros Hv av.
  pose proof (valid_iteration_block M ibs i batch_size Hv M_blocks) as Hblk.
  destruct Hv as (Hi & Him & _).
  destruct (row_offset_exact batch_size M head_num head_size ibs i
              head_num_pos head_size_pos ltac:(lia) output_fits Hi Him)
    as (_ & E2 & EM & Ehh & _ & H0 & H1).
  assert (HS : 0 < head_size * head_num) by nia.
  assert (Hrows : 0 <= ibs * M + i /\ ibs * M + i + 16 <= batch_size * M)
    by nia.
  assert (Hend : (ibs * M + i) * head_size * head_num
                 + 16 * (head_size * head_num)
                 <= batch_size * M * head_size * head_num) by nia.
  unfold av, mm_av_data. cbn [mm_av.dst mm_av.ld_dst mm_av.dst_scale].
  rewrite E2, EM, Ehh. split; intros Hin; apply in_range_spec in Hin.
  - unfold dst, rt_data, ptr_add in Hin. simpl buf in Hin. simpl off in Hin.
    destruct Hin as [-> Ho]. split; [reflexivity|lia].
  - unfold dst_scale, rt_data, ptr_add in Hin. simpl buf in Hin.
    simpl off in Hin. destruct Hin as [-> Ho]. split; [reflexivity|lia].
Qed.

Lemma attention_block_writes_outputs tmp_mask' ibs i st st' b o :
  valid_iteration batch_size M ibs i ->
  ~ in_outputs max_threads batch_size head_num head_size M N b o ->
  attention_block ker_qxk_ ker_axv_ omp_get_thread_num cfg batch_size head_num
    head_size M N tmp_mask' ibs i st = Some st' ->
  st_mem st' b o = st_mem st b o.
Proof using batch_size_pos head_num_pos head_size_pos N_pos KV_fits
    scratch_fits thread_num_range max_threads_cap P4 P16 P64 H16 H64 KV TS O_k
    O_v O_s O_t O_e ker_seq_cpy_k_footprint ker_seq_cpy_v_footprint
    ker_qxk_footprint ker_axv_footprint M_blocks output_fits.
  clear - batch_size_pos head_num_pos head_size_pos N_pos KV_fits
    scratch_fits thread_num_range max_threads_cap P4 P16 P64 H16 H64 KV TS O_k
    O_v O_s O_t O_e ker_seq_cpy_k_footprint ker_seq_cpy_v_footprint
    ker_qxk_footprint ker_axv_footprint M_blocks output_fits.
  intros Hv Hout Hst.
  apply attention_block_inv in Hst as (flag & _ & _ & Hm & _). rewrite Hm.
  destruct (mm_av_dst_in_output ibs i b o Hv) as [Hd Hds].
  destruct scratch_exact as (_ & Ee).
  destruct regions_ordered as (Hk & Hkv & Hs).
  rewrite ker_axv_footprint.
  - rewrite ker_qxk_footprint; [reflexivity|].
    match goal with |- ?x = false => destruct x eqn:Hin end; [|reflexivity].
    exfalso. apply Hout. right. right.
    rewrite mm_qk_dst_off in Hin. apply in_range_spec in Hin.
    simpl buf in Hin. simpl off in Hin. destruct Hin as [-> Ho].
    unfold mm_qk_data in Ho. cbn [mm_qk.batch_size mm_qk.ld_dst] in Ho.
    unfold N_pad64 in Ho. fold P64 in Ho.
    destruct (thread_region ibs i) as [Hlo Hhi].
    rewrite Ee. simpl off. split; [reflexivity|].
    unfold O_t, O_s, O_v, O_k in *. lia.
  - match goal with |- ?x = false => destruct x eqn:Hin end; [|reflexivity].
    exfalso. apply Hout. left. apply Hd. reflexivity.
  - match goal with |- ?x = false => destruct x eqn:Hin end; [|reflexivity].
    exfalso. apply Hout. right. left. apply Hds. reflexivity.
Qed.

(** X19.  When seq_q is a multiple of 16, the sizes fit an [int], the
    micro-kernels write the blocks their parameters describe and there are
    at most 256 threads, [execute] has a result, it returns true, and it
    writes inside the Output tensor, the Output scale and the workspace up
    to [tmp_end] only: every byte of every buffer outside these three
    regions, before or after them, is in the final memory as it was. *)
Theorem execute_writes_within_outputs (m : mem) :
  exists st,
    execute_body ker_seq_cpy_k_ ker_seq_cpy_v_ ker_qxk_ ker_axv_ max_threads
      omp_get_thread_num cfg batch_size head_num head_size M N m
    = Some (true, st)
    /\ forall b o,
         ~ in_outputs max_threads batch_size head_num head_size M N b o ->
         st_mem st b o = m b o.
Proof using batch_size_pos head_num_pos head_size_pos N_pos KV_fits
    scratch_fits thread_num_range max_threads_cap P4 P16 P64 H16 H64 KV TS O_k
    O_v O_s O_t O_e ker_seq_cpy_k_footprint ker_seq_cpy_v_footprint
    ker_qxk_footprint ker_axv_footprint M_blocks output_fits.
  clear - batch_size_pos head_num_pos head_size_pos N_pos KV_fits
    scratch_fits thread_num_range max_threads_cap P4 P16 P64 H16 H64 KV TS O_k
    O_v O_s O_t O_e ker_seq_cpy_k_footprint ker_seq_cpy_v_footprint
    ker_qxk_footprint ker_axv_footprint M_blocks output_fits.
  set (m1 := layout_transform ker_seq_cpy_k_ ker_seq_cpy_v_ batch_size head_num
               head_size N m).
  set (pm := prepare_mask batch_size N m1).
  destruct (fused_attention_total ker_qxk_ ker_axv_ max_threads
              omp_get_thread_num cfg batch_size head_num head_size M N
              (snd pm) (fst pm) max_threads_cap
              (fun ibs i _ => thread_num_range ibs i)
              (fun st => forall b o,
                 ~ in_outputs max_threads batch_size head_num head_size M N b o ->
                 st_mem st b o = fst pm b o)) as (st & E & Hst).
  - intros b o _. reflexivity.
  - intros ibs i st st' Hv HP Hblk b o Hout.
    rewrite (attention_block_writes_outputs _ _ _ _ _ _ _ Hv Hout Hblk).
    apply HP, Hout.
  - exists st. split.
    { unfold execute_body. fold m1. fold pm.
      rewrite (surjective_pairing pm). rewrite E. reflexivity. }
    intros b o Hout. rewrite (Hst b o Hout).
    destruct scratch_exact as (_ & Ee).
    destruct regions_ordered as (Hk & Hkv & Hs).
    assert (Hte : O_t <= O_e).
    { destruct (thread_region 0 0) as [Hlo Hhi].
      destruct scratch_bounds as ((Hsz & _) & _). lia. }
    assert (Hws : b <> io.WORKSPACE \/ o < 0 \/ O_e <= o).
    { destruct (decide (b = io.WORKSPACE)) as [->|Hb]; [|left; exact Hb].
      right. destruct (Z_lt_dec o 0) as [Hneg|Hpos]; [left; exact Hneg|].
      right. destruct (Z_le_dec O_e o) as [Hge|Hlt]; [exact Hge|].
      exfalso. apply Hout. right. right. rewrite Ee. simpl off.
      split; [reflexivity|lia]. }
    unfold pm. rewrite prepare_mask_in_region
      by (destruct Hws as [Hb|[Hneg|Hge]];
          [left; exact Hb|right; left; exact Hneg|right; right; lia]).
    unfold m1. apply layout_transform_in_regions.
    destruct Hws as [Hb|[Hneg|Hge]];
      [left; exact Hb|right; left; lia|right; right; lia].
Qed.

End regions.

(** *** The theorems on the regions with stand-in micro-kernels *)

Lemma marking_qxk_footprint rt m b o :
  in_range (mm_qk.dst rt) (mm_qk.batch_size rt * (16 * mm_qk.ld_dst rt)) b o
  = false ->
  marking_qxk rt m b o = m b o.
Proof. intros H. unfold marking_qxk, fill_n. rewrite Z.mul_1_l, H. reflexivity. Qed.

Lemma marking_axv_writes rt m b o :
  b <> buf (mm_av.dst rt) -> b <> buf (mm_av.dst_scale rt) ->
  marking_axv rt m b o = m b o.
Proof.
  intros H1 H2. unfold marking_axv.
  rewrite !fill_n_other_buffer by assumption. reflexivity.
Qed.

Lemma marking_axv_footprint rt m b o :
  in_range (mm_av.dst rt) (16 * mm_av.ld_dst rt) b o = false ->
  in_range (mm_av.dst_scale rt) (4 * 16) b o = false ->
  marking_axv rt m b o = m b o.
Proof.
  intros H1 H2. unfold marking_axv, fill_n. rewrite Z.mul_1_l, H1, H2.
  reflexivity.
Qed.

Lemma thread_of_batch_range ibs i : 0 <= thread_of_batch ibs i < 2.
Proof. unfold thread_of_batch. apply Z.mod_pos_bound. lia. Qed.

Lemma first_loop_nest_writes_operand_regions_witness :
  layout_transform marking_trans_k marking_trans_v 2 4 64 20 mem_mask_2x20
    io.WORKSPACE 255
  = mem_mask_2x20 io.WORKSPACE 255.
Proof.
  apply (first_loop_nest_writes_operand_regions marking_trans_k marking_trans_v
           2 4 64 20 marking_trans_k_footprint marking_trans_v_footprint).
  - lia.
  - lia.
  - lia.
  - lia.
  - vm_compute. discriminate.
  - right. left. vm_compute. reflexivity.
Defined.

(** The byte after it is the first one of the Key region, which the
    stand-in kernel marks. *)
Example first_loop_nest_writes_key_region :
  off (tmp_k 2 20) = 256
  /\ layout_transform marking_trans_k marking_trans_v 2 4 64 20 mem_mask_2x20
       io.WORKSPACE 256 = 1.
Proof. split; vm_compute; reflexivity. Qed.



(** The two threads of that schedule work 4096 bytes apart. *)
Example thread_scratch_offsets :
  off (mm_qk.dst (mm_qk_data thread_of_batch 2 4 64 16 20 workspace 0 0)) = 51456
  /\ off (mm_qk.dst (mm_qk_data thread_of_batch 2 4 64 16 20 workspace 1 0))
     = 55552
  /\ off (tmp_end 2 2 4 64 20) = 59648.
Proof. repeat split; vm_compute; reflexivity. Qed.




(** The byte after the last one of Output, and the last entry of the
    caller's mask, are left as they were. *)
Lemma execute_writes_within_outputs_witness :
  exists st,
    execute_body marking_trans_k marking_trans_v marking_qxk marking_axv 2
      thread_of_batch (TileParam 16 16 64 false 4) 2 4 64 16 20 mem_mask_2x20
    = Some (true, st)
    /\ st_mem st io.DST (2 * 16 * 64 * 4) = mem_mask_2x20 io.DST (2 * 16 * 64 * 4)
    /\ st_mem st io.BINARY_ADD 156 = mem_mask_2x20 io.BINARY_ADD 156.
Proof.
  assert (Hb : 0 < 2) by lia. assert (Hh : 0 < 4) by lia.
  assert (Hhs : 0 < 64) by lia. assert (HN : 0 < 20) by lia.
  assert (HKV : 2 * 4 * (pad_to 20 64 * pad_to 64 64) <= INT_MAX)
    by (vm_compute; discriminate).
  assert (HTS : 2 * (4 * 16 * pad_to 20 64) <= INT_MAX)
    by (vm_compute; discriminate).
  assert (Hcap : 2 <= amx_init_size) by (vm_compute; discriminate).
  assert (HM : 16 mod 16 = 0) by reflexivity.
  assert (Hout : 2 * 16 * 64 * 4 <= INT_MAX) by (vm_compute; discriminate).
  destruct (execute_writes_within_outputs marking_trans_k marking_trans_v
              marking_qxk marking_axv 2 thread_of_batch
              (TileParam 16 16 64 false 4) 2 4 64 16 20
              marking_trans_k_footprint marking_trans_v_footprint
              marking_qxk_footprint Hb Hh Hhs HN HKV HTS
              thread_of_batch_range Hcap marking_axv_footprint HM Hout
              mem_mask_2x20) as (st & E & H).
  exists st. split; [exact E|]. split; apply H.
  - intros [[_ Ho]|[[Hbuf _]|[Hbuf _]]]; [lia|discriminate|discriminate].
  - intros [[Hbuf _]|[[Hbuf _]|[Hbuf _]]]; discriminate.
Defined.

(** The first byte of Output is written. *)
Example execute_writes_first_output_byte :
  (fun r => st_mem (snd r) io.DST 0)
    <$> execute_body marking_trans_k marking_trans_v marking_qxk marking_axv 2
          thread_of_batch (TileParam 16 16 64 false 4) 2 4 64 16 20
          mem_mask_2x20
  = Some 9.
Proof. vm_compute. reflexivity. Qed.


(** The byte at offset 5000 belongs to the first row block of head 2 of
    batch 0. *)
Example key_block_of_offset_5000 :
  in_range (tr_k.dst (tr_k_data 2 4 64 20 0 2 0)) (16 * pad_to 64 64)
    io.WORKSPACE 5000 = true.
Proof. vm_compute. reflexivity. Qed.

(** ** Tile configuration in the second loop nest *)

Lemma amx_cfg_calls_app l1 l2 :
  amx_cfg_calls (l1 ++ l2) = amx_cfg_calls l1 ++ amx_cfg_calls l2.
Proof.
  unfold amx_cfg_calls. induction l1 as [|c l1 IH]; [reflexivity|].
  cbn [app omap list_omap]. rewrite IH. destruct c; reflexivity.
Qed.

(** Only the threads among [seen] matter, not their order. *)
Lemma calls_ordered_seen seen seen' l :
  (forall x, x ∈ seen <-> x ∈ seen') ->
  calls_ordered seen l -> calls_ordered seen' l.
Proof.
  revert seen seen'. induction l as [|c l IH]; intros seen seen' Heq;
    [trivial|].
  destruct c as [tid p|tid rt|tid rt]; cbn [calls_ordered]; intros [H1 H2].
  - split; [rewrite <- Heq; exact H1|].
    apply (IH (tid :: seen)); [|exact H2].
    intros x. rewrite !elem_of_cons, Heq. tauto.
  - split; [apply Heq, H1|apply (IH seen); assumption].
  - split; [apply Heq, H1|apply (IH seen); assumption].
Qed.

(** Calls in order followed by calls that are in order after them. *)
Lemma calls_ordered_app seen l1 l2 :
  calls_ordered seen l1 ->
  calls_ordered ((fst <$> amx_cfg_calls l1) ++ seen) l2 ->
  calls_ordered seen (l1 ++ l2).
Proof.
  revert seen. induction l1 as [|c l1 IH]; intros seen H1 H2; [exact H2|].
  destruct c as [tid p|tid rt|tid rt]; cbn [calls_ordered app] in *;
    destruct H1 as [Ht H1]; (split; [exact Ht|]); apply IH; try exact H1.
  - revert H2. apply calls_ordered_seen. intros x.
    change (amx_cfg_calls (call_amx_cfg tid p :: l1))
      with ((tid, p) :: amx_cfg_calls l1).
    cbn [fmap list_fmap fst app].
    rewrite ?elem_of_app, ?elem_of_cons, ?elem_of_app. tauto.
  - exact H2.
  - exact H2.
Qed.

(** In calls that are in order a thread is configured after the threads
    seen before, and once. *)
Lemma calls_ordered_NoDup seen l :
  calls_ordered seen l ->
  NoDup (fst <$> amx_cfg_calls l)
  /\ forall tid, tid ∈ fst <$> amx_cfg_calls l -> tid ∉ seen.
Proof.
  revert seen. induction l as [|c l IH]; intros seen H.
  - split; [apply NoDup_nil_2|]. intros tid Hin. inversion Hin.
  - destruct c as [tid p|tid rt|tid rt]; cbn [calls_ordered] in H;
      destruct H as [Ht H]; try exact (IH seen H).
    destruct (IH (tid :: seen) H) as [Hnd Hnew].
    change (amx_cfg_calls (call_amx_cfg tid p :: l))
      with ((tid, p) :: amx_cfg_calls l).
    cbn [fmap list_fmap fst]. split.
    + apply NoDup_cons. split; [|exact Hnd].
      intros Hin. apply (Hnew tid Hin). apply elem_of_cons. left. reflexivity.
    + intros x Hx. apply elem_of_cons in Hx as [->|Hx]; [exact Ht|].
      intros Hs. apply (Hnew x Hx). apply elem_of_cons. right. exact Hs.
Qed.

Section tile_configuration.
Context (ker_qxk_ : mm_qk.rt_data_t -> mem -> mem)
        (ker_axv_ : mm_av.rt_data_t -> mem -> mem).
Context (max_threads : Z) (omp_get_thread_num : Z -> Z -> Z).
Variable cfg : tile_param_t.
Variables batch_size head_num head_size M N : Z.
Variable tmp_mask' : ptr.

(** A thread number is below [max_threads], and there are at most 256
    threads, the entries of [amx_init]. *)
Hypothesis thread_num_range :
  forall ibs i, 0 <= omp_get_thread_num ibs i < max_threads.
Hypothesis max_threads_cap : max_threads <= amx_init_size.

Let block := attention_block ker_qxk_ ker_axv_ omp_get_thread_num cfg
               batch_size head_num head_size M N tmp_mask'.
Let qk := mm_qk_data omp_get_thread_num batch_size head_num head_size M N
            tmp_mask'.
Let av := mm_av_data omp_get_thread_num batch_size head_num head_size M N.

(** One iteration: the calls stay in order and the flags consistent, the
    thread of the iteration is configured and runs the two matrix kernels,
    and the only call of [ker_amx_cfg_] it may add is one for its thread. *)
Lemma attention_block_configured ibs i st st' :
  block ibs i st = Some st' ->
  amx_init_consistent max_threads st -> calls_ordered [] (st_calls st) ->
  amx_init_consistent max_threads st'
  /\ calls_ordered [] (st_calls st')
  /\ omp_get_thread_num ibs i ∈ configured_threads st'
  /\ call_qxk (omp_get_thread_num ibs i) (qk ibs i) ∈ st_calls st'
  /\ call_axv (omp_get_thread_num ibs i) (av ibs i) ∈ st_calls st'
  /\ (forall c, c ∈ st_calls st -> c ∈ st_calls st')
  /\ (forall tid, tid ∈ configured_threads st ->
        tid ∈ configured_threads st')
  /\ (forall e, e ∈ st_amx_cfg st' ->
        e ∈ st_amx_cfg st \/ e = (omp_get_thread_num ibs i, cfg)).
Proof using thread_num_range block qk av.
  clear - thread_num_range block qk av.
  intros Hst (Hlen & Hnd & Hflag) Hord.
  pose proof (thread_num_range ibs i) as Htid.
  apply attention_block_inv in Hst as (flag & _ & Ef & _ & Hfl & Hcalls).
  fold (qk ibs i) (av ibs i) in Hcalls.
  set (tid := omp_get_thread_num ibs i) in *.
  destruct (Hflag tid Htid) as (flag' & Ef' & Hiff).
  rewrite Ef in Ef'. injection Ef' as <-.
  unfold amx_init_consistent, configured_threads, st_amx_cfg in *.
  rewrite Hfl, Hcalls. rewrite !amx_cfg_calls_app.
  change (amx_cfg_calls [call_qxk tid (qk ibs i); call_axv tid (av ibs i)])
    with (@nil (Z * tile_param_t)).
  rewrite app_nil_r.
  assert (Hlast : forall l,
            call_qxk tid (qk ibs i)
              ∈ st_calls st ++ l ++ [call_qxk tid (qk ibs i);
                                      call_axv tid (av ibs i)]
            /\ call_axv tid (av ibs i)
                 ∈ st_calls st ++ l ++ [call_qxk tid (qk ibs i);
                                         call_axv tid (av ibs i)]
            /\ forall c, c ∈ st_calls st ->
                 c ∈ st_calls st ++ l ++ [call_qxk tid (qk ibs i);
                                           call_axv tid (av ibs i)]).
  { intros l. rewrite !elem_of_app, !elem_of_cons.
    split; [tauto|]. split; [tauto|].
    intros c Hc. rewrite !elem_of_app. tauto. }
  destruct (Hlast (if flag then [] else [call_amx_cfg tid cfg]))
    as (Hq & Ha & Hold).
  destruct flag.
  - (* the thread is configured already *)
    assert (Hin : tid ∈ fst <$> amx_cfg_calls (st_calls st))
      by (apply Hiff; reflexivity).
    change (amx_cfg_calls []) with (@nil (Z * tile_param_t)).
    rewrite app_nil_r.
    split; [repeat split; assumption|].
    split.
    { apply calls_ordered_app; [exact Hord|]. cbn [app calls_ordered].
      rewrite app_nil_r. repeat split; assumption. }
    repeat split; auto.
  - (* first iteration of the thread *)
    assert (Hnin : tid ∉ fst <$> amx_cfg_calls (st_calls st)).
    { intros Hin. apply Hiff in Hin. discriminate. }
    change (amx_cfg_calls [call_amx_cfg tid cfg]) with [(tid, cfg)].
    rewrite fmap_app. cbn [fmap list_fmap fst].
    split; [|split; [|split; [|split; [|split; [|split; [|split]]]]]];
      try assumption.
    + split; [rewrite length_insert; exact Hlen|]. split.
      * apply NoDup_app. split; [exact Hnd|]. split; [|apply NoDup_singleton].
        intros x Hx Hx'. apply list_elem_of_singleton in Hx'. subst x.
        contradiction.
      * intros tid' Htid'.
        destruct (decide (tid' = tid)) as [->|Hne].
        -- exists true. rewrite list_lookup_insert_eq by lia.
           split; [reflexivity|]. rewrite elem_of_app, list_elem_of_singleton.
           tauto.
        -- destruct (Hflag tid' Htid') as (f & Ef' & Hiff').
           exists f. rewrite list_lookup_insert_ne by lia.
           split; [exact Ef'|]. rewrite elem_of_app, list_elem_of_singleton.
           tauto.
    + apply calls_ordered_app; [exact Hord|]. cbn [app calls_ordered].
      rewrite app_nil_r. split; [exact Hnin|].
      repeat split; apply elem_of_cons; left; reflexivity.
    + apply elem_of_app. right. apply list_elem_of_singleton. reflexivity.
    + intros tid' Hin. apply elem_of_app. left. exact Hin.
    + intros e He. apply elem_of_app in He as [He|He]; [left; exact He|].
      right. apply list_elem_of_singleton in He. exact He.
Qed.

End tile_configuration.


(** With two batch indices of two row blocks each on two threads, each
    thread is configured once, before its first kernel call. *)
Example tile_configuration_two_threads :
  (fun st => (fun c => match c with
                       | call_amx_cfg tid _ => (tid, 0)
                       | call_qxk tid _ => (tid, 1)
                       | call_axv tid _ => (tid, 2)
                       end) <$> st_calls st)
    <$> fused_attention marking_qxk marking_axv 2 thread_of_batch
          (TileParam 16 16 64 false 4) 2 4 64 32 20 workspace mem_zero
  = Some [(0, 0); (0, 1); (0, 2); (0, 1); (0, 2);
          (1, 0); (1, 1); (1, 2); (1, 1); (1, 2)].
Proof. vm_compute. reflexivity. Qed.

(** With more threads than [amx_init] has entries the call has no defined
    result. *)
Example fused_attention_too_many_threads :
  fused_attention marking_qxk marking_axv 257 thread_of_batch
    (TileParam 16 16 64 false 4) 2 4 64 32 20 workspace mem_zero = None.
Proof. reflexivity. Qed.

(** ** The layout of the tensors of the caller *)

(** X16.  [execute] reads Query, Key and Value and writes the output as
    tensors of shape {batch, seq, heads, head_size} stored row by row, the
    layout of the shapes [init] checks: the Key micro-kernel is given row
    [j] of head [ihn] of batch [ibs], with the distance of two rows of the
    tensor as its leading dimension; the Value micro-kernel column [c] of
    row 0 of that head; the matrix kernels reach head [ihn] of row [i] of
    Query and of the output through [batchstep_src0] and [batchstep_dst];
    and the scales of Query, Key, Value and the output are taken as
    {batch, seq} arrays. *)
Theorem tensors_addressed_row_major
    (omp_get_thread_num : Z -> Z -> Z) (batch_size head_num head_size M N : Z)
    (tmp_mask' : ptr) (ibs ihn j c i : Z) :
  0 < head_num -> 0 < head_size ->
  batch_size * N * head_size * head_num <= INT_MAX ->
  batch_size * M * head_size * head_num <= INT_MAX ->
  0 <= ibs < batch_size -> 0 <= ihn < head_num ->
  0 <= j < N -> 0 <= c < head_size -> 0 <= i < M ->
  let k := tr_k_data batch_size head_num head_size N ibs ihn j in
  let v := tr_v_data batch_size head_num head_size N ibs ihn c in
  let qk := mm_qk_data omp_get_thread_num batch_size head_num head_size M N
              tmp_mask' ibs i in
  let av := mm_av_data omp_get_thread_num batch_size head_num head_size M N
              ibs i in
  tr_k.src k = src_k +₁ row_major N head_num head_size ibs j ihn 0
  /\ tr_k.ld_src k = head_num * head_size
  /\ tr_v.src v = src_v +₁ row_major N head_num head_size ibs 0 ihn c
  /\ tr_v.ld_src v = head_num * head_size
  /\ tr_v.src_scale v = v_scale +₄ (ibs * N)
  /\ mm_qk.src0 qk +₁ (ihn * mm_qk.batchstep_src0 qk)
     = src_q +₁ row_major M head_num head_size ibs i ihn 0
  /\ mm_qk.ld_src0 qk = head_num * head_size
  /\ mm_qk.scale_src0 qk = q_scale +₄ (ibs * M + i)
  /\ mm_qk.scale_src1 qk = k_scale +₄ (ibs * N)
  /\ mm_av.dst av +₁ (ihn * mm_av.batchstep_dst av)
     = dst +₁ row_major M head_num head_size ibs i ihn 0
  /\ mm_av.ld_dst av = head_num * head_size
  /\ mm_av.dst_scale av = dst_scale +₄ (ibs * M + i).
Proof.
  intros Hh Hhs HfN HfM Hi Hih Hj Hc Him k v qk av.
  destruct (row_offset_exact batch_size N head_num head_size ibs j
              Hh Hhs ltac:(lia) HfN Hi Hj)
    as (EN1 & _ & EN & Ehh & EjN & HN0 & HN1).
  destruct (row_offset_exact batch_size M head_num head_size ibs i
              Hh Hhs ltac:(lia) HfM Hi Him)
    as (_ & EM2 & EM & _ & _ & HM0 & HM1).
  assert (Eih : ihn ⊠ head_size = ihn * head_size).
  { apply int_mul_exact. assert (0 <= ihn * head_size <= head_size * head_num) by nia.
    unfold INT_MAX in *. lia. }
  assert (Ehs : to_size head_size = head_size).
  { unfold to_size, SIZE_MOD. apply Z.mod_small.
    assert (head_size <= head_size * head_num) by nia.
    unfold INT_MAX in *. lia. }
  unfold k, v, qk, av, tr_k_data, tr_v_data, mm_qk_data, mm_av_data, row_major.
  cbn [tr_k.src tr_k.ld_src tr_v.src tr_v.ld_src tr_v.src_scale
       mm_qk.src0 mm_qk.batchstep_src0 mm_qk.ld_src0 mm_qk.scale_src0
       mm_qk.scale_src1 mm_av.dst mm_av.batchstep_dst mm_av.ld_dst
       mm_av.dst_scale].
  rewrite EN1, EM2, EjN, EN, EM, Ehh, Eih, Ehs.
  unfold ptr_add, src_k, src_v, src_q, dst, v_scale, q_scale, k_scale,
    dst_scale, rt_data. simpl buf. simpl off.
  repeat split; try reflexivity; try lia; f_equal; lia.
Qed.

Lemma tensors_addressed_row_major_witness :
  tr_k.src (tr_k_data 2 4 64 20 1 3 16)
  = src_k +₁ row_major 20 4 64 1 16 3 0
  /\ mm_av.dst (mm_av_data thread_of_batch 2 4 64 16 20 1 0)
     +₁ (3 * mm_av.batchstep_dst (mm_av_data thread_of_batch 2 4 64 16 20 1 0))
     = dst +₁ row_major 16 4 64 1 0 3 0.
Proof.
  assert (Hh : 0 < 4) by lia. assert (Hhs : 0 < 64) by lia.
  assert (HfN : 2 * 20 * 64 * 4 <= INT_MAX) by (vm_compute; discriminate).
  assert (HfM : 2 * 16 * 64 * 4 <= INT_MAX) by (vm_compute; discriminate).
  assert (Hi : 0 <= 1 < 2) by lia. assert (Hih : 0 <= 3 < 4) by lia.
  assert (Hj : 0 <= 16 < 20) by lia. assert (Hc : 0 <= 0 < 64) by lia.
  assert (Him : 0 <= 0 < 16) by lia.
  destruct (tensors_addressed_row_major thread_of_batch 2 4 64 16 20 workspace
              1 3 16 0 0 Hh Hhs HfN HfM Hi Hih Hj Hc Him)
    as (Hk & _ & _ & _ & _ & _ & _ & _ & _ & Hd & _).
  split; [exact Hk|exact Hd].
Defined.

(** ** The row blocks of the second loop nest *)



(** With seq_q 20 the second row block of the last batch starts at row 36
    of 40 and its 16 rows end 12 rows after the end of the tensor. *)
Example query_row_blocks_20 :
  off (mm_qk.src0 (mm_qk_data thread_of_batch 2 4 64 20 20 workspace 1 16))
  = 36 * 256
  /\ off (mm_qk.src0 (mm_qk_data thread_of_batch 2 4 64 20 20 workspace 1 16))
     + 16 * mm_qk.ld_src0 (mm_qk_data thread_of_batch 2 4 64 20 20 workspace 1 16)
     = 2 * 20 * 64 * 4 + 12 * 256.
Proof. split; vm_compute; reflexivity. Qed.
